(** * Serverless backend API: users and assets handlers

    A shallow embedding of the two TypeScript Lambda handlers
    ([lambda/typescript/src/users-handler.ts] and
    [lambda/typescript/src/assets-handler.ts]) together with the part of
    the JavaScript runtime and of the key-value store they rely on, and
    the properties of idempotent creation, retry-protected reads, partial
    update and error conversion established on it. *)

From stdpp Require Import gmap strings list pretty.
From Stdlib Require Import ZArith Lia Ascii.

Set Warnings "-register-all".

Open Scope string_scope.
Open Scope Z_scope.

(** ** JavaScript values *)

Module JS.

(** Request bodies and stored records are JSON data.  Numbers are the
    integers (every number the handlers compute themselves is an epoch
    second); an object is the list of its properties, of distinct names,
    in enumeration order. *)
Inductive json : Type :=
  | JNull
  | JBool (b : bool)
  | JNum (n : Z)
  | JStr (s : string)
  | JArr (xs : list json)
  | JObj (fields : list (string * json)).

(** The result of a property read or of an optional field is [option json],
    [None] standing for [undefined]. *)
Definition truthy (v : option json) : bool :=
  match v with
  | None => false
  | Some JNull => false
  | Some (JBool b) => b
  | Some (JNum n) => negb (n =? 0)%Z
  | Some (JStr s) => negb (String.eqb s "")
  | Some (JArr _) => true
  | Some (JObj _) => true
  end.

Fixpoint assoc (k : string) (fs : list (string * json)) : option json :=
  match fs with
  | [] => None
  | (k', v) :: rest => if String.eqb k k' then Some v else assoc k rest
  end.

(** [obj.k = v]: an existing property keeps its place, a new one is
    appended. *)
Fixpoint obj_set (k : string) (v : json) (fs : list (string * json))
  : list (string * json) :=
  match fs with
  | [] => [(k, v)]
  | (k', v') :: rest =>
      if String.eqb k k' then (k, v) :: rest else (k', v') :: obj_set k v rest
  end.

(** An exception carries the [name] the handlers test. *)
Record Error : Type := mkError { name : string }.

Definition TypeError : Error := mkError "TypeError".
Definition SyntaxError : Error := mkError "SyntaxError".

(** [v.k] for the property names the handlers read (none of them is an
    own property of a string or an array): reading a property of [null]
    throws, a primitive or an array has no such property. *)
Definition get_prop (v : json) (k : string) : Error + option json :=
  match v with
  | JNull => inl TypeError
  | JObj fs => inr (assoc k fs)
  | _ => inr None
  end.

Fixpoint index_from (i : nat) (xs : list json) : list (string * json) :=
  match xs with
  | [] => []
  | x :: rest => (pretty i, x) :: index_from (S i) rest
  end.

Fixpoint chars_of (s : string) : list json :=
  match s with
  | EmptyString => []
  | String c rest => JStr (String c EmptyString) :: chars_of rest
  end.

(** [Object.entries(v)]. *)
Definition Object_entries (v : json) : Error + list (string * json) :=
  match v with
  | JNull => inl TypeError
  | JObj fs => inr fs
  | JArr xs => inr (index_from 0 xs)
  | JStr s => inr (index_from 0 (chars_of s))
  | JBool _ | JNum _ => inr []
  end.

Fixpoint join (sep : string) (parts : list string) : string :=
  match parts with
  | [] => ""
  | [p] => p
  | p :: rest => p +:+ sep +:+ join sep rest
  end.

Fixpoint sequence (parts : list (Error + string)) : Error + list string :=
  match parts with
  | [] => inr []
  | inl e :: _ => inl e
  | inr p :: rest =>
      match sequence rest with
      | inl e => inl e
      | inr ps => inr (p :: ps)
      end
  end.

(** String conversion, as performed by a template literal.  A number is
    printed in decimal, as JavaScript prints the integers below 10^21
    (the safe integers among them).  An object
    is converted through its [toString] property; in an object that came
    out of [JSON.parse] an own property of that name is no function, the
    inherited [valueOf] answers the object itself, and the conversion
    throws.  The elements of an array are converted one after the other,
    [null] to the empty string. *)
Fixpoint toString (v : json) : Error + string :=
  match v with
  | JNull => inr "null"
  | JBool true => inr "true"
  | JBool false => inr "false"
  | JNum n => inr (pretty n)
  | JStr s => inr s
  | JArr xs =>
      match
        sequence
          (map (fun x => match x with JNull => inr "" | _ => toString x end) xs)
      with
      | inl e => inl e
      | inr parts => inr (join "," parts)
      end
  | JObj fs =>
      match assoc "toString" fs with
      | Some _ => inl TypeError
      | None => inr "[object Object]"
      end
  end.

(** *** JSON.stringify *)

Definition dquote : ascii := "034"%char.
Definition backslash : ascii := "092"%char.

Definition hex_digit (n : N) : ascii :=
  match String.get (N.to_nat n) "0123456789abcdef" with
  | Some c => c
  | None => "0"%char
  end.

Definition escape_char (c : ascii) : string :=
  let n := N_of_ascii c in
  if Ascii.eqb c dquote then String backslash (String dquote "")
  else if Ascii.eqb c backslash then String backslash (String backslash "")
  else if (n =? 8)%N then String backslash "b"
  else if (n =? 9)%N then String backslash "t"
  else if (n =? 10)%N then String backslash "n"
  else if (n =? 12)%N then String backslash "f"
  else if (n =? 13)%N then String backslash "r"
  else if (n <? 32)%N then
    String backslash "u00" +:+
    String (hex_digit (n / 16)) (String (hex_digit (n mod 16)) "")
  else String c "".

Fixpoint escape (s : string) : string :=
  match s with
  | EmptyString => ""
  | String c rest => escape_char c +:+ escape rest
  end.

Definition quote (s : string) : string :=
  String dquote (escape s) +:+ String dquote "".

Fixpoint JSON_stringify (v : json) : string :=
  match v with
  | JNull => "null"
  | JBool true => "true"
  | JBool false => "false"
  | JNum n => pretty n
  | JStr s => quote s
  | JArr xs =>
      "[" +:+ join "," (map JSON_stringify xs) +:+ "]"
  | JObj fs =>
      "{" +:+
      join "," (map (fun kv => quote (fst kv) +:+ ":" +:+ JSON_stringify (snd kv)) fs)
      +:+ "}"
  end.

(** The text of a request body is kept through what [JSON.parse] makes of
    it: the value it denotes, or a syntax error. *)
Inductive BodyText : Type :=
  | Json (v : json)
  | NotJson (raw : string).

Definition JSON_parse (t : BodyText) : Error + json :=
  match t with
  | Json v => inr v
  | NotJson _ => inl SyntaxError
  end.

End JS.

(** ** The runtime: store, clock and exceptions *)

Module Runtime.
Import JS.

(** A stored record is an object: its attributes, kept and answered by
    the store in the order they were written. *)
Abbreviation Item := (list (string * json)).

(** What is sent to the key-value store.  [Key] is the object [{ pk: v }];
    an update carries its SET clauses (attribute, placeholder) in the
    order the handler pushed them and its [ExpressionAttributeValues]. *)
Inductive Command : Type :=
  | GetCommand (Key : Item)
  | PutCommand (item : Item) (attribute_not_exists : string)
  | UpdateCommand (Key : Item) (updateExpr : list (string * string))
      (exprAttr : Item)
  | DeleteCommand (Key : Item).

(** The attribute names that can stand in an update expression as they
    are: one token, a letter followed by letters, digits and underscores
    (no dot, bracket, blank or leading digit), that is none of the reserved
    words of the store. *)
Definition is_letter (c : ascii) : bool :=
  let n := N_of_ascii c in
  ((65 <=? n) && (n <=? 90) || (97 <=? n) && (n <=? 122))%N.
Definition is_digit (c : ascii) : bool :=
  let n := N_of_ascii c in ((48 <=? n) && (n <=? 57))%N.
Definition lower (c : ascii) : ascii :=
  let n := N_of_ascii c in
  if ((65 <=? n) && (n <=? 90))%N then ascii_of_N (n + 32) else c.

Fixpoint token_rest (s : string) : bool :=
  match s with
  | EmptyString => true
  | String c rest =>
      (is_letter c || is_digit c || Ascii.eqb c "_") && token_rest rest
  end.

Definition token (s : string) : bool :=
  match s with
  | EmptyString => false
  | String c rest => is_letter c && token_rest rest
  end.

Fixpoint lowercase (s : string) : string :=
  match s with
  | EmptyString => EmptyString
  | String c rest => String (lower c) (lowercase rest)
  end.

(** Some of the reserved words of the store, those nearest to the
    attributes of this API; they are compared without regard to case. *)
Definition reserved_names : list string :=
  ["name"; "status"; "ttl"; "timestamp"; "user"; "type"; "size"; "data";
   "date"; "time"; "key"; "value"].

Definition api_reserved (s : string) : bool :=
  existsb (String.eqb (lowercase s)) reserved_names.

(** A request to the presigner of the object store. *)
Inductive S3Command : Type :=
  | PutObjectCommand (Bucket Key : string) (ContentType : json)
  | GetObjectCommand (Bucket Key : option json).

(** What other clients of the table do between two calls of a handler. *)
Inductive EnvOp : Type :=
  | EnvPut (k : string) (item : Item)
  | EnvDelete (k : string).

(** One call to the store as the environment shapes it: the writes of
    concurrent clients that land before it, and whether the call itself
    fails (throttling, network, ...). *)
Record Turn : Type := mkTurn {
  before : list EnvOp;
  fault : option Error
}.

Definition quiet : Turn := mkTurn [] None.

Record Config : Type := mkConfig {
  keyName : string;      (* partition key attribute of the table *)
  bucketName : string;   (* process.env.ASSETS_BUCKET_NAME *)
  signer : S3Command -> Z -> Error + string;
  reserved : string -> bool   (* the reserved words of the store *)
}.

Definition bare_name (c : Config) (s : string) : bool :=
  token s && negb (reserved c s).

Record World : Type := mkWorld {
  config : Config;
  table : gmap string Item;
  schedule : list Turn;  (* one entry per store call; none left: quiet *)
  clock : Z;             (* Date.now(), milliseconds *)
  slept : list Z;        (* the delays passed to sleep, oldest first *)
  sent : list Command    (* the commands sent to the store, oldest first *)
}.

(** The same world at another time. *)
Definition with_clock (c : Z) (w : World) : World :=
  mkWorld (config w) (table w) (schedule w) c (slept w) (sent w).

(** A computation of the handler: it returns or throws, and changes the
    world. *)
Definition M (A : Type) : Type := World -> (Error + A) * World.

Definition ret {A} (a : A) : M A := fun w => (inr a, w).
Definition throw {A} (e : Error) : M A := fun w => (inl e, w).
Definition bind {A B} (m : M A) (k : A -> M B) : M B :=
  fun w =>
    match m w with
    | (inr a, w') => k a w'
    | (inl e, w') => (inl e, w')
    end.
Definition try_catch {A} (m : M A) (handle : Error -> M A) : M A :=
  fun w =>
    match m w with
    | (inr a, w') => (inr a, w')
    | (inl e, w') => handle e w'
    end.
Definition lift {A} (r : Error + A) : M A :=
  match r with
  | inr a => ret a
  | inl e => throw e
  end.

Notation "'let*' x ':=' m 'in' k" := (bind m (fun x => k))
  (at level 10, x name, m at level 100, k at level 200).
Notation "m ';;' k" := (bind m (fun _ => k))
  (at level 100, k at level 200, right associativity).

Definition Date_now : M Z := fun w => (inr (clock w), w).

(** [sleep(ms)] resolves once [ms] milliseconds have passed. *)
Definition sleep (ms : Z) : M unit :=
  fun w =>
    (inr tt,
     mkWorld (config w) (table w) (schedule w) (clock w + ms)
       (slept w ++ [ms]) (sent w)).

(** *** The document client *)

(** The largest integer the document client turns into a number of the
    store, [Number.MAX_SAFE_INTEGER]. *)
Definition MAX_SAFE_INTEGER : Z := 9007199254740991.

(** The values the document client can hand to the store: it throws on a
    number beyond the safe integers, wherever it stands. *)
Fixpoint marshallable (v : json) : bool :=
  match v with
  | JNum n => (- MAX_SAFE_INTEGER <=? n) && (n <=? MAX_SAFE_INTEGER)
  | JArr xs => forallb marshallable xs
  | JObj fs => forallb (fun kv => marshallable (snd kv)) fs
  | _ => true
  end.

Definition command_values (cmd : Command) : list json :=
  match cmd with
  | GetCommand Key => map snd Key
  | PutCommand item _ => map snd item
  | UpdateCommand Key _ exprAttr => (map snd Key ++ map snd exprAttr)%list
  | DeleteCommand Key => map snd Key
  end.

Definition marshals (cmd : Command) : bool :=
  forallb marshallable (command_values cmd).

Definition MarshallError : Error := mkError "Error".

(** *** The key-value store *)

Definition ValidationException : Error := mkError "ValidationException".
Definition ConditionalCheckFailedException : Error :=
  mkError "ConditionalCheckFailedException".

(** The key schema of both tables is one string attribute. *)
Definition key_of (pk : string) (Key : Item) : option string :=
  match Key with
  | [(k, JStr s)] =>
      if String.eqb k pk && negb (String.eqb s "") then Some s else None
  | _ => None
  end.

Definition item_key (pk : string) (item : Item) : option string :=
  match assoc pk item with
  | Some (JStr s) => if String.eqb s "" then None else Some s
  | _ => None
  end.

Definition apply_env (op : EnvOp) (t : gmap string Item) : gmap string Item :=
  match op with
  | EnvPut k item => <[k := item]> t
  | EnvDelete k => delete k t
  end.

Definition exec_get (pk : string) (Key : Item) (t : gmap string Item)
  : Error + (option Item * gmap string Item) :=
  match key_of pk Key with
  | None => inl ValidationException
  | Some k => inr (t !! k, t)
  end.

(** A put conditioned on [attribute_not_exists(a)], of an item the
    document client has marshalled (see [send]). *)
Definition exec_put (pk : string) (item : Item) (a : string)
    (t : gmap string Item) : Error + (unit * gmap string Item) :=
  match item_key pk item with
  | None => inl ValidationException
  | Some k =>
      match t !! k with
      | Some old =>
          match assoc a old with
          | Some _ => inl ConditionalCheckFailedException
          | None => inr (tt, <[k := item]> t)
          end
      | None => inr (tt, <[k := item]> t)
      end
  end.

Fixpoint apply_sets (clauses : list (string * string)) (values : Item)
    (item : Item) : option Item :=
  match clauses with
  | [] => Some item
  | (attr, placeholder) :: rest =>
      match assoc placeholder values with
      | None => None
      | Some v => apply_sets rest values (obj_set attr v item)
      end
  end.

Fixpoint paths_overlap (attrs : list string) : bool :=
  match attrs with
  | [] => false
  | a :: rest => existsb (String.eqb a) rest || paths_overlap rest
  end.

(** An update with [ReturnValues: 'ALL_NEW'], its attribute names written
    into the expression as they are: it creates the record when there is
    none, rejects an expression with a name the store does not take as it
    is ([bare], see [bare_name]), one that sets a path twice or sets the
    key attribute, and answers the record as written. *)
Definition exec_update (bare : string -> bool) (pk : string) (Key : Item)
    (clauses : list (string * string)) (values : Item)
    (t : gmap string Item) : Error + (Item * gmap string Item) :=
  match key_of pk Key with
  | None => inl ValidationException
  | Some k =>
      if negb (forallb bare (map fst clauses))
         || paths_overlap (map fst clauses)
         || existsb (String.eqb pk) (map fst clauses)
      then inl ValidationException
      else
        match apply_sets clauses values (default Key (t !! k)) with
        | None => inl ValidationException
        | Some new => inr (new, <[k := new]> t)
        end
  end.

Definition exec_delete (pk : string) (Key : Item) (t : gmap string Item)
  : Error + (unit * gmap string Item) :=
  match key_of pk Key with
  | None => inl ValidationException
  | Some k => inr (tt, delete k t)
  end.

(** [docClient.send(command)]: the document client throws on a command it
    cannot marshall, before anything is sent; otherwise the next turn of
    the schedule is taken, the concurrent writes land, then the call fails
    or is executed. *)
Definition next_turn (w : World) : Turn := hd quiet (schedule w).

Definition run_env (ops : list EnvOp) (t : gmap string Item) : gmap string Item :=
  foldl (fun t op => apply_env op t) t ops.

(** The table as the next call finds it. *)
Definition seen (w : World) : gmap string Item :=
  run_env (before (next_turn w)) (table w).

Definition after_call (cmd : Command) (t : gmap string Item) (w : World) : World :=
  mkWorld (config w) t (tl (schedule w)) (clock w) (slept w)
    (sent w ++ [cmd]).

Definition send {A} (cmd : Command)
    (exec : Config -> gmap string Item -> Error + (A * gmap string Item))
  : M A :=
  fun w =>
    if marshals cmd then
      match fault (next_turn w) with
      | Some e => (inl e, after_call cmd (seen w) w)
      | None =>
          match exec (config w) (seen w) with
          | inl e => (inl e, after_call cmd (seen w) w)
          | inr (a, t') => (inr a, after_call cmd t' w)
          end
      end
    else (inl MarshallError, w).

Definition send_get (Key : Item) : M (option Item) :=
  send (GetCommand Key) (fun c => exec_get (keyName c) Key).
Definition send_put (item : Item) (a : string) : M unit :=
  send (PutCommand item a) (fun c => exec_put (keyName c) item a).
Definition send_update (Key : Item) (clauses : list (string * string))
    (values : Item) : M Item :=
  send (UpdateCommand Key clauses values)
    (fun c => exec_update (bare_name c) (keyName c) Key clauses values).
Definition send_delete (Key : Item) : M unit :=
  send (DeleteCommand Key) (fun c => exec_delete (keyName c) Key).

Definition getSignedUrl (cmd : S3Command) (expiresIn : Z) : M string :=
  fun w => (signer (config w) cmd expiresIn, w).

(** *** Requests and responses *)

Record Event : Type := mkEvent {
  httpMethod : string;
  pathParameters : option (gmap string string);
  body : option BodyText   (* [None]: null *)
}.

Record Response : Type := mkResponse {
  statusCode : Z;
  body_text : string
}.

Definition text_truthy (t : BodyText) : bool :=
  match t with
  | Json _ => true
  | NotJson raw => negb (String.eqb raw "")
  end.

(** [event.body ? JSON.parse(event.body) : {}] *)
Definition parse_body (b : option BodyText) : M json :=
  match b with
  | None => ret (JObj [])
  | Some t => if text_truthy t then lift (JSON_parse t) else ret (JObj [])
  end.

(** [(event.pathParameters || {}).k] *)
Definition path_param (e : Event) (k : string) : option string :=
  match pathParameters e with
  | None => None
  | Some ps => ps !! k
  end.

(** [if (id)] on a path parameter: it is there and not the empty string. *)
Definition given (s : option string) : option string :=
  match s with
  | Some s => if String.eqb s "" then None else Some s
  | None => None
  end.

(** [if (v)] on a property just read: the value when it is truthy. *)
Definition required (v : option json) : option json :=
  if truthy v then v else None.

Definition json_response (status : Z) (v : json) : Response :=
  mkResponse status (JSON_stringify v).

Definition error_response (status : Z) (message : string) : Response :=
  json_response status (JObj [("error", JStr message)]).

Definition floor_seconds (ms : Z) : Z := ms / 1000.

End Runtime.

(** ** users-handler.ts *)

Module Users.
Import JS Runtime.

Definition Key (userId : json) : Item := [("userId", userId)].

Definition retries : Z := 3.
Definition backoff : Z := 100.

Definition getUser_fallback : Response :=
  error_response 500 "Failed to get user".

(** The retry loop of [getUser], entered at [attempt] with
    [remaining = retries - attempt] iterations to go; [None] is the loop
    running to its end without returning. *)
Fixpoint getUser_loop (remaining : nat) (attempt : Z) (userId : string)
  : M (option Response) :=
  match remaining with
  | O => ret None
  | S remaining' =>
      try_catch
        (let* response := send_get (Key (JStr userId)) in
         match response with
         | None => ret (Some (error_response 404 "User not found"))
         | Some item => ret (Some (json_response 200 (JObj item)))
         end)
        (fun error =>
           if attempt <? retries - 1 then
             sleep (backoff * 2 ^ attempt);;
             getUser_loop remaining' (attempt + 1) userId
           else throw error)
  end.

Definition getUser (userId : string) : M Response :=
  let* r := getUser_loop (Z.to_nat retries) 0 userId in
  match r with
  | Some response => ret response
  | None => ret getUser_fallback
  end.

Definition ttl_seconds : Z := 90 * 24 * 60 * 60.

Definition optional_field (body : json) (k : string) (item : Item) : M Item :=
  let* v := lift (get_prop body k) in
  match required v with
  | Some v => ret (obj_set k v item)
  | None => ret item
  end.

Definition already_exists (item : Item) : Response :=
  json_response 200
    (JObj [("message", JStr "User already exists"); ("user", JObj item)]).

Definition createUser (body : json) : M Response :=
  let* userId := lift (get_prop body "userId") in
  let* email := lift (get_prop body "email") in
  match required userId, required email with
  | Some userId, Some email =>
      try_catch
        (let* existing := send_get (Key userId) in
         match existing with
         | Some item => ret (already_exists item)
         | None =>
             let* ms := Date_now in
             let now := floor_seconds ms in
             let item : Item :=
               [("userId", userId); ("email", email);
                ("createdAt", JNum now); ("ttl", JNum (now + ttl_seconds))] in
             let* item := optional_field body "name" item in
             let* item := optional_field body "department" item in
             send_put item "userId";;
             ret (json_response 201
                    (JObj [("message", JStr "User created"); ("user", JObj item)]))
         end)
        (fun error =>
           if String.eqb (name error) "ConditionalCheckFailedException" then
             let* existing := send_get (Key userId) in
             match existing with
             | Some item => ret (already_exists item)
             | None => throw error
             end
           else throw error)
  | _, _ => ret (error_response 400 "userId and email are required")
  end.

(** The SET clauses and the values [updateUser] builds from the entries of
    the body, starting from the clause for [updatedAt]. *)
Definition update_step (acc : list (string * string) * Item)
    (entry : string * json) : list (string * string) * Item :=
  let '(updateExpr, exprAttr) := acc in
  let '(key, value) := entry in
  if negb (String.eqb key "userId") then
    ((updateExpr ++ [(key, ":" +:+ key)])%list, obj_set (":" +:+ key) value exprAttr)
  else (updateExpr, exprAttr).

Definition update_clauses (now : Z) (entries : list (string * json))
  : list (string * string) * Item :=
  foldl update_step
    ([("updatedAt", ":updatedAt")], [(":updatedAt", JNum now)]) entries.

(** [updateExpr.join(', ')], the first element carrying the [SET]. *)
Definition UpdateExpression (clauses : list (string * string)) : string :=
  "SET " +:+ join ", " (map (fun c => fst c +:+ " = " +:+ snd c) clauses).

Definition updateUser (userId : string) (body : json) : M Response :=
  try_catch
    (let* existing := send_get (Key (JStr userId)) in
     match existing with
     | None => ret (error_response 404 "User not found")
     | Some _ =>
         let* ms := Date_now in
         let* entries := lift (Object_entries body) in
         let '(updateExpr, exprAttr) :=
           update_clauses (floor_seconds ms) entries in
         let* response := send_update (Key (JStr userId)) updateExpr exprAttr in
         ret (json_response 200 (JObj response))
     end)
    (fun error => throw error).

Definition deleteUser (userId : string) : M Response :=
  try_catch
    (send_delete (Key (JStr userId));;
     ret (json_response 200 (JObj [("message", JStr "User deleted successfully")])))
    (fun error => throw error).

Definition method_not_allowed : Response :=
  error_response 405 "Method not allowed".
Definition internal_server_error : Response :=
  error_response 500 "Internal server error".

(** The [switch]: [None] is a [break] or no matching case. *)
Definition dispatch (method : string) (userId : option string) (body : json)
  : M (option Response) :=
  if String.eqb method "GET" then
    match given userId with
    | Some userId => let* r := getUser userId in ret (Some r)
    | None => ret None
    end
  else if String.eqb method "POST" then
    let* r := createUser body in ret (Some r)
  else if String.eqb method "PUT" then
    match given userId with
    | Some userId => let* r := updateUser userId body in ret (Some r)
    | None => ret None
    end
  else if String.eqb method "DELETE" then
    match given userId with
    | Some userId => let* r := deleteUser userId in ret (Some r)
    | None => ret None
    end
  else ret None.

Definition handler (event : Event) : M Response :=
  let method := httpMethod event in
  let userId := path_param event "id" in
  let* body := parse_body (body event) in
  try_catch
    (let* r := dispatch method userId body in
     match r with
     | Some response => ret response
     | None => ret method_not_allowed
     end)
    (fun error => ret internal_server_error).

End Users.

(** ** assets-handler.ts *)

Module Assets.
Import JS Runtime.

Definition Key (assetId : json) : Item := [("assetId", assetId)].

Definition ttl_seconds : Z := 30 * 24 * 60 * 60.

Definition already_exists (item : Item) : Response :=
  json_response 200
    (JObj [("message", JStr "Asset already exists"); ("asset", JObj item)]).

(** [`assets/${assetId}/${fileName}`] *)
Definition s3Key_template (assetId fileName : json) : Error + string :=
  match toString assetId with
  | inl e => inl e
  | inr a =>
      match toString fileName with
      | inl e => inl e
      | inr f => inr ("assets/" +:+ a +:+ "/" +:+ f)
      end
  end.

Definition uploadAsset (body : json) : M Response :=
  let* assetId := lift (get_prop body "assetId") in
  let* fileName := lift (get_prop body "fileName") in
  let* contentType := lift (get_prop body "contentType") in
  let contentType :=
    default (JStr "application/octet-stream") (required contentType) in
  match required assetId, required fileName with
  | Some assetId, Some fileName =>
      try_catch
        (let* s3Key := lift (s3Key_template assetId fileName) in
         let* existing := send_get (Key assetId) in
         match existing with
         | Some item => ret (already_exists item)
         | None =>
             let* ms := Date_now in
             let now := floor_seconds ms in
             fun w =>
               let bucket := bucketName (config w) in
               let item : Item :=
                 [("assetId", assetId); ("fileName", fileName);
                  ("contentType", contentType); ("s3Key", JStr s3Key);
                  ("s3Bucket", JStr bucket); ("status", JStr "pending");
                  ("createdAt", JNum now); ("ttl", JNum (now + ttl_seconds))] in
               (send_put item "assetId";;
                let* uploadUrl :=
                  getSignedUrl (PutObjectCommand bucket s3Key contentType) 3600 in
                ret (json_response 201
                       (JObj [("message", JStr "Asset metadata created");
                              ("asset", JObj item);
                              ("uploadUrl", JStr uploadUrl)]))) w
         end)
        (fun error =>
           if String.eqb (name error) "ConditionalCheckFailedException" then
             let* existing := send_get (Key assetId) in
             match existing with
             | Some item => ret (already_exists item)
             | None => throw error
             end
           else throw error)
  | _, _ => ret (error_response 400 "assetId and fileName are required")
  end.

Definition getAsset (assetId : string) : M Response :=
  try_catch
    (let* response := send_get (Key (JStr assetId)) in
     match response with
     | None => ret (error_response 404 "Asset not found")
     | Some item => ret (json_response 200 (JObj item))
     end)
    (fun error => throw error).

(** A property that is [undefined] is left out by [JSON.stringify]. *)
Definition defined (k : string) (v : option json) : list (string * json) :=
  match v with
  | Some v => [(k, v)]
  | None => []
  end.

Definition getDownloadUrl (assetId : string) : M Response :=
  try_catch
    (let* response := send_get (Key (JStr assetId)) in
     match response with
     | None => ret (error_response 404 "Asset not found")
     | Some item =>
         let* downloadUrl :=
           getSignedUrl
             (GetObjectCommand (assoc "s3Bucket" item) (assoc "s3Key" item)) 3600 in
         ret (json_response 200
                (JObj ([("downloadUrl", JStr downloadUrl)]
                       ++ defined "fileName" (assoc "fileName" item)
                       ++ defined "contentType" (assoc "contentType" item))%list))
     end)
    (fun error => throw error).

Definition method_not_allowed : Response :=
  error_response 405 "Method not allowed".
Definition internal_server_error : Response :=
  error_response 500 "Internal server error".

Definition dispatch (method : string) (assetId : option string)
    (action : string) (body : json) : M (option Response) :=
  if String.eqb method "POST" then
    let* r := uploadAsset body in ret (Some r)
  else if String.eqb method "GET" then
    match given assetId with
    | Some assetId =>
        if String.eqb action "download" then
          let* r := getDownloadUrl assetId in ret (Some r)
        else
          let* r := getAsset assetId in ret (Some r)
    | None => ret None
    end
  else ret None.

Definition handler (event : Event) : M Response :=
  let method := httpMethod event in
  let* body := parse_body (body event) in
  let assetId := path_param event "id" in
  let action := default "" (given (path_param event "action")) in
  try_catch
    (let* r := dispatch method assetId action body in
     match r with
     | Some response => ret response
     | None => ret method_not_allowed
     end)
    (fun error => ret internal_server_error).

End Assets.

(** ** Facts about the runtime *)

Module RuntimeFacts.
Import JS Runtime.

(** The outcome of a point-read in world [w]. *)
Definition get_result (Key : Item) (w : World) : Error + option Item :=
  match fault (next_turn w) with
  | Some e => inl e
  | None =>
      match key_of (keyName (config w)) Key with
      | None => inl ValidationException
      | Some k => inr (seen w !! k)
      end
  end.

Lemma send_get_eq (Key : Item) (w : World) :
  marshals (GetCommand Key) = true ->
  send_get Key w = (get_result Key w, after_call (GetCommand Key) (seen w) w).
Proof.
  intros Hm. unfold send_get, send, get_result, exec_get. rewrite Hm.
  destruct (fault (next_turn w)); [reflexivity|].
  destruct (key_of (keyName (config w)) Key); reflexivity.
Qed.

Lemma key_of_string (pk k : string) :
  k ≠ "" -> key_of pk [(pk, JStr k)] = Some k.
Proof.
  intros Hk. unfold key_of.
  rewrite String.eqb_refl.
  destruct (String.eqb_spec k ""); [contradiction|reflexivity].
Qed.

Lemma get_result_found (pk k : string) (w : World) :
  keyName (config w) = pk -> k ≠ "" -> fault (next_turn w) = None ->
  get_result [(pk, JStr k)] w = inr (seen w !! k).
Proof.
  intros Hpk Hk Hf. unfold get_result.
  rewrite Hf, Hpk, key_of_string by assumption. reflexivity.
Qed.

Lemma next_turn_nil (w : World) : schedule w = [] -> next_turn w = quiet.
Proof. unfold next_turn. intros ->. reflexivity. Qed.

Lemma seen_nil (w : World) : schedule w = [] -> seen w = table w.
Proof. unfold seen. intros H. rewrite next_turn_nil by assumption. reflexivity. Qed.

Lemma next_turn_cons (w : World) (turn : Turn) (rest : list Turn) :
  schedule w = turn :: rest -> next_turn w = turn.
Proof. unfold next_turn. intros ->. reflexivity. Qed.

Lemma seen_cons (w : World) (turn : Turn) (rest : list Turn) :
  schedule w = turn :: rest -> seen w = run_env (before turn) (table w).
Proof. unfold seen. intros H. rewrite (next_turn_cons _ _ _ H). reflexivity. Qed.

Lemma run_env_app (ops1 ops2 : list EnvOp) (t : gmap string Item) :
  run_env (ops1 ++ ops2) t = run_env ops2 (run_env ops1 t).
Proof. unfold run_env. apply foldl_app. Qed.

Lemma assoc_obj_set_eq (k : string) (v : json) (fs : Item) :
  assoc k (obj_set k v fs) = Some v.
Proof.
  induction fs as [|[k' v'] fs IH]; simpl.
  - rewrite String.eqb_refl. reflexivity.
  - destruct (String.eqb_spec k k') as [->|Hne]; simpl.
    + rewrite String.eqb_refl. reflexivity.
    + destruct (String.eqb_spec k k'); [contradiction|exact IH].
Qed.

Lemma assoc_obj_set_ne (k k' : string) (v : json) (fs : Item) :
  k ≠ k' -> assoc k (obj_set k' v fs) = assoc k fs.
Proof.
  intros Hne. induction fs as [|[k0 v0] fs IH]; simpl.
  - destruct (String.eqb_spec k k'); [contradiction|reflexivity].
  - destruct (String.eqb_spec k' k0) as [->|Hne0]; simpl.
    + destruct (String.eqb_spec k k0); [contradiction|reflexivity].
    + destruct (String.eqb_spec k k0); [reflexivity|exact IH].
Qed.

Lemma required_truthy (v : json) : truthy (Some v) = true -> required (Some v) = Some v.
Proof. unfold required. intros ->. reflexivity. Qed.

Lemma required_string (s : string) : s ≠ "" -> required (Some (JStr s)) = Some (JStr s).
Proof.
  intros Hne. apply required_truthy. simpl.
  destruct (String.eqb_spec s ""); [contradiction|reflexivity].
Qed.

(** The values a template literal can print, and what it prints. *)
Definition printable (v : json) : Prop := exists s, toString v = inr s.

Definition printed (v : json) : string :=
  match toString v with
  | inr s => s
  | inl _ => ""
  end.

Lemma toString_printed (v : json) : printable v -> toString v = inr (printed v).
Proof. intros [s Hs]. unfold printed. rewrite Hs. reflexivity. Qed.

Lemma printable_string (s : string) : printable (JStr s).
Proof. exists s. reflexivity. Qed.

(** A string conversion that throws, throws a TypeError. *)
Lemma element_error (x : json) (e : Error) :
  match x with JNull => inr "" | _ => toString x end = inl e ->
  toString x = inl e.
Proof. destruct x; [discriminate|..]; trivial. Qed.

Lemma toString_error : forall (v : json) (e : Error),
  toString v = inl e -> e = TypeError.
Proof.
  fix IH 1. intros [| [] | n | s | xs | fs] e; cbn [toString]; try discriminate.
  - assert (Hxs : forall e',
              sequence
                (map (fun x => match x with JNull => inr "" | _ => toString x end)
                   xs) = inl e' -> e' = TypeError).
    { induction xs as [|x xs IHxs]; intros e'; cbn [map sequence];
        [discriminate|].
      destruct (match x with JNull => inr "" | _ => toString x end)
        as [e0|p] eqn:Hx.
      - intros [= <-]. exact (IH x e0 (element_error x e0 Hx)).
      - destruct (sequence _) as [e1|ps] eqn:Hrest; [|discriminate].
        intros [= <-]. apply IHxs. reflexivity. }
    destruct (sequence _) as [e1|ps] eqn:Hs; [|discriminate].
    intros [= <-]. apply Hxs. reflexivity.
  - destruct (assoc "toString" fs); [|discriminate]. intros [= <-]. reflexivity.
Qed.

(** A body the document client can marshall has only such values. *)
Lemma marshallable_assoc (fs : Item) (k : string) (v : json) :
  marshallable (JObj fs) = true -> assoc k fs = Some v -> marshallable v = true.
Proof.
  cbn [marshallable]. induction fs as [|[k' v'] fs IH]; [discriminate|].
  cbn [forallb snd assoc]. intros [Hv' Hfs]%andb_true_iff.
  destruct (String.eqb k k'); [intros [= <-]; exact Hv'|apply IH, Hfs].
Qed.

Lemma marshallable_obj_set (k : string) (v : json) (item : Item) :
  marshallable v = true -> forallb marshallable (map snd item) = true ->
  forallb marshallable (map snd (obj_set k v item)) = true.
Proof.
  intros Hv. induction item as [|[k' v'] item IH]; cbn [obj_set map forallb snd].
  - intros _. rewrite Hv. reflexivity.
  - intros [Hv' Hitem]%andb_true_iff.
    destruct (String.eqb k k'); cbn [map forallb snd].
    + rewrite Hv, Hitem. reflexivity.
    + rewrite Hv', IH by exact Hitem. reflexivity.
Qed.

(** [Date.now()] stays within the range of a [Date]. *)
Definition clock_in_range (w : World) : Prop :=
  - 8640000000000000 <= clock w <= 8640000000000000.

Lemma seconds_marshallable (w : World) (extra : Z) :
  clock_in_range w -> 0 <= extra <= 10000000 ->
  marshallable (JNum (floor_seconds (clock w) + extra)) = true.
Proof.
  unfold clock_in_range, floor_seconds, MAX_SAFE_INTEGER. intros Hc He.
  cbn [marshallable]. apply andb_true_iff.
  assert (- 8640000000000 <= clock w / 1000 <= 8640000000000).
  { split; [apply Z.div_le_lower_bound|apply Z.div_le_upper_bound]; lia. }
  split; apply Z.leb_le; unfold MAX_SAFE_INTEGER; lia.
Qed.

(** A call leaves the configuration and the clock alone. *)
Ltac simpl_world :=
  repeat match goal with
  | |- context [clock (after_call ?c ?t ?w)] =>
      change (clock (after_call c t w)) with (clock w)
  | |- context [config (after_call ?c ?t ?w)] =>
      change (config (after_call c t w)) with (config w)
  end.

End RuntimeFacts.

(** ** The retry loop of [getUser] *)

Module Retry.
Import JS Runtime RuntimeFacts Users.

(** The response of one attempt whose read went through. *)
Definition respond (r : option Item) : Response :=
  match r with
  | None => error_response 404 "User not found"
  | Some item => json_response 200 (JObj item)
  end.

Definition after_get (userId : string) (w : World) : World :=
  after_call (GetCommand (Key (JStr userId))) (seen w) w.

Lemma getUser_loop_step (n : nat) (attempt : Z) (userId : string) (w : World) :
  getUser_loop (S n) attempt userId w =
  match get_result (Key (JStr userId)) w with
  | inr r => (inr (Some (respond r)), after_get userId w)
  | inl e =>
      if attempt <? retries - 1 then
        getUser_loop n (attempt + 1) userId
          (snd (sleep (backoff * 2 ^ attempt) (after_get userId w)))
      else (inl e, after_get userId w)
  end.
Proof.
  cbn [getUser_loop]. unfold try_catch at 1, bind at 1.
  rewrite send_get_eq by reflexivity. fold (after_get userId w).
  destruct (get_result (Key (JStr userId)) w) as [e|[item|]]; try reflexivity.
  destruct (attempt <? retries - 1); reflexivity.
Qed.

Lemma getUser_loop_returns (n : nat) (attempt : Z) (userId : string) (w : World) :
  attempt + Z.of_nat n = retries -> (0 < n)%nat ->
  fst (getUser_loop n attempt userId w) ≠ inr None.
Proof.
  revert attempt w. induction n as [|n IH]; intros attempt w Hsum Hpos; [lia|].
  rewrite getUser_loop_step.
  destruct (get_result (Key (JStr userId)) w) as [e|r]; [|discriminate].
  destruct (Z.ltb_spec attempt (retries - 1)) as [Hlt|Hge]; [|discriminate].
  apply IH; lia.
Qed.

Lemma getUser_loop_status (n : nat) (attempt : Z) (userId : string)
    (w w' : World) (r : Response) :
  getUser_loop n attempt userId w = (inr (Some r), w') ->
  statusCode r = 200 ∨ statusCode r = 404.
Proof.
  revert attempt w. induction n as [|n IH]; intros attempt w.
  - cbn. discriminate.
  - rewrite getUser_loop_step.
    destruct (get_result (Key (JStr userId)) w) as [e|[item|]].
    + destruct (attempt <? retries - 1); [apply IH|discriminate].
    + intros [= <- _]. left. reflexivity.
    + intros [= <- _]. right. reflexivity.
Qed.

(** C10. In [getUser] every iteration of the retry loop returns a response
    (200 or 404) or, on the last attempt, rethrows: the loop never runs to
    its end, and the response [500 {"error": "Failed to get user"}] placed
    after it is never what [getUser] returns. *)
Theorem getUser_fallback_unreachable (userId : string) (w : World) :
  fst (getUser_loop (Z.to_nat retries) 0 userId w) ≠ inr None
  ∧ fst (getUser userId w) ≠ inr getUser_fallback.
Proof.
  assert (Hloop : fst (getUser_loop (Z.to_nat retries) 0 userId w) ≠ inr None).
  { apply getUser_loop_returns; unfold retries; simpl; lia. }
  split; [exact Hloop|].
  unfold getUser, bind.
  destruct (getUser_loop (Z.to_nat retries) 0 userId w) as [[e|[r|]] w'] eqn:E;
    cbn [fst ret] in *; [discriminate| |congruence].
  apply getUser_loop_status in E.
  intros [= ->]. destruct E as [E|E]; discriminate E.
Qed.

Lemma getUser_of_loop (userId : string) (w w' : World) (r : Response) :
  getUser_loop (Z.to_nat retries) 0 userId w = (inr (Some r), w') ->
  getUser userId w = (inr r, w').
Proof. intros E. unfold getUser, bind. rewrite E. reflexivity. Qed.

Lemma getUser_loop_throws (userId : string) (w w' : World) (e : Error) :
  getUser_loop (Z.to_nat retries) 0 userId w = (inl e, w') ->
  getUser userId w = (inl e, w').
Proof. intros E. unfold getUser, bind. rewrite E. reflexivity. Qed.

(** The route [GET /users/{id}] of the handler is [getUser]. *)
Lemma handler_GET (userId : string) (ps : gmap string string) (w : World) :
  userId ≠ "" -> ps !! "id" = Some userId ->
  handler (mkEvent "GET" (Some ps) None) w =
  match getUser userId w with
  | (inr r, w') => (inr r, w')
  | (inl _, w') => (inr internal_server_error, w')
  end.
Proof.
  intros Hne Hid.
  unfold handler, parse_body, path_param, dispatch, bind at 1, ret at 1.
  cbn [httpMethod pathParameters body]. rewrite Hid.
  cbn [String.eqb Ascii.eqb Bool.eqb given].
  destruct (String.eqb_spec userId ""); [contradiction|].
  unfold try_catch, bind, ret.
  destruct (getUser userId w) as [[e|r] w']; reflexivity.
Qed.

Definition read (userId : string) : Command := GetCommand (Key (JStr userId)).

Lemma getUser_loop_retry (n : nat) (attempt : Z) (userId : string) (w : World)
    (b : list EnvOp) (e : Error) (rest : list Turn) :
  schedule w = mkTurn b (Some e) :: rest -> attempt < retries - 1 ->
  getUser_loop (S n) attempt userId w =
  getUser_loop n (attempt + 1) userId
    (mkWorld (config w) (run_env b (table w)) rest
       (clock w + backoff * 2 ^ attempt)
       (slept w ++ [backoff * 2 ^ attempt]) (sent w ++ [read userId])).
Proof.
  intros Hs Hlt. rewrite getUser_loop_step.
  unfold get_result, after_get, after_call, sleep.
  rewrite (seen_cons _ _ _ Hs), (next_turn_cons _ _ _ Hs), Hs.
  cbn [fault before tl snd config table schedule clock slept sent].
  destruct (Z.ltb_spec attempt (retries - 1)); [reflexivity|lia].
Qed.

Lemma getUser_loop_last (n : nat) (attempt : Z) (userId : string) (w : World)
    (b : list EnvOp) (e : Error) (rest : list Turn) :
  schedule w = mkTurn b (Some e) :: rest -> retries - 1 <= attempt ->
  getUser_loop (S n) attempt userId w =
  (inl e,
   mkWorld (config w) (run_env b (table w)) rest (clock w) (slept w)
     (sent w ++ [read userId])).
Proof.
  intros Hs Hge. rewrite getUser_loop_step.
  unfold get_result, after_get, after_call.
  rewrite (seen_cons _ _ _ Hs), (next_turn_cons _ _ _ Hs), Hs.
  cbn [fault before tl].
  destruct (Z.ltb_spec attempt (retries - 1)); [lia|reflexivity].
Qed.

Lemma getUser_loop_answer (n : nat) (attempt : Z) (userId : string) (w : World)
    (b : list EnvOp) (rest : list Turn) :
  schedule w = mkTurn b None :: rest ->
  keyName (config w) = "userId" -> userId ≠ "" ->
  getUser_loop (S n) attempt userId w =
  (inr (Some (respond (run_env b (table w) !! userId))),
   mkWorld (config w) (run_env b (table w)) rest (clock w) (slept w)
     (sent w ++ [read userId])).
Proof.
  intros Hs Hpk Hne. rewrite getUser_loop_step.
  unfold Key. rewrite (get_result_found "userId") by
    (try assumption; rewrite (next_turn_cons _ _ _ Hs); reflexivity).
  unfold after_get, after_call.
  rewrite (seen_cons _ _ _ Hs), Hs. reflexivity.
Qed.

Definition three_reads (userId : string) : list Command :=
  [read userId; read userId; read userId].

(** The claim of a 100, 200, 400 ms backoff, as the specification words it:
    a read failing on all its attempts has waited 700 ms in all when the
    last error surfaces. *)
Definition waits_700 (userId : string) (w : World) : Prop :=
  forall e, fst (getUser userId w) = inl e ->
    slept (snd (getUser userId w)) = (slept w ++ [100; 200; 400])%list
    ∧ clock (snd (getUser userId w)) = clock w + 700.

Definition store_down : World :=
  mkWorld (mkConfig "userId" "" (fun _ _ => inl TypeError) api_reserved) ∅
    [mkTurn [] (Some (mkError "ThrottlingException"));
     mkTurn [] (Some (mkError "ThrottlingException"));
     mkTurn [] (Some (mkError "ThrottlingException"))]
    0 [] [].

(** C3, as stated, fails: with the store failing on all three attempts of
    [getUser "u1"] the waits are 100 and 200 ms, 300 ms in all; there is no
    400 ms wait. *)
Lemma waits_700_fails : ¬ waits_700 "u1" store_down.
Proof.
  intros H.
  destruct (H (mkError "ThrottlingException") eq_refl) as [Hs _].
  vm_compute in Hs. discriminate Hs.
Qed.

(** C3, amended. A read that fails on all three attempts waits
    [backoff * 2 ^ attempt] after attempts 0 and 1 only, that is 100 ms and
    200 ms; the error of attempt 2 is rethrown at once, so the cumulative
    wait before the last error surfaces is 300 ms. *)
Theorem getUser_exhausted (userId : string) (w : World)
    (b1 b2 b3 : list EnvOp) (e1 e2 e3 : Error) (rest : list Turn) :
  schedule w =
    mkTurn b1 (Some e1) :: mkTurn b2 (Some e2) :: mkTurn b3 (Some e3) :: rest ->
  getUser userId w =
    (inl e3,
     mkWorld (config w) (run_env (b1 ++ b2 ++ b3) (table w)) rest
       (clock w + 300)
       (slept w ++ [backoff * 2 ^ 0; backoff * 2 ^ 1])
       (sent w ++ three_reads userId))
  ∧ [backoff * 2 ^ 0; backoff * 2 ^ 1] = [100; 200].
Proof.
  intros Hs. split; [|reflexivity].
  apply getUser_loop_throws.
  change (Z.to_nat retries) with 3%nat.
  erewrite getUser_loop_retry by (try eassumption; reflexivity).
  erewrite getUser_loop_retry by reflexivity.
  erewrite getUser_loop_last by reflexivity.
  cbn [config table clock slept sent three_reads].
  rewrite !run_env_app, <- !app_assoc.
  f_equal; f_equal; first [reflexivity | unfold backoff; lia].
Qed.

Lemma getUser_exhausted_witness :
  getUser "u1" store_down =
    (inl (mkError "ThrottlingException"),
     mkWorld (config store_down) (run_env ([] ++ [] ++ []) (table store_down)) []
       (clock store_down + 300)
       (slept store_down ++ [backoff * 2 ^ 0; backoff * 2 ^ 1])
       (sent store_down ++ three_reads "u1"))
  ∧ [backoff * 2 ^ 0; backoff * 2 ^ 1] = [100; 200].
Proof.
  apply (getUser_exhausted "u1" store_down [] [] []
           (mkError "ThrottlingException") (mkError "ThrottlingException")
           (mkError "ThrottlingException") []).
  reflexivity.
Defined.

(** C4. A read ([GET /users/{id}]) whose store call fails twice and then
    succeeds still returns the response of the successful read (200 with
    the record when it is stored): three attempts in all, after waits of
    100 ms and 200 ms, 300 ms together. *)
Theorem getUser_recovers (userId : string) (ps : gmap string string)
    (w : World) (b1 b2 b3 : list EnvOp) (e1 e2 : Error) (rest : list Turn) :
  userId ≠ "" -> keyName (config w) = "userId" -> ps !! "id" = Some userId ->
  schedule w =
    mkTurn b1 (Some e1) :: mkTurn b2 (Some e2) :: mkTurn b3 None :: rest ->
  let t := run_env (b1 ++ b2 ++ b3) (table w) in
  let w' :=
    mkWorld (config w) t rest (clock w + 300) (slept w ++ [100; 200])
      (sent w ++ three_reads userId) in
  getUser userId w = (inr (respond (t !! userId)), w')
  ∧ handler (mkEvent "GET" (Some ps) None) w = (inr (respond (t !! userId)), w')
  ∧ (forall item : Item, t !! userId = Some item ->
       fst (handler (mkEvent "GET" (Some ps) None) w)
       = inr (mkResponse 200 (JSON_stringify (JObj item)))).
Proof.
  intros Hne Hpk Hid Hs t w'.
  assert (E : getUser userId w = (inr (respond (t !! userId)), w')).
  { apply getUser_of_loop. change (Z.to_nat retries) with 3%nat.
    erewrite getUser_loop_retry by (try eassumption; reflexivity).
    erewrite getUser_loop_retry by reflexivity.
    erewrite getUser_loop_answer by (try eassumption; reflexivity).
    cbn [config table clock slept sent three_reads].
    subst t w'. rewrite !run_env_app, <- !app_assoc.
    f_equal; f_equal; first [reflexivity | unfold backoff; lia]. }
  assert (H : handler (mkEvent "GET" (Some ps) None) w
              = (inr (respond (t !! userId)), w')).
  { rewrite (handler_GET userId) by assumption. rewrite E. reflexivity. }
  split; [exact E|]. split; [exact H|].
  intros item Hitem. rewrite H, Hitem. reflexivity.
Qed.

Definition flaky_store : World :=
  mkWorld (mkConfig "userId" "" (fun _ _ => inl TypeError) api_reserved)
    {[ "u1" := [("userId", JStr "u1"); ("email", JStr "a@b.com")] ]}
    [mkTurn [] (Some (mkError "ThrottlingException"));
     mkTurn [] (Some (mkError "InternalServerError"));
     quiet]
    0 [] [].

Lemma getUser_recovers_witness :
  let t := run_env ([] ++ [] ++ []) (table flaky_store) in
  let w' :=
    mkWorld (config flaky_store) t [] (clock flaky_store + 300)
      (slept flaky_store ++ [100; 200])
      (sent flaky_store ++ three_reads "u1") in
  getUser "u1" flaky_store = (inr (respond (t !! "u1")), w')
  ∧ handler (mkEvent "GET" (Some {[ "id" := "u1" ]}) None) flaky_store
    = (inr (respond (t !! "u1")), w')
  ∧ (forall item : Item, t !! "u1" = Some item ->
       fst (handler (mkEvent "GET" (Some {[ "id" := "u1" ]}) None) flaky_store)
       = inr (mkResponse 200 (JSON_stringify (JObj item)))).
Proof.
  apply (getUser_recovers "u1" {[ "id" := "u1" ]} flaky_store [] [] []
           (mkError "ThrottlingException") (mkError "InternalServerError") []).
  - discriminate.
  - reflexivity.
  - reflexivity.
  - reflexivity.
Defined.

End Retry.

(** ** Idempotent creation of users *)

Module CreateUser.
Import JS Runtime RuntimeFacts Users.

(** [if (body.k) item.k = body.k] on an object body. *)
Definition with_optional (fs : Item) (k : string) (item : Item) : Item :=
  match required (assoc k fs) with
  | Some v => obj_set k v item
  | None => item
  end.

(** The record [createUser] writes for a body with properties [fs]. *)
Definition new_user (fs : Item) (userId email : json) (now : Z) : Item :=
  with_optional fs "department"
    (with_optional fs "name"
       [("userId", userId); ("email", email);
        ("createdAt", JNum now); ("ttl", JNum (now + ttl_seconds))]).

Definition created (item : Item) : Response :=
  json_response 201 (JObj [("message", JStr "User created"); ("user", JObj item)]).

Definition read (userId : string) : Command := GetCommand (Key (JStr userId)).

(** A body that passes the validation of [createUser], with a string
    identifier. *)
Definition valid_body (fs : Item) (userId : string) (email : json) : Prop :=
  assoc "userId" fs = Some (JStr userId) ∧ userId ≠ ""
  ∧ assoc "email" fs = Some email ∧ truthy (Some email) = true.

Lemma optional_field_obj (fs : Item) (k : string) (item : Item) (w : World) :
  optional_field (JObj fs) k item w = (inr (with_optional fs k item), w).
Proof.
  unfold optional_field, with_optional, bind, lift, get_prop, ret.
  destruct (required (assoc k fs)); reflexivity.
Qed.

Lemma assoc_new_user (fs : Item) (userId email : json) (now : Z) (k : string) :
  k ≠ "name" -> k ≠ "department" ->
  assoc k (new_user fs userId email now) =
  assoc k [("userId", userId); ("email", email);
           ("createdAt", JNum now); ("ttl", JNum (now + ttl_seconds))].
Proof.
  intros Hn Hd. unfold new_user, with_optional.
  destruct (required (assoc "department" fs));
    destruct (required (assoc "name" fs));
    rewrite ?assoc_obj_set_ne by assumption; reflexivity.
Qed.

Lemma item_key_new_user (fs : Item) (userId : string) (email : json) (now : Z) :
  userId ≠ "" -> item_key "userId" (new_user fs (JStr userId) email now) = Some userId.
Proof.
  intros Hne. unfold item_key.
  rewrite assoc_new_user by discriminate. cbn [assoc String.eqb Ascii.eqb Bool.eqb].
  destruct (String.eqb_spec userId ""); [contradiction|reflexivity].
Qed.

(** Entering [createUser] with a valid body: the first point-read. *)
Lemma createUser_enter (fs : Item) (userId : string) (email : json) (w : World) :
  valid_body fs userId email ->
  createUser (JObj fs) w =
  try_catch
    (let* existing := send_get (Key (JStr userId)) in
     match existing with
     | Some item => ret (already_exists item)
     | None =>
         let* ms := Date_now in
         let now := floor_seconds ms in
         let item : Item :=
           [("userId", JStr userId); ("email", email);
            ("createdAt", JNum now); ("ttl", JNum (now + ttl_seconds))] in
         let* item := optional_field (JObj fs) "name" item in
         let* item := optional_field (JObj fs) "department" item in
         send_put item "userId";;
         ret (created item)
     end)
    (fun error =>
       if String.eqb (name error) "ConditionalCheckFailedException" then
         let* existing := send_get (Key (JStr userId)) in
         match existing with
         | Some item => ret (already_exists item)
         | None => throw error
         end
       else throw error) w.
Proof.
  intros (Hu & Hne & He & Ht).
  unfold createUser, bind at 1 2, lift, get_prop, ret at 1 2.
  rewrite Hu, He, required_string, required_truthy by assumption.
  reflexivity.
Qed.

(** The point-read finds a record: it is returned, nothing is written. *)
Lemma createUser_existing (fs : Item) (userId : string) (email : json)
    (item : Item) (w : World) :
  valid_body fs userId email -> keyName (config w) = "userId" ->
  fault (next_turn w) = None -> seen w !! userId = Some item ->
  createUser (JObj fs) w =
  (inr (already_exists item), after_call (read userId) (seen w) w).
Proof.
  intros Hv Hpk Hf Hfound.
  rewrite (createUser_enter _ _ _ _ Hv).
  unfold try_catch, bind. rewrite send_get_eq by reflexivity.
  unfold Key. rewrite (get_result_found "userId") by (try assumption; apply Hv).
  rewrite Hfound. reflexivity.
Qed.

(** The world after the first point-read of [createUser], and the record
    and the conditional write that follow when it found nothing. *)
Definition after_read (userId : string) (w : World) : World :=
  after_call (read userId) (seen w) w.

Definition record (fs : Item) (userId : string) (email : json) (w : World) : Item :=
  new_user fs (JStr userId) email (floor_seconds (clock w)).

Definition write (fs : Item) (userId : string) (email : json) (w : World) : Command :=
  PutCommand (record fs userId email w) "userId".

(** The first point-read finds nothing and the write goes through. *)
Lemma createUser_new (fs : Item) (userId : string) (email : json) (w : World) :
  valid_body fs userId email -> keyName (config w) = "userId" ->
  fault (next_turn w) = None -> seen w !! userId = None ->
  let w1 := after_read userId w in
  fault (next_turn w1) = None -> seen w1 !! userId = None ->
  marshals (write fs userId email w) = true ->
  createUser (JObj fs) w =
  (inr (created (record fs userId email w)),
   after_call (write fs userId email w)
     (<[userId := record fs userId email w]> (seen w1)) w1).
Proof.
  intros Hv Hpk Hf Hnone w1 Hf1 Hnone1 Hm.
  rewrite (createUser_enter _ _ _ _ Hv).
  subst w1. unfold after_read, write, record, read, Key in *.
  unfold try_catch, bind at 1. rewrite send_get_eq by reflexivity.
  rewrite (get_result_found "userId") by (try assumption; apply Hv).
  rewrite Hnone.
  unfold bind, Date_now. rewrite !optional_field_obj.
  simpl_world.
  fold (new_user fs (JStr userId) email (floor_seconds (clock w))).
  unfold send_put, send, exec_put. rewrite Hm, Hf1.
  simpl_world. rewrite Hpk.
  rewrite item_key_new_user by apply Hv.
  rewrite Hnone1. reflexivity.
Qed.

(** The first point-read finds nothing, but by the time of the write
    another writer has created the record: the write is refused and
    [createUser] reads again. *)
Lemma createUser_lost_race (fs : Item) (userId : string) (email : json)
    (other : Item) (w : World) :
  valid_body fs userId email -> keyName (config w) = "userId" ->
  fault (next_turn w) = None -> seen w !! userId = None ->
  let w1 := after_read userId w in
  fault (next_turn w1) = None ->
  seen w1 !! userId = Some other -> is_Some (assoc "userId" other) ->
  marshals (write fs userId email w) = true ->
  let w2 := after_call (write fs userId email w) (seen w1) w1 in
  createUser (JObj fs) w =
  (match get_result (Key (JStr userId)) w2 with
   | inl e => inl e
   | inr (Some item) => inr (already_exists item)
   | inr None => inl ConditionalCheckFailedException
   end,
   after_read userId w2).
Proof.
  intros Hv Hpk Hf Hnone w1 Hf1 Hother [v Hattr] Hm w2.
  rewrite (createUser_enter _ _ _ _ Hv).
  subst w2 w1. unfold after_read, write, record, read, Key in *.
  unfold try_catch, bind at 1. rewrite send_get_eq by reflexivity.
  rewrite (get_result_found "userId") by (try assumption; apply Hv).
  rewrite Hnone.
  unfold bind at 1 2 3 4, Date_now. rewrite !optional_field_obj.
  simpl_world.
  fold (new_user fs (JStr userId) email (floor_seconds (clock w))).
  unfold send_put, send, exec_put. rewrite Hm, Hf1.
  simpl_world. rewrite Hpk.
  rewrite item_key_new_user by apply Hv.
  rewrite Hother, Hattr.
  cbn [name ConditionalCheckFailedException String.eqb Ascii.eqb Bool.eqb].
  unfold bind. rewrite send_get_eq by reflexivity.
  match goal with
  | |- context [get_result ?k ?w] => destruct (get_result k w) as [e|[item|]]
  end; reflexivity.
Qed.

End CreateUser.

(** ** Idempotent creation of assets *)

Module CreateAsset.
Import JS Runtime RuntimeFacts Assets.

Definition content_type (fs : Item) : json :=
  default (JStr "application/octet-stream") (required (assoc "contentType" fs)).

(** The storage key of an asset with a string identifier. *)
Definition s3Key (assetId : string) (fileName : json) : string :=
  "assets/" +:+ assetId +:+ "/" +:+ printed fileName.

(** The record [uploadAsset] writes for a body with properties [fs]. *)
Definition new_asset (fs : Item) (assetId : string) (fileName : json)
    (bucket : string) (now : Z) : Item :=
  [("assetId", JStr assetId); ("fileName", fileName);
   ("contentType", content_type fs); ("s3Key", JStr (s3Key assetId fileName));
   ("s3Bucket", JStr bucket); ("status", JStr "pending");
   ("createdAt", JNum now); ("ttl", JNum (now + ttl_seconds))].

Definition created (item : Item) (uploadUrl : string) : Response :=
  json_response 201
    (JObj [("message", JStr "Asset metadata created"); ("asset", JObj item);
           ("uploadUrl", JStr uploadUrl)]).

Definition read (assetId : string) : Command := GetCommand (Key (JStr assetId)).

(** A body that passes the validation of [uploadAsset], with a string
    identifier and a file name the template literal can print. *)
Definition valid_body (fs : Item) (assetId : string) (fileName : json) : Prop :=
  assoc "assetId" fs = Some (JStr assetId) ∧ assetId ≠ ""
  ∧ assoc "fileName" fs = Some fileName ∧ truthy (Some fileName) = true
  ∧ printable fileName.

Definition after_read (assetId : string) (w : World) : World :=
  after_call (read assetId) (seen w) w.

Definition record (fs : Item) (assetId : string) (fileName : json) (w : World)
  : Item :=
  new_asset fs assetId fileName (bucketName (config w))
    (floor_seconds (clock w)).

Definition write (fs : Item) (assetId : string) (fileName : json) (w : World)
  : Command :=
  PutCommand (record fs assetId fileName w) "assetId".

(** The request for the upload reference of the new record. *)
Definition upload_request (fs : Item) (assetId : string) (fileName : json)
    (w : World) : S3Command :=
  PutObjectCommand (bucketName (config w)) (s3Key assetId fileName)
    (content_type fs).

Lemma s3Key_template_printable (assetId : string) (fileName : json) :
  printable fileName ->
  s3Key_template (JStr assetId) fileName = inr (s3Key assetId fileName).
Proof.
  intros Hp. unfold s3Key_template, s3Key. cbn [toString].
  rewrite (toString_printed _ Hp). reflexivity.
Qed.

Lemma uploadAsset_enter (fs : Item) (assetId : string) (fileName : json)
    (w : World) :
  valid_body fs assetId fileName ->
  uploadAsset (JObj fs) w =
  try_catch
    (let* existing := send_get (Key (JStr assetId)) in
     match existing with
     | Some item => ret (already_exists item)
     | None =>
         let* ms := Date_now in
         fun w =>
           let item := new_asset fs assetId fileName
                         (bucketName (config w)) (floor_seconds ms) in
           (send_put item "assetId";;
            let* uploadUrl :=
              getSignedUrl
                (PutObjectCommand (bucketName (config w))
                   (s3Key assetId fileName) (content_type fs)) 3600 in
            ret (created item uploadUrl)) w
     end)
    (fun error =>
       if String.eqb (name error) "ConditionalCheckFailedException" then
         let* existing := send_get (Key (JStr assetId)) in
         match existing with
         | Some item => ret (already_exists item)
         | None => throw error
         end
       else throw error) w.
Proof.
  intros (Ha & Hne & Hn & Ht & Hp).
  unfold uploadAsset, bind at 1 2 3, lift at 1 2 3, get_prop, ret at 1 2 3.
  rewrite Ha, Hn, required_string, required_truthy
    by assumption.
  rewrite (s3Key_template_printable _ _ Hp).
  reflexivity.
Qed.

(** The point-read finds a record: it is returned, nothing is written. *)
Lemma uploadAsset_existing (fs : Item) (assetId : string) (fileName : json)
    (item : Item) (w : World) :
  valid_body fs assetId fileName -> keyName (config w) = "assetId" ->
  fault (next_turn w) = None -> seen w !! assetId = Some item ->
  uploadAsset (JObj fs) w =
  (inr (already_exists item), after_call (read assetId) (seen w) w).
Proof.
  intros Hv Hpk Hf Hfound.
  rewrite (uploadAsset_enter _ _ _ _ Hv).
  unfold try_catch, bind. rewrite send_get_eq by reflexivity.
  unfold Key. rewrite (get_result_found "assetId") by (try assumption; apply Hv).
  rewrite Hfound. reflexivity.
Qed.

Lemma item_key_new_asset (fs : Item) (assetId : string) (fileName : json)
    (bucket : string) (now : Z) :
  assetId ≠ "" ->
  item_key "assetId" (new_asset fs assetId fileName bucket now)
  = Some assetId.
Proof.
  intros Hne. unfold item_key, new_asset.
  cbn [assoc String.eqb Ascii.eqb Bool.eqb].
  destruct (String.eqb_spec assetId ""); [contradiction|reflexivity].
Qed.

(** The first point-read finds nothing, the write goes through and the
    upload reference is issued. *)
Lemma uploadAsset_new (fs : Item) (assetId : string) (fileName : json)
    (uploadUrl : string) (w : World) :
  valid_body fs assetId fileName -> keyName (config w) = "assetId" ->
  fault (next_turn w) = None -> seen w !! assetId = None ->
  let w1 := after_read assetId w in
  fault (next_turn w1) = None -> seen w1 !! assetId = None ->
  signer (config w) (upload_request fs assetId fileName w) 3600 = inr uploadUrl ->
  marshals (write fs assetId fileName w) = true ->
  uploadAsset (JObj fs) w =
  (inr (created (record fs assetId fileName w) uploadUrl),
   after_call (write fs assetId fileName w)
     (<[assetId := record fs assetId fileName w]> (seen w1)) w1).
Proof.
  intros Hv Hpk Hf Hnone w1 Hf1 Hnone1 Hsign Hm.
  rewrite (uploadAsset_enter _ _ _ _ Hv).
  subst w1. unfold after_read, write, record, upload_request, read, Key in *.
  unfold try_catch, bind at 1. rewrite send_get_eq by reflexivity.
  rewrite (get_result_found "assetId") by (try assumption; apply Hv).
  rewrite Hnone.
  unfold bind, Date_now. simpl_world.
  unfold send_put, send, exec_put. rewrite Hm, Hf1.
  simpl_world. rewrite Hpk.
  rewrite item_key_new_asset by apply Hv.
  rewrite Hnone1. unfold getSignedUrl. simpl_world. rewrite Hsign.
  reflexivity.
Qed.

(** The first point-read finds nothing, but by the time of the write
    another writer has created the record: the write is refused and
    [uploadAsset] reads again. *)
Lemma uploadAsset_lost_race (fs : Item) (assetId : string) (fileName : json)
    (other : Item) (w : World) :
  valid_body fs assetId fileName -> keyName (config w) = "assetId" ->
  fault (next_turn w) = None -> seen w !! assetId = None ->
  let w1 := after_read assetId w in
  fault (next_turn w1) = None ->
  seen w1 !! assetId = Some other -> is_Some (assoc "assetId" other) ->
  marshals (write fs assetId fileName w) = true ->
  let w2 := after_call (write fs assetId fileName w) (seen w1) w1 in
  uploadAsset (JObj fs) w =
  (match get_result (Key (JStr assetId)) w2 with
   | inl e => inl e
   | inr (Some item) => inr (already_exists item)
   | inr None => inl ConditionalCheckFailedException
   end,
   after_read assetId w2).
Proof.
  intros Hv Hpk Hf Hnone w1 Hf1 Hother [v Hattr] Hm w2.
  rewrite (uploadAsset_enter _ _ _ _ Hv).
  subst w2 w1. unfold after_read, write, record, read, Key in *.
  unfold try_catch, bind at 1. rewrite send_get_eq by reflexivity.
  rewrite (get_result_found "assetId") by (try assumption; apply Hv).
  rewrite Hnone.
  unfold bind at 1 2 3, Date_now. simpl_world.
  unfold send_put, send, exec_put. rewrite Hm, Hf1.
  simpl_world. rewrite Hpk.
  rewrite item_key_new_asset by apply Hv.
  rewrite Hother, Hattr.
  cbn [name ConditionalCheckFailedException String.eqb Ascii.eqb Bool.eqb].
  unfold bind. rewrite send_get_eq by reflexivity.
  match goal with
  | |- context [get_result ?k ?w] => destruct (get_result k w) as [e|[item|]]
  end; reflexivity.
Qed.

End CreateAsset.

(** ** The two record types side by side *)

Module Api.
Import JS Runtime RuntimeFacts.

Inductive Resource : Type := User | Asset.

(** Partition key and second required field of the create body. *)
Definition pk (r : Resource) : string :=
  match r with User => "userId" | Asset => "assetId" end.
Definition second (r : Resource) : string :=
  match r with User => "email" | Asset => "fileName" end.

(** [POST /users] and [POST /assets]. *)
Definition create (r : Resource) : json -> M Response :=
  match r with User => Users.createUser | Asset => Assets.uploadAsset end.

(** [GET /users/{id}] and [GET /assets/{id}]. *)
Definition fetch (r : Resource) : string -> M Response :=
  match r with User => Users.getUser | Asset => Assets.getAsset end.

Definition handler (r : Resource) : Event -> M Response :=
  match r with User => Users.handler | Asset => Assets.handler end.

Definition exists_response (r : Resource) : Item -> Response :=
  match r with
  | User => Users.already_exists
  | Asset => Assets.already_exists
  end.

Definition required_message (r : Resource) : string :=
  match r with
  | User => "userId and email are required"
  | Asset => "assetId and fileName are required"
  end.

Definition not_found_message (r : Resource) : string :=
  match r with User => "User not found" | Asset => "Asset not found" end.

Definition read (r : Resource) (id : string) : Command :=
  GetCommand [(pk r, JStr id)].

Definition valid (r : Resource) (fs : Item) (id : string) (v : json) : Prop :=
  assoc (pk r) fs = Some (JStr id) ∧ id ≠ ""
  ∧ assoc (second r) fs = Some v ∧ truthy (Some v) = true
  ∧ match r with
    | User => True
    | Asset => printable v   (* the file name goes into the storage key *)
    end.

Lemma valid_user (fs : Item) (id : string) (v : json) :
  valid User fs id v -> CreateUser.valid_body fs id v.
Proof. intros (H1 & H2 & H3 & H4 & _). repeat split; assumption. Qed.

Lemma valid_asset (fs : Item) (id : string) (v : json) :
  valid Asset fs id v -> CreateAsset.valid_body fs id v.
Proof. intros H. exact H. Qed.

(** The record a create call writes, its write, and the response when the
    write went through ([url] is the upload reference of an asset). *)
Definition new_record (r : Resource) (fs : Item) (id : string) (v : json)
    (w : World) : Item :=
  match r with
  | User => CreateUser.record fs id v w
  | Asset => CreateAsset.record fs id v w
  end.

Definition write (r : Resource) (fs : Item) (id : string) (v : json)
    (w : World) : Command :=
  PutCommand (new_record r fs id v w) (pk r).

Definition created_response (r : Resource) (item : Item) (url : string)
  : Response :=
  match r with
  | User => CreateUser.created item
  | Asset => CreateAsset.created item url
  end.

(** The presigner issues [url] for the new asset (nothing is issued for a
    user). *)
Definition issued (r : Resource) (fs : Item) (id : string) (v : json)
    (w : World) (url : string) : Prop :=
  match r with
  | User => True
  | Asset =>
      signer (config w) (CreateAsset.upload_request fs id v w) 3600 = inr url
  end.

(** The document client can marshall what the body holds, and the time
    is one a [Date] can hold. *)
Definition storable (fs : Item) (w : World) : Prop :=
  marshallable (JObj fs) = true ∧ clock_in_range w.

Lemma required_assoc (fs : Item) (k : string) (v : json) :
  required (assoc k fs) = Some v -> assoc k fs = Some v.
Proof. unfold required. destruct (truthy (assoc k fs)); [trivial|discriminate]. Qed.

Lemma with_optional_marshallable (fs : Item) (k : string) (item : Item) :
  marshallable (JObj fs) = true ->
  forallb marshallable (map snd item) = true ->
  forallb marshallable (map snd (CreateUser.with_optional fs k item)) = true.
Proof.
  intros Hfs Hitem. unfold CreateUser.with_optional.
  destruct (required (assoc k fs)) as [v|] eqn:Hv; [|exact Hitem].
  apply marshallable_obj_set; [|exact Hitem].
  apply (marshallable_assoc fs k); [exact Hfs|apply required_assoc, Hv].
Qed.

Lemma write_marshals (r : Resource) (fs : Item) (id : string) (v : json)
    (w : World) :
  valid r fs id v -> storable fs w -> marshals (write r fs id v w) = true.
Proof.
  intros (_ & _ & Hv & _) [Hfs Hclock].
  assert (Hmv : marshallable v = true)
    by (destruct r; exact (marshallable_assoc fs _ v Hfs Hv)).
  assert (Hnow : marshallable (JNum (floor_seconds (clock w))) = true).
  { rewrite <- (Z.add_0_r (floor_seconds (clock w))).
    apply seconds_marshallable; [exact Hclock|lia]. }
  unfold marshals, write. cbn [command_values].
  destruct r; cbn [new_record].
  - unfold CreateUser.record, CreateUser.new_user.
    repeat apply with_optional_marshallable; try exact Hfs.
    cbn [map snd forallb]. rewrite Hmv, Hnow.
    rewrite seconds_marshallable
      by first [exact Hclock | split; vm_compute; discriminate].
    reflexivity.
  - unfold CreateAsset.record, CreateAsset.new_asset.
    cbn [map snd forallb]. rewrite Hmv, Hnow.
    rewrite seconds_marshallable
      by first [exact Hclock | split; vm_compute; discriminate].
    assert (Hct : marshallable (CreateAsset.content_type fs) = true).
    { unfold CreateAsset.content_type.
      destruct (required (assoc "contentType" fs)) as [ct|] eqn:Hct;
        [|reflexivity].
      apply (marshallable_assoc fs "contentType"); [exact Hfs|].
      apply required_assoc, Hct. }
    rewrite Hct. reflexivity.
Qed.

(** The response for a record that is already there, in full. *)
Definition exists_message (r : Resource) : string :=
  match r with
  | User => "User already exists"
  | Asset => "Asset already exists"
  end.

Definition record_field (r : Resource) : string :=
  match r with User => "user" | Asset => "asset" end.

Lemma exists_response_eq (r : Resource) (item : Item) :
  exists_response r item =
  mkResponse 200
    (JSON_stringify
       (JObj [("message", JStr (exists_message r)); (record_field r, JObj item)])).
Proof. destruct r; reflexivity. Qed.

Lemma create_existing (r : Resource) (fs : Item) (id : string) (v : json)
    (item : Item) (w : World) :
  valid r fs id v -> keyName (config w) = pk r ->
  fault (next_turn w) = None -> seen w !! id = Some item ->
  create r (JObj fs) w =
  (inr (exists_response r item), after_call (read r id) (seen w) w).
Proof.
  destruct r; intros Hv.
  - apply (CreateUser.createUser_existing fs id v), valid_user, Hv.
  - apply (CreateAsset.uploadAsset_existing fs id v), valid_asset, Hv.
Qed.

Lemma create_new (r : Resource) (fs : Item) (id : string) (v : json)
    (url : string) (w : World) :
  valid r fs id v -> keyName (config w) = pk r ->
  fault (next_turn w) = None -> seen w !! id = None ->
  let w1 := after_call (read r id) (seen w) w in
  fault (next_turn w1) = None -> seen w1 !! id = None ->
  issued r fs id v w url -> storable fs w ->
  create r (JObj fs) w =
  (inr (created_response r (new_record r fs id v w) url),
   after_call (write r fs id v w) (<[id := new_record r fs id v w]> (seen w1)) w1).
Proof.
  intros Hv Hpk Hf Hnone w1 Hf1 Hnone1 Hissued Hst.
  pose proof (write_marshals r fs id v w Hv Hst) as Hm.
  destruct r.
  - apply CreateUser.createUser_new; try assumption. apply valid_user, Hv.
  - apply CreateAsset.uploadAsset_new; try assumption.
Qed.

Lemma create_lost_race (r : Resource) (fs : Item) (id : string) (v : json)
    (other : Item) (w : World) :
  valid r fs id v -> keyName (config w) = pk r ->
  fault (next_turn w) = None -> seen w !! id = None ->
  let w1 := after_call (read r id) (seen w) w in
  fault (next_turn w1) = None ->
  seen w1 !! id = Some other -> is_Some (assoc (pk r) other) ->
  storable fs w ->
  let w2 := after_call (write r fs id v w) (seen w1) w1 in
  create r (JObj fs) w =
  (match get_result [(pk r, JStr id)] w2 with
   | inl e => inl e
   | inr (Some item) => inr (exists_response r item)
   | inr None => inl ConditionalCheckFailedException
   end,
   after_call (read r id) (seen w2) w2).
Proof.
  intros Hv Hpk Hf Hnone w1 Hf1 Hother Hattr Hst.
  pose proof (write_marshals r fs id v w Hv Hst) as Hm.
  destruct r.
  - apply (CreateUser.createUser_lost_race fs id v other w); try assumption.
    apply valid_user, Hv.
  - apply (CreateAsset.uploadAsset_lost_race fs id v other w); assumption.
Qed.

(** In a world whose schedule is used up every call goes through and no
    other writer interferes. *)
Lemma quiet_fault (w : World) : schedule w = [] -> fault (next_turn w) = None.
Proof. intros H. rewrite next_turn_nil by assumption. reflexivity. Qed.

Lemma quiet_after_call (cmd : Command) (t : gmap string Item) (w : World) :
  schedule w = [] -> schedule (after_call cmd t w) = [].
Proof. unfold after_call. cbn [schedule]. intros ->. reflexivity. Qed.

(** A route with a body that is JSON text is its operation with the
    exceptions turned into the 500. *)
Definition guarded (op : M Response) (w : World) : (Error + Response) * World :=
  match op w with
  | (inr r, w') => (inr r, w')
  | (inl _, w') => (inr (error_response 500 "Internal server error"), w')
  end.

Lemma handler_POST (r : Resource) (ps : option (gmap string string))
    (body : json) (w : World) :
  handler r (mkEvent "POST" ps (Some (Json body))) w = guarded (create r body) w.
Proof.
  destruct r; cbn [handler create]; unfold Users.handler, Assets.handler,
    Users.dispatch, Assets.dispatch, guarded, parse_body, bind at 1;
    cbn [Runtime.body text_truthy JSON_parse lift ret httpMethod String.eqb
         Ascii.eqb Bool.eqb];
    unfold try_catch, bind, ret;
    match goal with
    | |- context [match ?op w with _ => _ end] =>
        destruct (op w) as [[e|x] w']
    end; reflexivity.
Qed.

End Api.

(** ** Properties of creation *)

Module Creation.
Import JS Runtime RuntimeFacts Api.

Lemma create_again (r : Resource) (fs : Item) (id : string) (v : json)
    (item : Item) (w : World) :
  valid r fs id v -> keyName (config w) = pk r -> schedule w = [] ->
  table w !! id = Some item ->
  create r (JObj fs) w =
  (inr (exists_response r item), after_call (read r id) (table w) w).
Proof.
  intros Hv Hpk Hq Hitem.
  rewrite (create_existing r fs id v item w); try assumption.
  - rewrite seen_nil by assumption. reflexivity.
  - apply quiet_fault; assumption.
  - rewrite seen_nil by assumption. assumption.
Qed.

(** The first creation in a world without failures or other writers. *)
Lemma create_first (r : Resource) (fs : Item) (id : string) (v : json)
    (url : string) (w : World) :
  valid r fs id v -> keyName (config w) = pk r -> schedule w = [] ->
  table w !! id = None -> issued r fs id v w url -> storable fs w ->
  create r (JObj fs) w =
  (inr (created_response r (new_record r fs id v w) url),
   after_call (write r fs id v w) (<[id := new_record r fs id v w]> (table w))
     (after_call (read r id) (table w) w)).
Proof.
  intros Hv Hpk Hq Hnone Hissued Hst.
  assert (Hq1 : schedule (after_call (read r id) (seen w) w) = [])
    by (apply quiet_after_call; assumption).
  rewrite (create_new r fs id v url w); try assumption.
  - rewrite (seen_nil _ Hq1), (seen_nil _ Hq). reflexivity.
  - apply quiet_fault; assumption.
  - rewrite seen_nil by assumption. assumption.
  - apply quiet_fault; assumption.
  - rewrite (seen_nil _ Hq1). cbn [table after_call].
    rewrite seen_nil by assumption. assumption.
Qed.

(** C1. Create is idempotent, for [POST /users] and [POST /assets] alike:
    after a first create, a second create with the same identifier and
    payload answers 200 with the message and the stored record, leaves the
    table as it is and sends nothing but the point-read; and whenever the
    point-read of a create finds a record, that record is what the 200
    carries and no write is performed. *)
Theorem create_is_idempotent (r : Resource) (fs : Item) (id : string)
    (v : json) (url : string) (w : World) (c : Z) :
  valid r fs id v -> keyName (config w) = pk r -> schedule w = [] ->
  issued r fs id v w url -> storable fs w ->
  (exists (item : Item) (first : Response) (w1 w2 : World),
     create r (JObj fs) w = (inr first, w1)
     ∧ table w1 !! id = Some item
     ∧ create r (JObj fs) (with_clock c w1) =
         (inr (mkResponse 200
                 (JSON_stringify
                    (JObj [("message", JStr (exists_message r));
                           (record_field r, JObj item)]))),
          w2)
     ∧ table w2 = table w1
     ∧ sent w2 = (sent w1 ++ [read r id])%list)
  ∧ (forall (w' : World) (item' : Item),
       keyName (config w') = pk r -> fault (next_turn w') = None ->
       seen w' !! id = Some item' ->
       create r (JObj fs) w' =
         (inr (mkResponse 200
                 (JSON_stringify
                    (JObj [("message", JStr (exists_message r));
                           (record_field r, JObj item')]))),
          after_call (read r id) (seen w') w')
       ∧ sent (after_call (read r id) (seen w') w')
         = (sent w' ++ [read r id])%list).
Proof.
  intros Hv Hpk Hq Hissued Hst. split.
  - destruct (table w !! id) as [item|] eqn:Hitem.
    + exists item, (exists_response r item).
      eexists. eexists.
      split; [eapply create_again; eassumption|].
      split; [exact Hitem|].
      split.
      { rewrite <- exists_response_eq.
        eapply create_again; [exact Hv|exact Hpk| |exact Hitem].
        cbn [schedule with_clock after_call]. rewrite Hq. reflexivity. }
      split; reflexivity.
    + exists (new_record r fs id v w), (created_response r (new_record r fs id v w) url).
      eexists. eexists.
      split; [eapply create_first; eassumption|].
      split; [cbn [table after_call]; apply lookup_insert_eq|].
      split.
      { rewrite <- exists_response_eq.
        eapply create_again; [exact Hv|exact Hpk| |].
        - cbn [schedule with_clock after_call]. rewrite Hq. reflexivity.
        - cbn [table with_clock after_call]. apply lookup_insert_eq. }
      split; reflexivity.
  - intros w' item' Hpk' Hf' Hfound. split; [|reflexivity].
    rewrite <- exists_response_eq.
    apply (create_existing r fs id v); assumption.
Qed.

(** Concrete requests and worlds. *)
Definition no_signer : S3Command -> Z -> Error + string :=
  fun _ _ => inl (mkError "CredentialsProviderError").
Definition fixed_signer : S3Command -> Z -> Error + string :=
  fun _ _ => inr "https://assets.example/upload".

Definition users_world (t : gmap string Item) (s : list Turn) : World :=
  mkWorld (mkConfig "userId" "" no_signer api_reserved) t s 1704067200123 [] [].
Definition assets_world (t : gmap string Item) (s : list Turn) : World :=
  mkWorld (mkConfig "assetId" "bucket" fixed_signer api_reserved) t s
    1704067200123 [] [].

Definition u1_body : Item := [("userId", JStr "u1"); ("email", JStr "a@b.com")].
Definition a1_body : Item := [("assetId", JStr "a1"); ("fileName", JStr "f.txt")].

Lemma u1_valid : valid User u1_body "u1" (JStr "a@b.com").
Proof.
  split; [reflexivity|]. split; [discriminate|]. split; [reflexivity|].
  split; [reflexivity|exact I].
Defined.

Lemma a1_valid : valid Asset a1_body "a1" (JStr "f.txt").
Proof.
  split; [reflexivity|]. split; [discriminate|]. split; [reflexivity|].
  split; [reflexivity|]. exists "f.txt". reflexivity.
Defined.

Lemma in_range (t : gmap string Item) (s : list Turn) :
  clock_in_range (users_world t s) ∧ clock_in_range (assets_world t s).
Proof. split; split; discriminate. Defined.

Lemma create_is_idempotent_witness :
  exists (item : Item) (first : Response) (w1 w2 : World),
    create Asset (JObj a1_body) (assets_world ∅ []) = (inr first, w1)
    ∧ table w1 !! "a1" = Some item
    ∧ create Asset (JObj a1_body) (with_clock 1704067300000 w1) =
        (inr (mkResponse 200
                (JSON_stringify
                   (JObj [("message", JStr (exists_message Asset));
                          (record_field Asset, JObj item)]))),
         w2)
    ∧ table w2 = table w1
    ∧ sent w2 = (sent w1 ++ [read Asset "a1"])%list.
Proof.
  apply (create_is_idempotent Asset a1_body "a1" (JStr "f.txt")
           "https://assets.example/upload" (assets_world ∅ []) 1704067300000).
  - exact a1_valid.
  - reflexivity.
  - reflexivity.
  - reflexivity.
  - split; [reflexivity|apply in_range].
Defined.

(** *** The lost race *)

(** The point-read of a create finds nothing and its conditional write,
    which the document client can marshall, is refused because another
    writer has created the record in between. *)
Definition lost_race (r : Resource) (fs : Item) (id : string) (v : json)
    (w : World) : Prop :=
  valid r fs id v ∧ keyName (config w) = pk r
  ∧ fault (next_turn w) = None ∧ seen w !! id = None
  ∧ storable fs w
  ∧ let w1 := after_call (read r id) (seen w) w in
    fault (next_turn w1) = None
    ∧ exists other : Item, seen w1 !! id = Some other ∧ is_Some (assoc (pk r) other).

(** The world in which the create reads again. *)
Definition at_reread (r : Resource) (fs : Item) (id : string) (v : json)
    (w : World) : World :=
  let w1 := after_call (read r id) (seen w) w in
  after_call (write r fs id v w) (seen w1) w1.

(** The claim as the specification words it: a lost race always ends in
    the response for an existing record. *)
Definition race_never_surfaces (r : Resource) (fs : Item) (id : string)
    (v : json) (w : World) : Prop :=
  lost_race r fs id v w ->
  exists (item : Item) (w' : World),
    create r (JObj fs) w = (inr (exists_response r item), w').

(** Another client creates [u1] between the point-read and the write, and
    deletes it again before the second read. *)
Definition created_then_deleted : World :=
  users_world ∅
    [quiet;
     mkTurn [EnvPut "u1" [("userId", JStr "u1"); ("email", JStr "x@y.z")]] None;
     mkTurn [EnvDelete "u1"] None].

Lemma created_then_deleted_race :
  lost_race User u1_body "u1" (JStr "a@b.com") created_then_deleted.
Proof.
  split; [exact u1_valid|].
  split; [reflexivity|]. split; [reflexivity|]. split; [reflexivity|].
  split; [split; [reflexivity|apply in_range]|].
  split; [reflexivity|].
  exists [("userId", JStr "u1"); ("email", JStr "x@y.z")].
  split; [reflexivity|]. exists (JStr "u1"). reflexivity.
Qed.

(** C2, as stated, fails: when the record is gone again at the second read
    (here: deleted by another client), [createUser] rethrows the
    ConditionalCheckFailedException and the handler answers 500. *)
Lemma race_can_surface :
  ¬ race_never_surfaces User u1_body "u1" (JStr "a@b.com") created_then_deleted
  ∧ fst (create User (JObj u1_body) created_then_deleted)
    = inl ConditionalCheckFailedException
  ∧ fst (handler User (mkEvent "POST" None (Some (Json (JObj u1_body))))
           created_then_deleted)
    = inr Users.internal_server_error.
Proof.
  split; [|split; vm_compute; reflexivity].
  intros H. destruct (H created_then_deleted_race) as (item & w' & E).
  vm_compute in E. discriminate E.
Qed.

(** C2, amended. When the conditional write of a create ([POST /users] or
    [POST /assets]) is refused because another writer created the record,
    create reads again by identifier; if that read goes through and finds
    the record, create returns, and the handler answers, 200 with the
    message and that record.  If the read finds no record the
    ConditionalCheckFailedException is rethrown, and if the read itself
    fails its error is thrown; the handler answers either with
    [500 {"error": "Internal server error"}]. *)
Theorem lost_race_reread (r : Resource) (fs : Item) (id : string) (v : json)
    (ps : option (gmap string string)) (w : World) :
  lost_race r fs id v w ->
  let w2 := at_reread r fs id v w in
  let w3 := after_call (read r id) (seen w2) w2 in
  let request := mkEvent "POST" ps (Some (Json (JObj fs))) in
  let failure :=
    mkResponse 500 (JSON_stringify (JObj [("error", JStr "Internal server error")])) in
  (forall item : Item,
     fault (next_turn w2) = None -> seen w2 !! id = Some item ->
     let found :=
       mkResponse 200
         (JSON_stringify
            (JObj [("message", JStr (exists_message r));
                   (record_field r, JObj item)])) in
     create r (JObj fs) w = (inr found, w3)
     ∧ handler r request w = (inr found, w3))
  ∧ (fault (next_turn w2) = None -> seen w2 !! id = None ->
     create r (JObj fs) w = (inl ConditionalCheckFailedException, w3)
     ∧ handler r request w = (inr failure, w3))
  ∧ (forall e : Error,
     fault (next_turn w2) = Some e ->
     create r (JObj fs) w = (inl e, w3)
     ∧ handler r request w = (inr failure, w3)).
Proof.
  intros (Hv & Hpk & Hf & Hnone & Hst & Hf1 & other & Hother & Hattr)
    w2 w3 request failure.
  pose proof (create_lost_race r fs id v other w Hv Hpk Hf Hnone Hf1 Hother Hattr
                Hst) as E.
  cbv zeta in E. fold (at_reread r fs id v w) in E. fold w2 in E. fold w3 in E.
  assert (Hpk2 : keyName (config w2) = pk r) by exact Hpk.
  destruct Hv as (_ & Hne & _).
  assert (Hh : forall out, create r (JObj fs) w = (out, w3) ->
                 handler r request w =
                 (inr match out with inr x => x | inl _ => failure end, w3)).
  { intros out Hout. unfold request. rewrite handler_POST. unfold guarded.
    rewrite Hout. destruct out; reflexivity. }
  split; [|split].
  - intros item Hf2 Hitem found.
    assert (Ec : create r (JObj fs) w = (inr found, w3)).
    { rewrite E, (get_result_found (pk r)), Hitem by assumption.
      rewrite exists_response_eq. reflexivity. }
    split; [exact Ec|exact (Hh _ Ec)].
  - intros Hf2 Hitem.
    assert (Ec : create r (JObj fs) w = (inl ConditionalCheckFailedException, w3)).
    { rewrite E, (get_result_found (pk r)), Hitem by assumption. reflexivity. }
    split; [exact Ec|exact (Hh _ Ec)].
  - intros e Hf2.
    assert (Ec : create r (JObj fs) w = (inl e, w3)).
    { rewrite E. unfold get_result. rewrite Hf2. reflexivity. }
    split; [exact Ec|exact (Hh _ Ec)].
Qed.

(** Another client creates [u1] between the point-read and the write. *)
Definition created_meanwhile : World :=
  users_world ∅
    [quiet;
     mkTurn [EnvPut "u1" [("userId", JStr "u1"); ("email", JStr "x@y.z")]] None].

Lemma created_meanwhile_race :
  lost_race User u1_body "u1" (JStr "a@b.com") created_meanwhile.
Proof.
  split; [exact u1_valid|].
  split; [reflexivity|]. split; [reflexivity|]. split; [reflexivity|].
  split; [split; [reflexivity|apply in_range]|].
  split; [reflexivity|].
  exists [("userId", JStr "u1"); ("email", JStr "x@y.z")].
  split; [reflexivity|]. exists (JStr "u1"). reflexivity.
Defined.

Lemma lost_race_reread_witness :
  let w2 := at_reread User u1_body "u1" (JStr "a@b.com") created_meanwhile in
  let w3 := after_call (read User "u1") (seen w2) w2 in
  let request := mkEvent "POST" None (Some (Json (JObj u1_body))) in
  let found :=
    mkResponse 200
      (JSON_stringify
         (JObj [("message", JStr "User already exists");
                ("user", JObj [("userId", JStr "u1"); ("email", JStr "x@y.z")])])) in
  create User (JObj u1_body) created_meanwhile = (inr found, w3)
  ∧ handler User request created_meanwhile = (inr found, w3).
Proof.
  apply (proj1 (lost_race_reread User u1_body "u1" (JStr "a@b.com") None
                  created_meanwhile created_meanwhile_race)
           [("userId", JStr "u1"); ("email", JStr "x@y.z")]);
    reflexivity.
Defined.

(** *** What a new record holds *)

(** A first creation: a valid body the document client can marshall, an
    identifier not yet stored, a world without failures or other writers,
    and an upload reference issued. *)
Definition fresh (r : Resource) (fs : Item) (id : string) (v : json)
    (w : World) (url : string) : Prop :=
  valid r fs id v ∧ keyName (config w) = pk r ∧ schedule w = []
  ∧ table w !! id = None ∧ issued r fs id v w url ∧ storable fs w.

Lemma create_fresh (r : Resource) (fs : Item) (id : string) (v : json)
    (w : World) (url : string) :
  fresh r fs id v w url ->
  exists w1 : World,
    create r (JObj fs) w =
      (inr (created_response r (new_record r fs id v w) url), w1)
    ∧ table w1 !! id = Some (new_record r fs id v w)
    ∧ schedule w1 = [] ∧ config w1 = config w.
Proof.
  intros (Hv & Hpk & Hq & Hnone & Hissued & Hst).
  eexists. split; [apply create_first; assumption|].
  split; [cbn [table after_call]; apply lookup_insert_eq|].
  split; [|reflexivity].
  cbn [schedule after_call]. rewrite Hq. reflexivity.
Qed.

(** C8. A new user has [ttl = createdAt + 7776000] (90 days) and
    [POST /users] answers 201 with that record; repeating the POST, also
    later, answers 200 with the same record, hence the same [createdAt].
    A new asset has [ttl = createdAt + 30 days], the content type
    [application/octet-stream] unless the body gives one, the storage key
    [assets/{identifier}/{fileName}] and the status [pending]. *)
Theorem creation_postconditions
    (fs : Item) (id : string) (email : json) (w : World) (c : Z)
    (afs : Item) (aid : string) (fileName : json) (aw : World) (url : string) :
  fresh User fs id email w "" -> fresh Asset afs aid fileName aw url ->
  let now := floor_seconds (clock w) in
  let anow := floor_seconds (clock aw) in
  (exists (item : Item) (w1 w2 : World),
     Users.createUser (JObj fs) w =
       (inr (mkResponse 201
               (JSON_stringify
                  (JObj [("message", JStr "User created"); ("user", JObj item)]))),
        w1)
     ∧ table w1 !! id = Some item
     ∧ assoc "userId" item = Some (JStr id)
     ∧ assoc "createdAt" item = Some (JNum now)
     ∧ assoc "ttl" item = Some (JNum (now + 7776000))
     ∧ Users.createUser (JObj fs) (with_clock c w1) =
         (inr (mkResponse 200
                 (JSON_stringify
                    (JObj [("message", JStr "User already exists");
                           ("user", JObj item)]))),
          w2))
  ∧ (exists (asset : Item) (aw1 : World) (text : string),
       Assets.uploadAsset (JObj afs) aw =
         (inr (mkResponse 201
                 (JSON_stringify
                    (JObj [("message", JStr "Asset metadata created");
                           ("asset", JObj asset); ("uploadUrl", JStr url)]))),
          aw1)
       ∧ table aw1 !! aid = Some asset
       ∧ assoc "createdAt" asset = Some (JNum anow)
       ∧ assoc "ttl" asset = Some (JNum (anow + 30 * 24 * 60 * 60))
       ∧ assoc "status" asset = Some (JStr "pending")
       ∧ toString fileName = inr text
       ∧ assoc "s3Key" asset = Some (JStr ("assets/" +:+ aid +:+ "/" +:+ text))
       ∧ (forall name : string, fileName = JStr name ->
            assoc "s3Key" asset = Some (JStr ("assets/" +:+ aid +:+ "/" +:+ name)))
       ∧ (assoc "contentType" afs = None ->
          assoc "contentType" asset = Some (JStr "application/octet-stream"))
       ∧ (forall ct : json,
            assoc "contentType" afs = Some ct -> truthy (Some ct) = true ->
            assoc "contentType" asset = Some ct)).
Proof.
  intros Hu Ha now anow. split.
  - destruct (create_fresh _ _ _ _ _ _ Hu) as (w1 & E & Hstored & Hq1 & Hc1).
    destruct Hu as (Hv & Hpk & _).
    exists (new_record User fs id email w), w1. eexists.
    split; [exact E|]. split; [exact Hstored|].
    split; [apply CreateUser.assoc_new_user; discriminate|].
    split; [apply CreateUser.assoc_new_user; discriminate|].
    split; [apply CreateUser.assoc_new_user; discriminate|].
    apply (create_again User fs id email); try assumption.
    cbn [config with_clock]. rewrite Hc1. exact Hpk.
  - destruct (create_fresh _ _ _ _ _ _ Ha) as (aw1 & E & Hstored & _).
    destruct Ha as ((_ & _ & _ & _ & Hp) & _).
    exists (new_record Asset afs aid fileName aw), aw1, (printed fileName).
    split; [exact E|]. split; [exact Hstored|].
    split; [reflexivity|]. split; [reflexivity|]. split; [reflexivity|].
    split; [apply toString_printed, Hp|].
    split; [reflexivity|].
    split; [intros name ->; reflexivity|].
    cbn [new_record CreateAsset.record CreateAsset.new_asset assoc String.eqb
         Ascii.eqb Bool.eqb].
    unfold CreateAsset.content_type. split.
    + intros ->. reflexivity.
    + intros ct -> Ht. rewrite required_truthy by assumption. reflexivity.
Qed.

Lemma u1_fresh : fresh User u1_body "u1" (JStr "a@b.com") (users_world ∅ []) "".
Proof.
  split; [exact u1_valid|]. split; [reflexivity|]. split; [reflexivity|].
  split; [reflexivity|]. split; [exact I|]. split; [reflexivity|apply in_range].
Defined.

Lemma a1_fresh :
  fresh Asset a1_body "a1" (JStr "f.txt") (assets_world ∅ [])
    "https://assets.example/upload".
Proof.
  split; [exact a1_valid|]. split; [reflexivity|]. split; [reflexivity|].
  split; [reflexivity|]. split; [reflexivity|].
  split; [reflexivity|apply in_range].
Defined.

Lemma creation_postconditions_witness :
  fresh User u1_body "u1" (JStr "a@b.com") (users_world ∅ []) ""
  ∧ fresh Asset a1_body "a1" (JStr "f.txt") (assets_world ∅ [])
      "https://assets.example/upload"
  ∧ exists (item : Item) (w1 w2 : World),
      Users.createUser (JObj u1_body) (users_world ∅ []) =
        (inr (mkResponse 201
                (JSON_stringify
                   (JObj [("message", JStr "User created"); ("user", JObj item)]))),
         w1)
      ∧ table w1 !! "u1" = Some item
      ∧ assoc "userId" item = Some (JStr "u1")
      ∧ assoc "createdAt" item = Some (JNum 1704067200)
      ∧ assoc "ttl" item = Some (JNum (1704067200 + 7776000))
      ∧ Users.createUser (JObj u1_body) (with_clock 1704067300000 w1) =
          (inr (mkResponse 200
                  (JSON_stringify
                     (JObj [("message", JStr "User already exists");
                            ("user", JObj item)]))),
           w2).
Proof.
  split; [exact u1_fresh|]. split; [exact a1_fresh|].
  exact (proj1 (creation_postconditions u1_body "u1" (JStr "a@b.com")
                  (users_world ∅ []) 1704067300000 a1_body "a1" (JStr "f.txt")
                  (assets_world ∅ []) "https://assets.example/upload"
                  u1_fresh a1_fresh)).
Defined.

(** *** Validation *)

Lemma truthy_is_Some (v : option json) : truthy v = true -> exists x, v = Some x.
Proof. destruct v as [x|]; [exists x; reflexivity|discriminate]. Qed.

Lemma create_rejects (r : Resource) (fs : Item) (w : World) :
  truthy (assoc (pk r) fs) = false ∨ truthy (assoc (second r) fs) = false ->
  create r (JObj fs) w = (inr (error_response 400 (required_message r)), w).
Proof.
  intros H.
  destruct r; cbn [create pk second required_message] in *;
    unfold Users.createUser, Assets.uploadAsset, bind, lift, get_prop, ret, required;
    destruct H as [H|H]; rewrite H;
    repeat match goal with
    | |- context [if truthy ?v then _ else _] =>
        let E := fresh "E" in
        destruct (truthy v) eqn:E;
        [apply truthy_is_Some in E; destruct E as [? ->]|]
    end; reflexivity.
Qed.

Lemma new_user_omits (fs : Item) (userId email : json) (now : Z) (k : string) :
  k = "name" ∨ k = "department" -> truthy (assoc k fs) = false ->
  assoc k (CreateUser.new_user fs userId email now) = None.
Proof.
  intros Hk Hfalsy. unfold CreateUser.new_user, CreateUser.with_optional, required.
  destruct Hk as [-> | ->]; rewrite Hfalsy.
  - destruct (truthy (assoc "department" fs)) eqn:E; [|reflexivity].
    apply truthy_is_Some in E. destruct E as [x ->].
    rewrite assoc_obj_set_ne by discriminate. reflexivity.
  - destruct (truthy (assoc "name" fs)) eqn:E; [|reflexivity].
    apply truthy_is_Some in E. destruct E as [x ->].
    reflexivity.
Qed.

(** C9. Required fields are tested for truthiness: a create body whose
    identifier or second required field ([userId], [email]; [assetId],
    [fileName]) is the empty string, or any other falsy value, is answered
    400 like a body without the field, in any world and without a store
    call.  In the record of a first creation an empty or falsy
    [contentType] is replaced by [application/octet-stream], and an empty
    or falsy [name] or [department] is left out. *)
Theorem validation_by_truthiness (r : Resource) (bad : Item) (w : World) :
  truthy (assoc (pk r) bad) = false ∨ truthy (assoc (second r) bad) = false ->
  create r (JObj bad) w =
    (inr (mkResponse 400
            (JSON_stringify (JObj [("error", JStr (required_message r))]))),
     w)
  ∧ truthy (Some (JStr "")) = false ∧ truthy None = false
  ∧ (forall (fs : Item) (id : string) (v : json) (w0 : World) (url : string),
       fresh r fs id v w0 url ->
       exists (item : Item) (w1 : World),
         create r (JObj fs) w0 = (inr (created_response r item url), w1)
         ∧ statusCode (created_response r item url) = 201
         ∧ table w1 !! id = Some item
         ∧ (r = Asset -> truthy (assoc "contentType" fs) = false ->
            assoc "contentType" item = Some (JStr "application/octet-stream"))
         ∧ (r = User -> forall k : string, k = "name" ∨ k = "department" ->
            truthy (assoc k fs) = false -> assoc k item = None)).
Proof.
  intros Hbad.
  split; [apply create_rejects; exact Hbad|].
  split; [reflexivity|]. split; [reflexivity|].
  intros fs id v w0 url Hfresh.
  destruct (create_fresh _ _ _ _ _ _ Hfresh) as (w1 & E & Hstored & _).
  exists (new_record r fs id v w0), w1.
  split; [exact E|]. split; [destruct r; reflexivity|].
  split; [exact Hstored|]. split.
  - intros -> Hfalsy.
    cbn [new_record CreateAsset.record CreateAsset.new_asset assoc String.eqb
         Ascii.eqb Bool.eqb].
    unfold CreateAsset.content_type, required. rewrite Hfalsy. reflexivity.
  - intros -> k Hk Hfalsy. apply new_user_omits; assumption.
Qed.

Definition a1_empty_type : Item :=
  [("assetId", JStr "a1"); ("fileName", JStr "f.txt"); ("contentType", JStr "")].
Definition a1_empty_name : Item :=
  [("assetId", JStr "a1"); ("fileName", JStr "")].

Lemma a1_empty_type_fresh :
  fresh Asset a1_empty_type "a1" (JStr "f.txt") (assets_world ∅ [])
    "https://assets.example/upload".
Proof.
  split.
  { split; [reflexivity|]. split; [discriminate|]. split; [reflexivity|].
    split; [reflexivity|]. exists "f.txt". reflexivity. }
  split; [reflexivity|]. split; [reflexivity|].
  split; [reflexivity|]. split; [reflexivity|].
  split; [reflexivity|apply in_range].
Defined.

Lemma validation_by_truthiness_witness :
  create Asset (JObj a1_empty_name) (assets_world ∅ []) =
    (inr (mkResponse 400
            (JSON_stringify (JObj [("error", JStr (required_message Asset))]))),
     assets_world ∅ [])
  ∧ exists (item : Item) (w1 : World),
      create Asset (JObj a1_empty_type) (assets_world ∅ [])
      = (inr (created_response Asset item "https://assets.example/upload"), w1)
      ∧ statusCode (created_response Asset item "https://assets.example/upload")
        = 201
      ∧ table w1 !! "a1" = Some item
      ∧ (Asset = Asset -> truthy (assoc "contentType" a1_empty_type) = false ->
         assoc "contentType" item = Some (JStr "application/octet-stream"))
      ∧ (Asset = User -> forall k : string, k = "name" ∨ k = "department" ->
         truthy (assoc k a1_empty_type) = false -> assoc k item = None).
Proof.
  destruct (validation_by_truthiness Asset a1_empty_name (assets_world ∅ []))
    as (H400 & _ & _ & Hrecord).
  - right. reflexivity.
  - split; [exact H400|].
    exact (Hrecord a1_empty_type "a1" (JStr "f.txt") (assets_world ∅ [])
             "https://assets.example/upload" a1_empty_type_fresh).
Defined.

End Creation.

(** ** Reads of records that are not there *)

Module Reads.
Import JS Runtime RuntimeFacts Api.

Lemma getAsset_step (assetId : string) (w : World) :
  Assets.getAsset assetId w =
  (match get_result (Assets.Key (JStr assetId)) w with
   | inl e => inl e
   | inr None => inr (error_response 404 "Asset not found")
   | inr (Some item) => inr (json_response 200 (JObj item))
   end,
   after_call (GetCommand (Assets.Key (JStr assetId))) (seen w) w).
Proof.
  unfold Assets.getAsset, try_catch, bind. rewrite send_get_eq by reflexivity.
  destruct (get_result (Assets.Key (JStr assetId)) w) as [e|[item|]]; reflexivity.
Qed.

(** The route [GET /assets/{id}] of the handler is [getAsset]. *)
Lemma assets_handler_GET (assetId : string) (ps : gmap string string) (w : World) :
  assetId ≠ "" -> ps !! "id" = Some assetId -> ps !! "action" = None ->
  Assets.handler (mkEvent "GET" (Some ps) None) w =
  match Assets.getAsset assetId w with
  | (inr r, w') => (inr r, w')
  | (inl _, w') => (inr Assets.internal_server_error, w')
  end.
Proof.
  intros Hne Hid Haction.
  unfold Assets.handler, parse_body, path_param, Assets.dispatch, bind at 1, ret at 1.
  cbn [httpMethod pathParameters body]. rewrite Hid, Haction.
  cbn [String.eqb Ascii.eqb Bool.eqb given default].
  destruct (String.eqb_spec assetId ""); [contradiction|].
  unfold try_catch, bind, ret.
  destruct (Assets.getAsset assetId w) as [[e|r] w']; reflexivity.
Qed.

Lemma fetch_missing (r : Resource) (id : string) (w : World) :
  id ≠ "" -> keyName (config w) = pk r ->
  fault (next_turn w) = None -> seen w !! id = None ->
  fetch r id w =
  (inr (error_response 404 (not_found_message r)),
   after_call (read r id) (seen w) w).
Proof.
  intros Hne Hpk Hf Hnone. destruct r; cbn [fetch not_found_message pk] in *.
  - apply Retry.getUser_of_loop. change (Z.to_nat Users.retries) with 3%nat.
    rewrite Retry.getUser_loop_step. unfold Users.Key.
    rewrite (get_result_found "userId"), Hnone by assumption. reflexivity.
  - rewrite getAsset_step. unfold Assets.Key.
    rewrite (get_result_found "assetId"), Hnone by assumption. reflexivity.
Qed.

(** The body of the 404 of an asset, character by character. *)
Definition asset_not_found_text : string :=
  "{" +:+ String dquote "error" +:+ String dquote ":"
  +:+ String dquote "Asset not found" +:+ String dquote "}".

(** C5. Not-found is terminal for reads: for an identifier with no stored
    record, [GET /users/{id}] and [GET /assets/{id}] answer 404 after one
    point-read, without a retry and without any wait, and the body is
    [{"error": message}], for assets [{"error":"Asset not found"}]. *)
Theorem not_found_is_terminal (r : Resource) (id : string)
    (ps : gmap string string) (w : World) :
  id ≠ "" -> keyName (config w) = pk r ->
  fault (next_turn w) = None -> seen w !! id = None ->
  ps !! "id" = Some id -> ps !! "action" = None ->
  let w' := after_call (read r id) (seen w) w in
  let not_found :=
    mkResponse 404 (JSON_stringify (JObj [("error", JStr (not_found_message r))])) in
  fetch r id w = (inr not_found, w')
  ∧ handler r (mkEvent "GET" (Some ps) None) w = (inr not_found, w')
  ∧ sent w' = (sent w ++ [read r id])%list
  ∧ slept w' = slept w ∧ clock w' = clock w
  ∧ (r = Asset -> body_text not_found = asset_not_found_text).
Proof.
  intros Hne Hpk Hf Hnone Hid Haction w' not_found.
  assert (E : fetch r id w = (inr not_found, w'))
    by (apply fetch_missing; assumption).
  split; [exact E|]. split.
  - destruct r; cbn [handler fetch] in *.
    + rewrite (Retry.handler_GET id) by assumption. rewrite E. reflexivity.
    + rewrite (assets_handler_GET id) by assumption. rewrite E. reflexivity.
  - split; [reflexivity|]. split; [reflexivity|]. split; [reflexivity|].
    intros ->. reflexivity.
Qed.

Lemma not_found_is_terminal_witness :
  let w := Creation.assets_world ∅ [] in
  let w' := after_call (read Asset "missing") (seen w) w in
  let not_found :=
    mkResponse 404 (JSON_stringify (JObj [("error", JStr "Asset not found")])) in
  fetch Asset "missing" w = (inr not_found, w')
  ∧ handler Asset (mkEvent "GET" (Some {[ "id" := "missing" ]}) None) w
    = (inr not_found, w')
  ∧ sent w' = (sent w ++ [read Asset "missing"])%list
  ∧ slept w' = slept w ∧ clock w' = clock w
  ∧ (Asset = Asset -> body_text not_found = asset_not_found_text).
Proof.
  apply (not_found_is_terminal Asset "missing" {[ "id" := "missing" ]}
           (Creation.assets_world ∅ [])).
  - discriminate.
  - reflexivity.
  - reflexivity.
  - reflexivity.
  - reflexivity.
  - reflexivity.
Defined.

End Reads.

(** ** The handler boundary *)

Module Boundary.
Import JS Runtime RuntimeFacts Api.

(** Whatever is thrown once the body has been parsed is answered with the
    generic 500: with a body that is absent or is JSON text the handler
    always returns a response. *)
Lemma handler_converts (r : Resource) (method : string)
    (ps : option (gmap string string)) (b : option json) (w : World) :
  exists (response : Response) (w' : World),
    handler r (mkEvent method ps (option_map Json b)) w = (inr response, w').
Proof.
  destruct r; cbn [handler]; unfold Users.handler, Assets.handler.
  - unfold bind at 1. cbn [body].
    destruct b as [v|]; cbn [option_map parse_body text_truthy JSON_parse lift ret];
      unfold try_catch;
      match goal with
      | |- context [bind ?m ?k ?w] => destruct (bind m k w) as [[e|x] w']
      end; eexists; eexists; reflexivity.
  - unfold bind at 1. cbn [body].
    destruct b as [v|]; cbn [option_map parse_body text_truthy JSON_parse lift ret];
      unfold try_catch;
      match goal with
      | |- context [bind ?m ?k ?w] => destruct (bind m k w) as [[e|x] w']
      end; eexists; eexists; reflexivity.
Qed.

(** C7, where the code departs from it.  [JSON.parse(event.body)] is
    evaluated before the [try] block of the handler: for a body that is not
    JSON text, here the one character ["{"], the SyntaxError leaves the
    handler of either record type as an exception, whatever the method and
    the path; no 500 response is produced. *)
Theorem malformed_body_escapes (r : Resource) (method : string)
    (ps : option (gmap string string)) (w : World) :
  handler r (mkEvent method ps (Some (NotJson "{"))) w = (inl SyntaxError, w).
Proof. destruct r; reflexivity. Qed.

End Boundary.

(** ** Partial update *)

Module Update.
Import JS Runtime RuntimeFacts Users.

(** The identifier is never among the attributes an update sets. *)
Lemma update_step_keeps (acc : list (string * string) * Item)
    (entry : string * json) :
  "userId" ∉ map fst (fst acc) -> "userId" ∉ map fst (fst (update_step acc entry)).
Proof.
  destruct acc as [clauses values], entry as [key value].
  unfold update_step. cbn [fst].
  destruct (String.eqb_spec key "userId") as [->|Hne]; cbn [negb fst]; [trivial|].
  intros Hnot. rewrite map_app. cbn [map fst].
  intros [Hin|Hin]%elem_of_app; [contradiction|].
  apply list_elem_of_singleton in Hin. congruence.
Qed.

Lemma foldl_update_keeps (entries : list (string * json))
    (acc : list (string * string) * Item) :
  "userId" ∉ map fst (fst acc) ->
  "userId" ∉ map fst (fst (foldl update_step acc entries)).
Proof.
  revert acc. induction entries as [|entry entries IH]; intros acc Hacc; cbn [foldl].
  - exact Hacc.
  - apply IH, update_step_keeps, Hacc.
Qed.

Lemma update_excludes_identifier (now : Z) (entries : list (string * json)) :
  "userId" ∉ map fst (fst (update_clauses now entries)).
Proof.
  unfold update_clauses. apply foldl_update_keeps. cbn [map fst].
  intros Hin. apply list_elem_of_singleton in Hin. discriminate Hin.
Qed.

(** Unless the body has an [updatedAt] of its own, the value sent for
    [:updatedAt] is the current time. *)
Lemma foldl_update_now (now : Z) (entries : list (string * json))
    (acc : list (string * string) * Item) :
  "updatedAt" ∉ map fst entries ->
  assoc ":updatedAt" (snd acc) = Some (JNum now) ->
  assoc ":updatedAt" (snd (foldl update_step acc entries)) = Some (JNum now).
Proof.
  revert acc. induction entries as [|[key value] entries IH];
    intros [clauses values] Hnot Hacc; cbn [foldl].
  - exact Hacc.
  - cbn [map fst] in Hnot. apply not_elem_of_cons in Hnot as [Hne Hnot].
    apply IH; [exact Hnot|].
    unfold update_step.
    destruct (negb (String.eqb key "userId")); cbn [snd] in *; [|exact Hacc].
    rewrite assoc_obj_set_ne; [exact Hacc|].
    intros Heq. injection Heq as Heq.
    change ("" +:+ key) with key in Heq. congruence.
Qed.

Lemma update_sets_now (now : Z) (entries : list (string * json)) :
  "updatedAt" ∉ map fst entries ->
  assoc ":updatedAt" (snd (update_clauses now entries)) = Some (JNum now).
Proof.
  intros Hnot. unfold update_clauses. apply foldl_update_now; [exact Hnot|].
  reflexivity.
Qed.

(** No record for the identifier: the pre-read answers 404 and no update
    is sent. *)
Lemma updateUser_missing (userId : string) (body : json) (w : World) :
  userId ≠ "" -> keyName (config w) = "userId" ->
  fault (next_turn w) = None -> seen w !! userId = None ->
  updateUser userId body w =
  (inr (error_response 404 "User not found"),
   after_call (GetCommand (Key (JStr userId))) (seen w) w).
Proof.
  intros Hne Hpk Hf Hnone.
  unfold updateUser, try_catch, bind. rewrite send_get_eq by reflexivity.
  unfold Key. rewrite (get_result_found "userId"), Hnone by assumption.
  reflexivity.
Qed.

Definition u1_record : Item :=
  [("userId", JStr "u1"); ("email", JStr "a@b.com");
   ("createdAt", JNum 1704067200); ("ttl", JNum 1711843200)].

Definition put_updatedAt : Event :=
  mkEvent "PUT" (Some {[ "id" := "u1" ]})
    (Some (Json (JObj [("updatedAt", JNum 0)]))).

(** C6, where the code departs from it.  A body with an [updatedAt] field
    of its own takes the place of the current time: the value sent for
    [:updatedAt] is the caller's, whatever the time, and the expression
    sets [updatedAt] twice.  For [PUT /users/u1 {"updatedAt": 0}] on the
    stored user [u1] the store refuses the expression, the handler answers
    500 and the record is left without [updatedAt]. *)
Theorem updatedAt_collision (now : Z) (v : json) :
  update_clauses now [("updatedAt", v)] =
    ([("updatedAt", ":updatedAt"); ("updatedAt", ":updatedAt")],
     [(":updatedAt", v)])
  ∧ UpdateExpression (fst (update_clauses now [("updatedAt", v)]))
    = "SET updatedAt = :updatedAt, updatedAt = :updatedAt"
  ∧ fst (handler put_updatedAt
           (Creation.users_world {[ "u1" := u1_record ]} []))
    = inr internal_server_error
  ∧ table (snd (handler put_updatedAt
                  (Creation.users_world {[ "u1" := u1_record ]} []))) !! "u1"
    = Some u1_record.
Proof.
  split; [reflexivity|]. split; [reflexivity|].
  split; vm_compute; reflexivity.
Qed.

End Update.

(** ** What the operations leave alone *)

Module Frame.
Import JS Runtime RuntimeFacts.

(** No other client writes to the table during the calls still to come;
    the calls themselves may fail. *)
Definition calm (w : World) : Prop :=
  Forall (fun turn => before turn = []) (schedule w).

(** [m] keeps [I] along: from a world in [I] it ends in a world in [I],
    whether it returns or throws. *)
Definition preserves {A} (I : World -> Prop) (m : M A) : Prop :=
  forall w, I w -> I (snd (m w)).

Section Combinators.
Context {A B : Type} (I : World -> Prop).

Lemma preserves_ret (a : A) : preserves I (ret a).
Proof. intros w H. exact H. Qed.

Lemma preserves_throw (e : Error) : preserves I (@throw A e).
Proof. intros w H. exact H. Qed.

Lemma preserves_lift (r : Error + A) : preserves I (lift r).
Proof. destruct r; [apply preserves_throw|apply preserves_ret]. Qed.

Lemma preserves_bind (m : M A) (k : A -> M B) :
  preserves I m -> (forall a, preserves I (k a)) -> preserves I (bind m k).
Proof.
  intros Hm Hk w H. unfold bind. specialize (Hm w H).
  destruct (m w) as [[e|a] w']; cbn [snd] in *; [exact Hm|].
  apply Hk, Hm.
Qed.

Lemma preserves_try_catch (m : M A) (handle : Error -> M A) :
  preserves I m -> (forall e, preserves I (handle e)) ->
  preserves I (try_catch m handle).
Proof.
  intros Hm Hh w H. unfold try_catch. specialize (Hm w H).
  destruct (m w) as [[e|a] w']; cbn [snd] in *; [|exact Hm].
  apply Hh, Hm.
Qed.

End Combinators.

Lemma calm_seen (w : World) : calm w -> seen w = table w.
Proof.
  unfold calm, seen, next_turn. destruct (schedule w) as [|turn rest]; [reflexivity|].
  intros H. apply Forall_cons in H as [Hb _]. cbn [hd]. rewrite Hb. reflexivity.
Qed.

Lemma calm_after_call (cmd : Command) (t : gmap string Item) (w : World) :
  calm w -> calm (after_call cmd t w).
Proof.
  unfold calm, after_call. cbn [schedule].
  destruct (schedule w) as [|turn rest]; [trivial|].
  intros H. apply Forall_cons in H as [_ H]. exact H.
Qed.

(** The world of a [send]: the world as it was when the document client
    refuses the command; otherwise the table is what [exec] makes of the
    table found, or the table found when the call fails. *)
Lemma send_world {A} (cmd : Command)
    (exec : Config -> gmap string Item -> Error + (A * gmap string Item))
    (w : World) :
  snd (send cmd exec w) = w
  ∨ exists t : gmap string Item,
      snd (send cmd exec w) = after_call cmd t w
      ∧ (t = seen w
         ∨ exists a, fault (next_turn w) = None
                     ∧ exec (config w) (seen w) = inr (a, t)).
Proof.
  unfold send. destruct (marshals cmd); [right|left; reflexivity].
  destruct (fault (next_turn w)) as [e|] eqn:Hf.
  - exists (seen w). split; [reflexivity|left; reflexivity].
  - destruct (exec (config w) (seen w)) as [e|[a t']] eqn:He.
    + exists (seen w). split; [reflexivity|left; reflexivity].
    + exists t'. split; [reflexivity|right]. exists a. split; reflexivity.
Qed.

(** A property of the table that holds as long as nobody else writes. *)
Definition keeps (P : gmap string Item -> Prop) (w : World) : Prop :=
  calm w ∧ P (table w).

Lemma keeps_send {A} (P : gmap string Item -> Prop) (cmd : Command)
    (exec : Config -> gmap string Item -> Error + (A * gmap string Item)) :
  (forall c t a t', P t -> exec c t = inr (a, t') -> P t') ->
  preserves (keeps P) (send cmd exec).
Proof.
  intros Hexec w [Hcalm HP].
  destruct (send_world cmd exec w) as [-> | (t & -> & Ht)]; [split; assumption|].
  split; [apply calm_after_call; exact Hcalm|].
  cbn [table after_call]. rewrite (calm_seen _ Hcalm) in Ht.
  destruct Ht as [->|(a & _ & He)]; [exact HP|].
  exact (Hexec _ _ _ _ HP He).
Qed.

Lemma keeps_get (P : gmap string Item -> Prop) (Key : Item) :
  preserves (keeps P) (send_get Key).
Proof.
  apply keeps_send. intros c t a t' HP. unfold exec_get.
  destruct (key_of (keyName c) Key); [|discriminate]. intros [= _ <-]. exact HP.
Qed.

Lemma keeps_sleep (P : gmap string Item -> Prop) (ms : Z) :
  preserves (keeps P) (sleep ms).
Proof. intros w H. exact H. Qed.

Lemma keeps_now (P : gmap string Item -> Prop) : preserves (keeps P) Date_now.
Proof. intros w H. exact H. Qed.

Lemma keeps_sign (P : gmap string Item -> Prop) (cmd : S3Command) (n : Z) :
  preserves (keeps P) (getSignedUrl cmd n).
Proof. intros w H. exact H. Qed.

(** A put conditioned on [attribute_not_exists(a)] leaves a record that
    has the attribute [a] as it is. *)
Lemma keeps_put (k a : string) (old item : Item) :
  is_Some (assoc a old) ->
  preserves (keeps (fun t => t !! k = Some old)) (send_put item a).
Proof.
  intros [v Hattr]. apply keeps_send. intros c t [] t' Hk. unfold exec_put.
  destruct (item_key (keyName c) item) as [k'|]; [|discriminate].
  destruct (decide (k' = k)) as [->|Hne].
  - rewrite Hk, Hattr. discriminate.
  - destruct (t !! k') as [old'|]; [destruct (assoc a old')|];
      try discriminate; intros [= <-]; rewrite lookup_insert_ne by exact Hne;
      exact Hk.
Qed.

(** An update or a delete of the record [k] leaves the others as they are. *)
Lemma keeps_update (k k' : string) (x : option Item)
    (clauses : list (string * string)) (values : Item) :
  k' ≠ k ->
  preserves (keeps (fun t => t !! k' = x))
    (send_update [("userId", JStr k)] clauses values).
Proof.
  intros Hne. apply keeps_send. intros c t a t' Hk. unfold exec_update.
  destruct (key_of (keyName c) [("userId", JStr k)]) as [k0|] eqn:Hkey;
    [|discriminate].
  assert (k0 = k) as ->.
  { unfold key_of in Hkey.
    destruct (String.eqb "userId" (keyName c) && negb (String.eqb k ""));
      congruence. }
  destruct (negb (forallb (bare_name c) (map fst clauses))
            || paths_overlap (map fst clauses)
            || existsb (String.eqb (keyName c)) (map fst clauses));
    [discriminate|].
  destruct (apply_sets clauses values (default [("userId", JStr k)] (t !! k)));
    [|discriminate].
  intros [= _ <-]. rewrite lookup_insert_ne by congruence. exact Hk.
Qed.

Lemma keeps_delete (k k' : string) (x : option Item) :
  k' ≠ k ->
  preserves (keeps (fun t => t !! k' = x)) (send_delete [("userId", JStr k)]).
Proof.
  intros Hne. apply keeps_send. intros c t [] t' Hk. unfold exec_delete.
  destruct (key_of (keyName c) [("userId", JStr k)]) as [k0|] eqn:Hkey;
    [|discriminate].
  assert (k0 = k) as ->.
  { unfold key_of in Hkey.
    destruct (String.eqb "userId" (keyName c) && negb (String.eqb k ""));
      congruence. }
  intros [= <-]. rewrite lookup_delete_ne by congruence. exact Hk.
Qed.

End Frame.

Module FrameFacts.
Import JS Runtime RuntimeFacts Frame Api.

(** Walks down a handler body made of [bind], [try_catch], [match] and
    [if], leaving the store calls to the lemmas of [Frame]. *)
Ltac frame_step :=
  match goal with
  | |- preserves _ (bind _ _) => apply preserves_bind; [|intros ?]
  | |- preserves _ (try_catch _ _) => apply preserves_try_catch; [|intros ?]
  | |- preserves _ (ret _) => apply preserves_ret
  | |- preserves _ (throw _) => apply preserves_throw
  | |- preserves _ (lift _) => apply preserves_lift
  | |- preserves _ (send_get _) => apply keeps_get
  | |- preserves _ Date_now => apply keeps_now
  | |- preserves _ (sleep _) => apply keeps_sleep
  | |- preserves _ (getSignedUrl _ _) => apply keeps_sign
  | |- preserves _ (match ?x with _ => _ end) => destruct x
  | |- preserves _ (if ?b then _ else _) => destruct b
  end.

Lemma getUser_loop_frame (P : gmap string Item -> Prop) (n : nat) (attempt : Z)
    (userId : string) :
  preserves (keeps P) (Users.getUser_loop n attempt userId).
Proof.
  revert attempt. induction n as [|n IH]; intros attempt; cbn [Users.getUser_loop].
  - apply preserves_ret.
  - repeat frame_step. apply IH.
Qed.

Lemma getUser_frame (P : gmap string Item -> Prop) (userId : string) :
  preserves (keeps P) (Users.getUser userId).
Proof.
  unfold Users.getUser. apply preserves_bind; [apply getUser_loop_frame|].
  intros [r|]; apply preserves_ret.
Qed.

Lemma getAsset_frame (P : gmap string Item -> Prop) (assetId : string) :
  preserves (keeps P) (Assets.getAsset assetId).
Proof. unfold Assets.getAsset. repeat frame_step. Qed.

Lemma getDownloadUrl_frame (P : gmap string Item -> Prop) (assetId : string) :
  preserves (keeps P) (Assets.getDownloadUrl assetId).
Proof. unfold Assets.getDownloadUrl. repeat frame_step. Qed.

Lemma parse_body_frame (I : World -> Prop) (b : option BodyText) :
  preserves I (parse_body b).
Proof.
  unfold parse_body. destruct b as [t|]; [|apply preserves_ret].
  destruct (text_truthy t); [apply preserves_lift|apply preserves_ret].
Qed.

Lemma createUser_frame (k : string) (old : Item) (body : json) :
  is_Some (assoc "userId" old) ->
  preserves (keeps (fun t => t !! k = Some old)) (Users.createUser body).
Proof.
  intros Hattr. unfold Users.createUser, Users.optional_field.
  repeat first [frame_step | apply keeps_put; exact Hattr].
Qed.

Lemma uploadAsset_frame (k : string) (old : Item) (body : json) :
  is_Some (assoc "assetId" old) ->
  preserves (keeps (fun t => t !! k = Some old)) (Assets.uploadAsset body).
Proof.
  intros Hattr. unfold Assets.uploadAsset.
  repeat first [frame_step | apply keeps_put; exact Hattr].
  intros w0 Hw0. cbv beta zeta.
  refine (preserves_bind _ _ _ _ _ w0 Hw0);
    [apply keeps_put; exact Hattr|intros _].
  repeat frame_step.
Qed.

Lemma updateUser_frame (userId k : string) (x : option Item) (body : json) :
  k ≠ userId ->
  preserves (keeps (fun t => t !! k = x)) (Users.updateUser userId body).
Proof.
  intros Hne. unfold Users.updateUser.
  repeat first [frame_step | apply keeps_update; exact Hne].
Qed.

Lemma deleteUser_frame (userId k : string) (x : option Item) :
  k ≠ userId ->
  preserves (keeps (fun t => t !! k = x)) (Users.deleteUser userId).
Proof.
  intros Hne. unfold Users.deleteUser.
  repeat first [frame_step | apply keeps_delete; exact Hne].
Qed.

Lemma given_Some (s : option string) (id : string) :
  given s = Some id -> s = Some id.
Proof.
  destruct s as [s|]; [|discriminate]. cbn [given].
  destruct (String.eqb s ""); [discriminate|trivial].
Qed.

(** X1. A create never overwrites: as long as no other client writes,
    [POST /users] and [POST /assets] leave every stored record (one that
    has its key attribute) exactly as it is, whatever the body and
    whichever store calls fail. *)
Theorem create_never_overwrites (r : Resource) (body : json)
    (ps : option (gmap string string)) (b : option BodyText)
    (k : string) (old : Item) (w : World) :
  calm w -> table w !! k = Some old -> is_Some (assoc (pk r) old) ->
  table (snd (create r body w)) !! k = Some old
  ∧ table (snd (handler r (mkEvent "POST" ps b) w)) !! k = Some old.
Proof.
  intros Hcalm Hk Hattr.
  assert (Hc : forall body, preserves (keeps (fun t => t !! k = Some old))
                              (create r body)).
  { intros body'. destruct r; [apply createUser_frame|apply uploadAsset_frame];
      exact Hattr. }
  split; [apply (Hc body w); split; assumption|].
  assert (Hh : preserves (keeps (fun t => t !! k = Some old))
                 (handler r (mkEvent "POST" ps b))).
  { destruct r; cbn [handler]; unfold Users.handler, Assets.handler,
      Users.dispatch, Assets.dispatch; cbn [httpMethod String.eqb Ascii.eqb Bool.eqb];
      (apply preserves_bind; [apply parse_body_frame|intros body']);
      repeat first [frame_step | apply (Hc body')]. }
  apply (Hh w). split; assumption.
Qed.

Definition one_user : World :=
  mkWorld (mkConfig "userId" "" (fun _ _ => inl TypeError) api_reserved)
    {[ "u1" := [("userId", JStr "u1"); ("email", JStr "a@b.com")] ]}
    [mkTurn [] None; mkTurn [] (Some (mkError "ThrottlingException"))]
    0 [] [].

Lemma create_never_overwrites_witness :
  table (snd (create User
                (JObj [("userId", JStr "u1"); ("email", JStr "new@b.com")])
                one_user)) !! "u1"
  = Some [("userId", JStr "u1"); ("email", JStr "a@b.com")]
  ∧ table (snd (handler User (mkEvent "POST" None None) one_user)) !! "u1"
    = Some [("userId", JStr "u1"); ("email", JStr "a@b.com")].
Proof.
  apply (create_never_overwrites User
           (JObj [("userId", JStr "u1"); ("email", JStr "new@b.com")])
           None None "u1" [("userId", JStr "u1"); ("email", JStr "a@b.com")]
           one_user).
  - repeat constructor.
  - reflexivity.
  - exists (JStr "u1"). reflexivity.
Defined.

(** X2. Reads never write: as long as no other client writes, a [GET]
    request to either handler (record, download reference, or no
    identifier at all) leaves the table as it is, whichever store calls
    fail and however often the read is retried. *)
Theorem reads_leave_table (r : Resource) (e : Event) (w : World) :
  httpMethod e = "GET" -> calm w ->
  table (snd (handler r e w)) = table w.
Proof.
  intros Hm Hcalm.
  assert (Hh : preserves (keeps (fun t => t = table w)) (handler r e)).
  { destruct r; cbn [handler]; unfold Users.handler, Assets.handler,
      Users.dispatch, Assets.dispatch; rewrite Hm;
      cbn [String.eqb Ascii.eqb Bool.eqb];
      (apply preserves_bind; [apply parse_body_frame|intros body']);
      repeat first [frame_step | apply getUser_frame | apply getAsset_frame
                   | apply getDownloadUrl_frame]. }
  apply (Hh w). split; [exact Hcalm|reflexivity].
Qed.

Lemma reads_leave_table_witness :
  table (snd (handler User (mkEvent "GET" (Some {[ "id" := "u1" ]}) None)
                one_user))
  = table one_user.
Proof.
  apply (reads_leave_table User (mkEvent "GET" (Some {[ "id" := "u1" ]}) None)
           one_user).
  - reflexivity.
  - repeat constructor.
Defined.

(** X3. An update and a delete touch their own record only: as long as no
    other client writes, [PUT /users/{id}] and [DELETE /users/{id}] leave
    every other identifier as it is, stored or not, whatever the body
    (a [userId] in the body included) and whichever store calls fail. *)
Theorem update_delete_touch_own_record (e : Event) (k : string)
    (x : option Item) (w : World) :
  httpMethod e = "PUT" ∨ httpMethod e = "DELETE" ->
  path_param e "id" ≠ Some k -> calm w -> table w !! k = x ->
  table (snd (handler User e w)) !! k = x.
Proof.
  intros Hm Hid Hcalm Hk.
  assert (Hh : preserves (keeps (fun t => t !! k = x)) (handler User e)).
  { cbn [handler]. unfold Users.handler, Users.dispatch.
    apply preserves_bind; [apply parse_body_frame|intros body'].
    destruct (given (path_param e "id")) as [id|] eqn:Hgiven.
    - apply given_Some in Hgiven.
      assert (k ≠ id) by congruence.
      destruct Hm as [-> | ->]; cbn [String.eqb Ascii.eqb Bool.eqb];
        repeat first [frame_step | apply updateUser_frame; assumption
                     | apply deleteUser_frame; assumption].
    - destruct Hm as [-> | ->]; cbn [String.eqb Ascii.eqb Bool.eqb];
        repeat frame_step. }
  apply (Hh w). split; assumption.
Qed.

Lemma update_delete_touch_own_record_witness :
  table (snd (handler User
                (mkEvent "PUT" (Some {[ "id" := "u2" ]})
                   (Some (Json (JObj [("userId", JStr "u1"); ("name", JStr "x")]))))
                one_user)) !! "u1"
  = Some [("userId", JStr "u1"); ("email", JStr "a@b.com")].
Proof.
  apply (update_delete_touch_own_record
           (mkEvent "PUT" (Some {[ "id" := "u2" ]})
              (Some (Json (JObj [("userId", JStr "u1"); ("name", JStr "x")]))))
           "u1" (Some [("userId", JStr "u1"); ("email", JStr "a@b.com")])
           one_user).
  - left. reflexivity.
  - discriminate.
  - repeat constructor.
  - reflexivity.
Defined.

End FrameFacts.

(** ** Routing and the statuses answered *)

Module Routing.
Import JS Runtime RuntimeFacts Api.

(** [m] answers only responses in [Q], when it returns. *)
Definition answers {A} (Q : A -> Prop) (m : M A) : Prop :=
  forall w a w', m w = (inr a, w') -> Q a.

Section Combinators.
Context {A B : Type}.

Lemma answers_ret (Q : A -> Prop) (a : A) : Q a -> answers Q (ret a).
Proof. intros H w a' w' [= <- _]. exact H. Qed.

Lemma answers_throw (Q : A -> Prop) (e : Error) : answers Q (throw e).
Proof. intros w a w' [=]. Qed.

Lemma answers_bind (Q : B -> Prop) (m : M A) (k : A -> M B) :
  (forall a, answers Q (k a)) -> answers Q (bind m k).
Proof.
  intros Hk w b w'. unfold bind.
  destruct (m w) as [[e|a] w1]; [discriminate|]. apply Hk.
Qed.

Lemma answers_try_catch (Q : A -> Prop) (m : M A) (handle : Error -> M A) :
  answers Q m -> (forall e, answers Q (handle e)) -> answers Q (try_catch m handle).
Proof.
  intros Hm Hh w a w'. unfold try_catch.
  destruct (m w) as [[e|a1] w1] eqn:E.
  - apply Hh.
  - intros [= <- _]. exact (Hm _ _ _ E).
Qed.

End Combinators.

Definition status_in (codes : list Z) (r : Response) : Prop :=
  statusCode r ∈ codes.

Definition option_status_in (codes : list Z) (r : option Response) : Prop :=
  match r with
  | Some r => status_in codes r
  | None => True
  end.

Ltac answers_step :=
  match goal with
  | |- answers _ (bind _ _) => apply answers_bind; intros ?
  | |- answers _ (try_catch _ _) => apply answers_try_catch; [|intros ?]
  | |- answers _ (throw _) => apply answers_throw
  | |- answers _ (ret _) =>
      apply answers_ret; cbv [status_in option_status_in statusCode
        error_response json_response Users.already_exists Assets.already_exists
        Users.method_not_allowed Assets.method_not_allowed
        Users.internal_server_error Assets.internal_server_error
        Users.getUser_fallback];
      first [exact I | apply list_elem_of_In; simpl; tauto]
  | |- answers _ (match ?x with _ => _ end) => destruct x
  | |- answers _ (if ?b then _ else _) => destruct b
  end.

Lemma getUser_loop_answers (n : nat) (attempt : Z) (userId : string) :
  answers (option_status_in [200; 404]) (Users.getUser_loop n attempt userId).
Proof.
  revert attempt. induction n as [|n IH]; intros attempt; cbn [Users.getUser_loop].
  - answers_step.
  - repeat answers_step. apply IH.
Qed.

Lemma getUser_answers (userId : string) :
  answers (status_in [200; 404]) (Users.getUser userId).
Proof.
  unfold Users.getUser. intros w r w'. unfold bind.
  destruct (Users.getUser_loop (Z.to_nat Users.retries) 0 userId w)
    as [[e|[r1|]] w1] eqn:E; [discriminate| |].
  - intros [= <- _]. exact (getUser_loop_answers _ _ _ _ _ _ E).
  - exfalso. apply (Retry.getUser_loop_returns (Z.to_nat Users.retries) 0 userId w);
      [reflexivity|unfold Users.retries; simpl; lia|rewrite E; reflexivity].
Qed.

Lemma create_answers (r : Resource) (body : json) :
  answers (status_in [200; 201; 400]) (create r body).
Proof.
  destruct r; cbn [create];
    unfold Users.createUser, Assets.uploadAsset, Users.optional_field.
  - repeat answers_step.
  - repeat answers_step.
    intros w0. cbv beta zeta.
    refine (answers_bind _ _ _ _ w0). intros _. repeat answers_step.
Qed.

Lemma answers_bind_post {A B} (P : A -> Prop) (Q : B -> Prop) (m : M A)
    (k : A -> M B) :
  answers P m -> (forall a, P a -> answers Q (k a)) -> answers Q (bind m k).
Proof.
  intros Hm Hk w b w'. unfold bind.
  destruct (m w) as [[e|a] w1] eqn:E; [discriminate|].
  apply Hk. exact (Hm _ _ _ E).
Qed.

Lemma updateUser_answers (userId : string) (body : json) :
  answers (status_in [200; 404]) (Users.updateUser userId body).
Proof. unfold Users.updateUser. repeat answers_step. Qed.

Lemma deleteUser_answers (userId : string) :
  answers (status_in [200]) (Users.deleteUser userId).
Proof. unfold Users.deleteUser. repeat answers_step. Qed.

Lemma getAsset_answers (assetId : string) :
  answers (status_in [200; 404]) (Assets.getAsset assetId).
Proof. unfold Assets.getAsset. repeat answers_step. Qed.

Lemma getDownloadUrl_answers (assetId : string) :
  answers (status_in [200; 404]) (Assets.getDownloadUrl assetId).
Proof. unfold Assets.getDownloadUrl. repeat answers_step. Qed.

(** The statuses a handler can answer, by method. *)
Definition handler_codes (r : Resource) (method : string) : list Z :=
  match r with
  | User =>
      if String.eqb method "GET" then [200; 404; 405; 500]
      else if String.eqb method "POST" then [200; 201; 400; 500]
      else if String.eqb method "PUT" then [200; 404; 405; 500]
      else if String.eqb method "DELETE" then [200; 405; 500]
      else [405]
  | Asset =>
      if String.eqb method "POST" then [200; 201; 400; 500]
      else if String.eqb method "GET" then [200; 404; 405; 500]
      else [405]
  end.

(** What the switch hands to the code after it: a response, or nothing
    when a case breaks or none matches, which becomes the 405. *)
Definition routed (codes : list Z) (r : option Response) : Prop :=
  match r with
  | Some r => status_in codes r
  | None => 405 ∈ codes
  end.

Lemma case_answers (codes all : list Z) (op : M Response) :
  answers (status_in codes) op -> codes ⊆ all ->
  answers (routed all) (let* r := op in ret (Some r)).
Proof.
  intros Hop Hsub. eapply answers_bind_post; [exact Hop|].
  intros r Hr. apply answers_ret. cbn. exact (Hsub _ Hr).
Qed.

(** The handler around its switch. *)
Lemma around_switch (codes : list Z) (b : option BodyText)
    (switch : json -> M (option Response)) :
  500 ∈ codes ->
  (forall body, answers (routed codes) (switch body)) ->
  answers (status_in codes)
    (let* body := parse_body b in
     try_catch
       (let* r := switch body in
        match r with
        | Some response => ret response
        | None => ret (error_response 405 "Method not allowed")
        end)
       (fun error => ret (error_response 500 "Internal server error"))).
Proof.
  intros H500 Hswitch. apply answers_bind. intros body.
  apply answers_try_catch; [|intros e; apply answers_ret; exact H500].
  eapply answers_bind_post; [apply Hswitch|].
  intros [r|] Hr; apply answers_ret; exact Hr.
Qed.

Ltac in_codes :=
  match goal with
  | |- _ ⊆ _ =>
      let x := fresh in let Hx := fresh in
      intros x Hx; apply list_elem_of_In in Hx; apply list_elem_of_In;
      simpl in *; tauto
  | |- _ => unfold routed, status_in; apply list_elem_of_In; simpl; tauto
  end.

Lemma users_switch_answers (method : string) (userId : option string)
    (body : json) :
  (String.eqb method "GET" || String.eqb method "POST"
   || String.eqb method "PUT" || String.eqb method "DELETE") = true ->
  answers (routed (handler_codes User method))
    (Users.dispatch method userId body).
Proof.
  unfold Users.dispatch, handler_codes.
  destruct (String.eqb method "GET");
    [|destruct (String.eqb method "POST");
      [|destruct (String.eqb method "PUT");
        [|destruct (String.eqb method "DELETE"); [|discriminate]]]];
    intros _;
    repeat match goal with
    | |- context [match given ?u with _ => _ end] => destruct (given u)
    end;
    try (apply answers_ret; in_codes).
  - eapply case_answers; [apply getUser_answers|in_codes].
  - eapply case_answers; [apply (create_answers User)|in_codes].
  - eapply case_answers; [apply updateUser_answers|in_codes].
  - eapply case_answers; [apply deleteUser_answers|in_codes].
Qed.

Lemma assets_switch_answers (method : string) (assetId : option string)
    (action : string) (body : json) :
  (String.eqb method "POST" || String.eqb method "GET") = true ->
  answers (routed (handler_codes Asset method))
    (Assets.dispatch method assetId action body).
Proof.
  unfold Assets.dispatch, handler_codes.
  destruct (String.eqb method "POST");
    [|destruct (String.eqb method "GET"); [|discriminate]];
    intros _;
    repeat match goal with
    | |- context [match given ?u with _ => _ end] => destruct (given u)
    end;
    try (apply answers_ret; in_codes).
  - eapply case_answers; [apply (create_answers Asset)|in_codes].
  - destruct (String.eqb action "download");
      (eapply case_answers;
       [first [apply getDownloadUrl_answers|apply getAsset_answers]|in_codes]).
Qed.

(** A method the switch has no case for: 405, and nothing else happens. *)
Lemma no_case (r : Resource) (method : string)
    (ps : option (gmap string string)) (b : option json) (w : World) :
  match r with
  | User =>
      (String.eqb method "GET" || String.eqb method "POST"
       || String.eqb method "PUT" || String.eqb method "DELETE") = false
  | Asset => (String.eqb method "POST" || String.eqb method "GET") = false
  end ->
  handler r (mkEvent method ps (option_map Json b)) w =
  (inr (error_response 405 "Method not allowed"), w).
Proof.
  destruct r; cbn [handler]; unfold Users.handler, Assets.handler,
    Users.dispatch, Assets.dispatch; cbn [httpMethod body].
  - destruct (String.eqb method "GET"); [discriminate|].
    destruct (String.eqb method "POST"); [discriminate|].
    destruct (String.eqb method "PUT"); [discriminate|].
    destruct (String.eqb method "DELETE"); [discriminate|].
    intros _. destruct b; reflexivity.
  - destruct (String.eqb method "POST"); [discriminate|].
    destruct (String.eqb method "GET"); [discriminate|].
    intros _. destruct b; reflexivity.
Qed.

(** X4. With a body that is absent or is JSON text, either handler always
    answers, and only with the statuses of its method: for users
    200/404/405/500 on GET and PUT, 200/201/400/500 on POST, 200/405/500
    on DELETE; for assets 200/201/400/500 on POST and 200/404/405/500 on
    GET; 405 alone on every other method. *)
Theorem handler_statuses (r : Resource) (method : string)
    (ps : option (gmap string string)) (b : option json) (w : World) :
  exists (response : Response) (w' : World),
    handler r (mkEvent method ps (option_map Json b)) w = (inr response, w')
    ∧ statusCode response ∈ handler_codes r method.
Proof.
  destruct (Boundary.handler_converts r method ps b w) as (response & w' & E).
  exists response, w'. split; [exact E|].
  destruct (match r with
            | User =>
                String.eqb method "GET" || String.eqb method "POST"
                || String.eqb method "PUT" || String.eqb method "DELETE"
            | Asset => String.eqb method "POST" || String.eqb method "GET"
            end) eqn:Hcase.
  - assert (H : answers (status_in (handler_codes r method))
                  (handler r (mkEvent method ps (option_map Json b)))).
    { destruct r; cbn [handler]; unfold Users.handler, Assets.handler;
        apply around_switch;
        try (intros body; first [apply users_switch_answers
                                |apply assets_switch_answers]; exact Hcase);
        unfold handler_codes; cbn [httpMethod];
        repeat match goal with
        | |- context [String.eqb method ?m] => destruct (String.eqb method m)
        end; try discriminate; in_codes. }
    exact (H _ _ _ E).
  - rewrite (no_case r method ps b w) in E by (destruct r; exact Hcase).
    injection E as <- _.
    unfold handler_codes. destruct r;
      repeat match goal with
      | |- context [String.eqb method ?m] => destruct (String.eqb method m)
      end; try discriminate; in_codes.
Qed.

(** X5. Without an identifier in the path only [POST] is served: any other
    request to either handler whose path has no [id], or an empty one, is
    answered 405 [{"error": "Method not allowed"}] without a store call. *)
Theorem no_identifier_405 (r : Resource) (e : Event) (b : option json)
    (w : World) :
  httpMethod e ≠ "POST" -> given (path_param e "id") = None ->
  body e = option_map Json b ->
  handler r e w = (inr (error_response 405 "Method not allowed"), w).
Proof.
  intros Hm Hid Hb.
  destruct r; cbn [handler]; unfold Users.handler, Assets.handler,
    Users.dispatch, Assets.dispatch; rewrite Hb, Hid;
    destruct (String.eqb_spec (httpMethod e) "POST") as [E|_];
    try contradiction;
    repeat match goal with
    | |- context [String.eqb (httpMethod e) ?m] =>
        destruct (String.eqb (httpMethod e) m)
    end; destruct b; reflexivity.
Qed.

Lemma no_identifier_405_witness :
  handler User (mkEvent "DELETE" (Some {[ "id" := "" ]}) None)
    (Creation.users_world ∅ [])
  = (inr (error_response 405 "Method not allowed"), Creation.users_world ∅ []).
Proof.
  apply (no_identifier_405 User (mkEvent "DELETE" (Some {[ "id" := "" ]}) None)
           None (Creation.users_world ∅ [])).
  - discriminate.
  - reflexivity.
  - reflexivity.
Defined.

(** X6. A create body that is not an object: for [null] the first
    property read throws and the handler answers 500; for a number, a
    string, a boolean or an array every property is undefined and the
    answer is the 400 of a missing field; so it is for a request without
    a body or with an empty one, which stands for [{}].  No store call is
    made in any of these cases. *)
Theorem create_without_object (r : Resource) (body : json)
    (ps : option (gmap string string)) (w : World) :
  let bad_request := error_response 400 (required_message r) in
  match body with
  | JObj _ => True
  | JNull =>
      create r body w = (inl TypeError, w)
      ∧ handler r (mkEvent "POST" ps (Some (Json body))) w
        = (inr (error_response 500 "Internal server error"), w)
  | _ =>
      create r body w = (inr bad_request, w)
      ∧ handler r (mkEvent "POST" ps (Some (Json body))) w = (inr bad_request, w)
  end
  ∧ handler r (mkEvent "POST" ps None) w = (inr bad_request, w)
  ∧ handler r (mkEvent "POST" ps (Some (NotJson ""))) w = (inr bad_request, w).
Proof.
  destruct r, body; repeat split; reflexivity.
Qed.

End Routing.

(** ** How much a read costs, and how failures are answered *)

Module Effort.
Import JS Runtime RuntimeFacts Api.

Definition total (delays : list Z) : Z := foldr Z.add 0 delays.

(** X7. Whatever the store does, [getUser] sends between one and three
    point-reads and nothing else, and between them waits 100 ms and then
    200 ms: after [n + 1] reads it has slept the first [n] of these delays,
    300 ms at most. *)
Theorem getUser_effort (userId : string) (w : World) :
  exists n : nat,
    (n <= 2)%nat
    ∧ sent (snd (Users.getUser userId w))
      = (sent w ++ replicate (S n) (Retry.read userId))%list
    ∧ slept (snd (Users.getUser userId w)) = (slept w ++ take n [100; 200])%list
    ∧ clock (snd (Users.getUser userId w)) = clock w + total (take n [100; 200]).
Proof.
  unfold Users.getUser, bind. change (Z.to_nat Users.retries) with 3%nat.
  rewrite Retry.getUser_loop_step.
  destruct (get_result (Users.Key (JStr userId)) w) as [e1|r1].
  - change (0 <? Users.retries - 1) with true. cbv iota.
    rewrite Retry.getUser_loop_step.
    match goal with
    | |- context [get_result ?k ?w1] => destruct (get_result k w1) as [e2|r2]
    end.
    + change (0 + 1 <? Users.retries - 1) with true. cbv iota.
      rewrite Retry.getUser_loop_step.
      match goal with
      | |- context [get_result ?k ?w2] => destruct (get_result k w2) as [e3|r3]
      end.
      * change (0 + 1 + 1 <? Users.retries - 1) with false. cbv iota.
        exists 2%nat. cbn. rewrite <- !app_assoc.
        repeat split; first [reflexivity | unfold Users.backoff; lia].
      * exists 2%nat. cbn. rewrite <- !app_assoc.
        repeat split; first [reflexivity | unfold Users.backoff; lia].
    + exists 1%nat. cbn. rewrite <- !app_assoc.
      repeat split; first [reflexivity | unfold Users.backoff; lia].
  - exists 0%nat. cbn. rewrite app_nil_r.
    repeat split; first [reflexivity | lia].
Qed.

(** X8. With the store failing on three calls in a row, [GET /users/{id}]
    is answered [500 {"error": "Internal server error"}] after three reads
    and 300 ms of waiting; the body is the same whatever the errors were. *)
Theorem store_down_is_500 (userId : string) (ps : gmap string string)
    (w : World) (b1 b2 b3 : list EnvOp) (e1 e2 e3 : Error) (rest : list Turn) :
  userId ≠ "" -> ps !! "id" = Some userId ->
  schedule w =
    mkTurn b1 (Some e1) :: mkTurn b2 (Some e2) :: mkTurn b3 (Some e3) :: rest ->
  Users.handler (mkEvent "GET" (Some ps) None) w =
  (inr (error_response 500 "Internal server error"),
   mkWorld (config w) (run_env (b1 ++ b2 ++ b3) (table w)) rest
     (clock w + 300) (slept w ++ [100; 200])
     (sent w ++ replicate 3 (Retry.read userId))).
Proof.
  intros Hne Hid Hs.
  rewrite (Retry.handler_GET userId) by assumption.
  erewrite Retry.getUser_loop_throws; [reflexivity|].
  change (Z.to_nat Users.retries) with 3%nat.
  erewrite Retry.getUser_loop_retry by (try eassumption; reflexivity).
  erewrite Retry.getUser_loop_retry by reflexivity.
  erewrite Retry.getUser_loop_last by reflexivity.
  cbn [config table clock slept sent replicate].
  rewrite !run_env_app, <- !app_assoc.
  f_equal; f_equal; first [reflexivity | unfold Users.backoff; lia].
Qed.

Lemma store_down_is_500_witness :
  Users.handler (mkEvent "GET" (Some {[ "id" := "u1" ]}) None) Retry.store_down
  = (inr (error_response 500 "Internal server error"),
     mkWorld (config Retry.store_down)
       (run_env ([] ++ [] ++ []) (table Retry.store_down)) []
       (clock Retry.store_down + 300) (slept Retry.store_down ++ [100; 200])
       (sent Retry.store_down ++ replicate 3 (Retry.read "u1"))).
Proof.
  apply (store_down_is_500 "u1" {[ "id" := "u1" ]} Retry.store_down [] [] []
           (mkError "ThrottlingException") (mkError "ThrottlingException")
           (mkError "ThrottlingException") []).
  - discriminate.
  - reflexivity.
  - reflexivity.
Defined.

(** X9. Only [getUser] retries.  When the first store call of an update,
    of a delete, of [getAsset] or of [getDownloadUrl] fails, whatever the
    error, the operation throws that error after this one call, without a
    wait and with the table untouched; so does a create with a valid body,
    unless the error is named ConditionalCheckFailedException, which makes
    it read again. *)
Theorem others_do_not_retry (r : Resource) (fs : Item) (id : string)
    (v body : json) (err : Error) (w : World) :
  valid r fs id v -> fault (next_turn w) = Some err ->
  let failed (cmd : Command) := (@inl Error Response err, after_call cmd (seen w) w) in
  (name err ≠ "ConditionalCheckFailedException" ->
   create r (JObj fs) w = failed (read r id))
  ∧ Users.updateUser id body w = failed (GetCommand (Users.Key (JStr id)))
  ∧ Users.deleteUser id w = failed (DeleteCommand (Users.Key (JStr id)))
  ∧ Assets.getAsset id w = failed (GetCommand (Assets.Key (JStr id)))
  ∧ Assets.getDownloadUrl id w = failed (GetCommand (Assets.Key (JStr id)))
  ∧ slept (after_call (read r id) (seen w) w) = slept w.
Proof.
  intros Hv Hf failed. subst failed.
  assert (Hget : forall Key, get_result Key w = inl err)
    by (intros Key; unfold get_result; rewrite Hf; reflexivity).
  split; [|split; [|split; [|split; [|split]]]].
  - intros Hname.
    assert (Hneq : String.eqb (name err) "ConditionalCheckFailedException" = false)
      by (destruct (String.eqb_spec (name err) "ConditionalCheckFailedException");
          [contradiction|reflexivity]).
    destruct r; cbn [create].
    + rewrite (CreateUser.createUser_enter _ _ _ _ (valid_user _ _ _ Hv)).
      unfold try_catch, bind. rewrite send_get_eq by reflexivity.
      rewrite Hget, Hneq. reflexivity.
    + rewrite (CreateAsset.uploadAsset_enter _ _ _ _ (valid_asset _ _ _ Hv)).
      unfold try_catch, bind. rewrite send_get_eq by reflexivity.
      rewrite Hget, Hneq. reflexivity.
  - unfold Users.updateUser, try_catch, bind. rewrite send_get_eq by reflexivity.
    rewrite Hget. reflexivity.
  - unfold Users.deleteUser, try_catch, bind, send_delete, send.
    change (marshals (DeleteCommand (Users.Key (JStr id)))) with true.
    cbv iota. rewrite Hf. reflexivity.
  - rewrite Reads.getAsset_step, Hget. reflexivity.
  - unfold Assets.getDownloadUrl, try_catch, bind. rewrite send_get_eq by reflexivity.
    rewrite Hget. reflexivity.
  - reflexivity.
Qed.

(** The first store call is refused with the error that, in a create,
    starts the second read. *)
Definition conflict_first : World :=
  Creation.assets_world ∅ [mkTurn [] (Some ConditionalCheckFailedException)].

Lemma others_do_not_retry_witness :
  let w := conflict_first in
  let err := ConditionalCheckFailedException in
  let failed (cmd : Command) := (@inl Error Response err, after_call cmd (seen w) w) in
  Users.updateUser "a1" (JObj []) w = failed (GetCommand (Users.Key (JStr "a1")))
  ∧ Users.deleteUser "a1" w = failed (DeleteCommand (Users.Key (JStr "a1")))
  ∧ Assets.getAsset "a1" w = failed (GetCommand (Assets.Key (JStr "a1")))
  ∧ Assets.getDownloadUrl "a1" w = failed (GetCommand (Assets.Key (JStr "a1")))
  ∧ slept (after_call (read Asset "a1") (seen w) w) = slept w.
Proof.
  apply (others_do_not_retry Asset Creation.a1_body "a1" (JStr "f.txt")
           (JObj []) ConditionalCheckFailedException conflict_first).
  - exact Creation.a1_valid.
  - reflexivity.
Defined.

End Effort.

(** ** Partial update, field by field *)

Module UpdateFields.
Import JS Runtime RuntimeFacts Users.

Lemma paths_overlap_NoDup (attrs : list string) :
  NoDup attrs -> paths_overlap attrs = false.
Proof.
  induction 1 as [|a rest Hnot _ IH]; [reflexivity|].
  cbn [paths_overlap]. rewrite IH, orb_false_r.
  apply not_true_is_false. intros Hex.
  apply existsb_exists in Hex as (a' & Hin & Heq).
  apply String.eqb_eq in Heq as <-. apply Hnot, list_elem_of_In, Hin.
Qed.

Lemma existsb_absent (a : string) (attrs : list string) :
  a ∉ attrs -> existsb (String.eqb a) attrs = false.
Proof.
  intros Hnot. apply not_true_is_false. intros Hex.
  apply existsb_exists in Hex as (a' & Hin & Heq).
  apply String.eqb_eq in Heq as <-. apply Hnot, list_elem_of_In, Hin.
Qed.

(** The attributes an update sets: [updatedAt], then the keys of the body
    in their order, without [userId]. *)
Definition set_attrs (entries : list (string * json)) : list string :=
  "updatedAt" :: filter (fun k => k ≠ "userId") (map fst entries).

Lemma foldl_update_attrs (entries : list (string * json))
    (acc : list (string * string) * Item) :
  map fst (fst (foldl update_step acc entries))
  = (map fst (fst acc) ++ filter (fun k => k ≠ "userId") (map fst entries))%list.
Proof.
  revert acc. induction entries as [|[key value] entries IH];
    intros [clauses values]; cbn [foldl map fst].
  - rewrite app_nil_r. reflexivity.
  - rewrite IH. unfold update_step. rewrite filter_cons.
    destruct (String.eqb_spec key "userId") as [->|Hne]; cbn [negb fst].
    + destruct (decide ("userId" ≠ "userId")); [contradiction|reflexivity].
    + destruct (decide (key ≠ "userId")); [|contradiction].
      rewrite map_app, <- app_assoc. reflexivity.
Qed.

Lemma update_clauses_attrs (now : Z) (entries : list (string * json)) :
  map fst (fst (update_clauses now entries)) = set_attrs entries.
Proof. unfold update_clauses. rewrite foldl_update_attrs. reflexivity. Qed.

(** Every clause reads the placeholder named after its attribute. *)
Lemma foldl_update_placeholders (entries : list (string * json))
    (acc : list (string * string) * Item) :
  Forall (fun c => snd c = ":" +:+ fst c) (fst acc) ->
  Forall (fun c => snd c = ":" +:+ fst c) (fst (foldl update_step acc entries)).
Proof.
  revert acc. induction entries as [|[key value] entries IH];
    intros [clauses values] Hacc; cbn [foldl]; [exact Hacc|].
  apply IH. unfold update_step.
  destruct (negb (String.eqb key "userId")); cbn [fst] in *; [|exact Hacc].
  apply Forall_app. split; [exact Hacc|]. repeat constructor.
Qed.

Lemma foldl_update_other (p : string) (x : option json)
    (entries : list (string * json)) (acc : list (string * string) * Item) :
  (forall k, k ∈ map fst entries -> ":" +:+ k ≠ p) ->
  assoc p (snd acc) = x ->
  assoc p (snd (foldl update_step acc entries)) = x.
Proof.
  revert acc. induction entries as [|[key value] entries IH];
    intros [clauses values] Hnot Hacc; cbn [foldl]; [exact Hacc|].
  apply IH.
  - intros k Hk. apply Hnot. cbn [map fst]. apply list_elem_of_further, Hk.
  - unfold update_step.
    destruct (negb (String.eqb key "userId")); cbn [snd] in *; [|exact Hacc].
    rewrite assoc_obj_set_ne; [exact Hacc|].
    intros Heq. apply (Hnot key); [cbn [map fst]; apply list_elem_of_here|].
    symmetry. exact Heq.
Qed.

Lemma placeholder_inj (k k' : string) : ":" +:+ k = ":" +:+ k' -> k = k'.
Proof. intros Heq. injection Heq as Heq. exact Heq. Qed.

(** The value sent for the placeholder of a field is the value of the
    field in the body. *)
Lemma foldl_update_value (entries : list (string * json))
    (acc : list (string * string) * Item) (k : string) (v : json) :
  NoDup (map fst entries) -> (k, v) ∈ entries -> k ≠ "userId" ->
  assoc (":" +:+ k) (snd (foldl update_step acc entries)) = Some v.
Proof.
  revert acc. induction entries as [|[key value] entries IH];
    intros [clauses values] Hnd Hin Hne; [inversion Hin|].
  cbn [map fst] in Hnd. apply NoDup_cons in Hnd as [Hfresh Hnd].
  cbn [foldl]. apply elem_of_cons in Hin as [[= <- <-]|Hin].
  - apply foldl_update_other.
    + intros k' Hk' Heq. apply placeholder_inj in Heq as ->. contradiction.
    + unfold update_step.
      destruct (String.eqb_spec k "userId"); [contradiction|]. cbn [negb snd].
      apply assoc_obj_set_eq.
  - apply IH; assumption.
Qed.

(** What the store makes of the clauses. *)
Lemma apply_sets_lookup (clauses : list (string * string)) (values item : Item) :
  NoDup (map fst clauses) ->
  Forall (fun c => is_Some (assoc (snd c) values)) clauses ->
  exists new : Item,
    apply_sets clauses values item = Some new
    ∧ (forall a p, (a, p) ∈ clauses -> assoc a new = assoc p values)
    ∧ (forall a, a ∉ map fst clauses -> assoc a new = assoc a item).
Proof.
  revert item. induction clauses as [|[a p] clauses IH]; intros item Hnd Hall.
  - exists item. split; [reflexivity|]. split; [intros a p Hin; inversion Hin|].
    reflexivity.
  - cbn [map fst] in Hnd. apply NoDup_cons in Hnd as [Hfresh Hnd].
    apply Forall_cons in Hall as [[v Hv] Hall]. cbn [snd] in Hv.
    destruct (IH (obj_set a v item) Hnd Hall) as (new & Hnew & Hset & Hrest).
    exists new. cbn [apply_sets]. rewrite Hv. split; [exact Hnew|]. split.
    + intros a' p' Hin. apply elem_of_cons in Hin as [[= -> ->]|Hin].
      * rewrite (Hrest a Hfresh), assoc_obj_set_eq, Hv. reflexivity.
      * apply Hset, Hin.
    + intros a' Hnot. cbn [map fst] in Hnot.
      apply not_elem_of_cons in Hnot as [Hne Hnot].
      rewrite (Hrest a' Hnot). apply assoc_obj_set_ne. exact Hne.
Qed.

Lemma set_attrs_NoDup (entries : list (string * json)) :
  NoDup (map fst entries) -> "updatedAt" ∉ map fst entries ->
  NoDup (set_attrs entries).
Proof.
  intros Hnd Hnot. unfold set_attrs. apply NoDup_cons. split.
  - intros Hin. apply list_elem_of_filter in Hin as [_ Hin]. contradiction.
  - apply NoDup_filter, Hnd.
Qed.

Lemma userId_not_set (entries : list (string * json)) :
  "userId" ∉ set_attrs entries.
Proof.
  unfold set_attrs. intros Hin. apply elem_of_cons in Hin as [Heq|Hin];
    [discriminate|].
  apply list_elem_of_filter in Hin as [Hne _]. contradiction.
Qed.

Lemma clause_of_attr (now : Z) (entries : list (string * json)) (a : string) :
  a ∈ set_attrs entries -> (a, ":" +:+ a) ∈ fst (update_clauses now entries).
Proof.
  rewrite <- (update_clauses_attrs now). intros Hin.
  apply list_elem_of_fmap in Hin as ([a' p] & -> & Hin). cbn [fst].
  assert (Hp : Forall (fun c => snd c = ":" +:+ fst c)
                 (fst (update_clauses now entries))).
  { apply foldl_update_placeholders. repeat constructor. }
  rewrite Forall_forall in Hp. specialize (Hp _ Hin). cbn [fst snd] in Hp.
  subst p. exact Hin.
Qed.

Lemma value_of_attr (now : Z) (entries : list (string * json)) (a : string) :
  NoDup (map fst entries) -> "updatedAt" ∉ map fst entries ->
  a ∈ set_attrs entries ->
  is_Some (assoc (":" +:+ a) (snd (update_clauses now entries))).
Proof.
  intros Hnd Hnot Hin. unfold set_attrs in Hin.
  apply elem_of_cons in Hin as [->|Hin].
  - exists (JNum now). apply Update.update_sets_now, Hnot.
  - apply list_elem_of_filter in Hin as [Hne Hin].
    apply list_elem_of_fmap in Hin as ([k v] & -> & Hin). cbn [fst] in *.
    exists v. apply foldl_update_value; assumption.
Qed.

(** The record an update builds on: the stored one, or the bare key when
    there is none. *)
Definition base (userId : string) (stored : option Item) : Item :=
  default (Key (JStr userId)) stored.

(** The document client can marshall the values of an update when it can
    marshall the body, and the time is a time. *)
Lemma foldl_update_marshallable (entries : list (string * json))
    (acc : list (string * string) * Item) :
  forallb marshallable (map snd (snd acc)) = true ->
  marshallable (JObj entries) = true ->
  forallb marshallable (map snd (snd (foldl update_step acc entries))) = true.
Proof.
  cbn [marshallable].
  revert acc. induction entries as [|[key value] entries IH];
    intros [clauses values] Hacc Hall; cbn [foldl]; [exact Hacc|].
  cbn [forallb snd] in Hall. apply andb_true_iff in Hall as [Hv Hall].
  apply IH; [|exact Hall]. unfold update_step.
  destruct (negb (String.eqb key "userId")); cbn [snd] in *; [|exact Hacc].
  apply marshallable_obj_set; assumption.
Qed.

Lemma update_marshals (userId : string) (entries : list (string * json))
    (w : World) :
  marshallable (JObj entries) = true -> clock_in_range w ->
  let sets := update_clauses (floor_seconds (clock w)) entries in
  marshals (UpdateCommand (Key (JStr userId)) (fst sets) (snd sets)) = true.
Proof.
  intros Hm Hc sets. unfold marshals, command_values, Key.
  cbn [map snd app forallb marshallable andb].
  apply foldl_update_marshallable; [|exact Hm].
  cbn [map snd forallb]. rewrite <- (Z.add_0_r (floor_seconds (clock w))).
  rewrite seconds_marshallable by first [exact Hc | lia]. reflexivity.
Qed.

(** An update whose pre-read finds a record and whose update call goes
    through.  [stored] is the record the update call finds. *)
Lemma updateUser_runs (userId : string) (entries : list (string * json))
    (old : Item) (w : World) :
  userId ≠ "" -> keyName (config w) = "userId" ->
  fault (next_turn w) = None -> seen w !! userId = Some old ->
  let w1 := after_call (GetCommand (Key (JStr userId))) (seen w) w in
  fault (next_turn w1) = None ->
  NoDup (map fst entries) -> "updatedAt" ∉ map fst entries ->
  forallb (bare_name (config w)) (set_attrs entries) = true ->
  marshallable (JObj entries) = true -> clock_in_range w ->
  let now := floor_seconds (clock w) in
  let sets := update_clauses now entries in
  exists new : Item,
    updateUser userId (JObj entries) w =
      (inr (json_response 200 (JObj new)),
       after_call (UpdateCommand (Key (JStr userId)) (fst sets) (snd sets))
         (<[userId := new]> (seen w1)) w1)
    ∧ assoc "updatedAt" new = Some (JNum now)
    ∧ (forall k v, (k, v) ∈ entries -> k ≠ "userId" -> assoc k new = Some v)
    ∧ (forall a, a ∉ set_attrs entries ->
         assoc a new = assoc a (base userId (seen w1 !! userId))).
Proof.
  intros Hne Hpk Hf Hfound w1 Hf1 Hnd Hnot Hbare Hm Hc now sets.
  pose proof (update_marshals userId entries w Hm Hc) as Hms.
  cbv zeta in Hms. fold now in Hms. fold sets in Hms.
  destruct (apply_sets_lookup (fst sets) (snd sets)
              (base userId (seen w1 !! userId)))
    as (new & Hnew & Hset & Hrest).
  { subst sets. rewrite update_clauses_attrs. apply set_attrs_NoDup; assumption. }
  { apply Forall_forall. intros [a p] Hin.
    assert (Ha : a ∈ set_attrs entries).
    { rewrite <- (update_clauses_attrs now). apply list_elem_of_fmap.
      exists (a, p). split; [reflexivity|exact Hin]. }
    assert (Hp : Forall (fun c => snd c = ":" +:+ fst c) (fst sets)).
    { apply foldl_update_placeholders. repeat constructor. }
    rewrite Forall_forall in Hp. specialize (Hp _ Hin). cbn [fst snd] in *.
    subst p. apply value_of_attr; assumption. }
  exists new. split; [|split; [|split]].
  - unfold updateUser, try_catch, bind at 1. rewrite send_get_eq by reflexivity.
    unfold Key at 1. rewrite (get_result_found "userId"), Hfound by assumption.
    fold w1. unfold bind, Date_now, lift, Object_entries, ret.
    change (clock w1) with (clock w). fold now. fold sets.
    destruct sets as [updateExpr exprAttr] eqn:Hsets. cbn [fst snd] in *.
    unfold send_update, send, exec_update. rewrite Hms, Hf1.
    change (config w1) with (config w). rewrite Hpk.
    unfold Key. rewrite key_of_string by assumption.
    assert (Hattrs : map fst updateExpr = set_attrs entries).
    { change updateExpr with (fst (updateExpr, exprAttr)). rewrite <- Hsets.
      apply update_clauses_attrs. }
    rewrite Hattrs, Hbare, paths_overlap_NoDup
      by (apply set_attrs_NoDup; assumption).
    rewrite existsb_absent by apply userId_not_set.
    cbn [orb negb]. unfold base, Key in Hnew. rewrite Hnew. reflexivity.
  - rewrite (Hset "updatedAt" ":updatedAt").
    + apply Update.update_sets_now, Hnot.
    + apply (clause_of_attr now entries "updatedAt"), list_elem_of_here.
  - intros k v Hin Hk.
    assert (Ha : k ∈ set_attrs entries).
    { unfold set_attrs. apply list_elem_of_further, list_elem_of_filter.
      split; [exact Hk|]. apply list_elem_of_fmap. exists (k, v).
      split; [reflexivity|exact Hin]. }
    rewrite (Hset k (":" +:+ k)) by (apply clause_of_attr, Ha).
    apply foldl_update_value; assumption.
  - intros a Ha. apply Hrest. subst sets. rewrite update_clauses_attrs. exact Ha.
Qed.

(** X10. [PUT /users/{id}] on a stored user, in a world without failures
    or other writers, with a body whose keys are distinct and do not
    include [updatedAt], whose attribute names (and [updatedAt]) are tokens
    that are no reserved words of the store, and whose values the document
    client can marshall: the answer is 200 with the new record, which is
    stored; in it [updatedAt] is the current time in seconds, every field
    of the body other than [userId] has the value given, [userId] and
    every attribute the body does not name are as before. *)
Theorem update_applies_fields (userId : string) (entries : list (string * json))
    (old : Item) (w : World) :
  userId ≠ "" -> keyName (config w) = "userId" -> schedule w = [] ->
  table w !! userId = Some old ->
  NoDup (map fst entries) -> "updatedAt" ∉ map fst entries ->
  forallb (bare_name (config w)) (set_attrs entries) = true ->
  marshallable (JObj entries) = true -> clock_in_range w ->
  exists (new : Item) (w' : World),
    updateUser userId (JObj entries) w = (inr (json_response 200 (JObj new)), w')
    ∧ table w' = <[userId := new]> (table w)
    ∧ assoc "updatedAt" new = Some (JNum (floor_seconds (clock w)))
    ∧ (forall k v, (k, v) ∈ entries -> k ≠ "userId" -> assoc k new = Some v)
    ∧ assoc "userId" new = assoc "userId" old
    ∧ (forall a, a ≠ "updatedAt" -> a ∉ map fst entries ->
         assoc a new = assoc a old).
Proof.
  intros Hne Hpk Hq Hold Hnd Hnot Hbare Hm Hc.
  pose (w1 := after_call (GetCommand (Key (JStr userId))) (seen w) w).
  assert (Hq1 : schedule w1 = []) by (apply Api.quiet_after_call; exact Hq).
  assert (Hseen : seen w = table w) by (apply seen_nil; exact Hq).
  assert (Hseen1 : seen w1 = table w) by (rewrite (seen_nil _ Hq1); exact Hseen).
  destruct (updateUser_runs userId entries old w) as (new & E & Hnow & Hset & Hrest);
    try assumption.
  { apply Api.quiet_fault; exact Hq. }
  { rewrite Hseen. exact Hold. }
  { apply Api.quiet_fault; exact Hq1. }
  fold w1 in E, Hrest. rewrite Hseen1, Hold in Hrest. cbn [base default] in Hrest.
  exists new. eexists. split; [exact E|].
  split; [cbn [table after_call]; rewrite Hseen1; reflexivity|].
  split; [exact Hnow|]. split; [exact Hset|]. split.
  - apply Hrest, userId_not_set.
  - intros a Ha Hkeys. apply Hrest. unfold set_attrs.
    intros Hin. apply elem_of_cons in Hin as [->|Hin]; [contradiction|].
    apply list_elem_of_filter in Hin as [_ Hin]. contradiction.
Qed.

Definition u1_stored : World :=
  Creation.users_world {[ "u1" := Update.u1_record ]} [].

Lemma update_applies_fields_witness :
  exists (new : Item) (w' : World),
    updateUser "u1" (JObj [("department", JStr "X"); ("userId", JStr "u9")])
      u1_stored
    = (inr (json_response 200 (JObj new)), w')
    ∧ table w' = <[ "u1" := new ]> (table u1_stored)
    ∧ assoc "updatedAt" new = Some (JNum (floor_seconds (clock u1_stored)))
    ∧ (forall k v,
         (k, v) ∈ [("department", JStr "X"); ("userId", JStr "u9")] ->
         k ≠ "userId" -> assoc k new = Some v)
    ∧ assoc "userId" new = assoc "userId" Update.u1_record
    ∧ (forall a, a ≠ "updatedAt" ->
         a ∉ map fst [("department", JStr "X"); ("userId", JStr "u9")] ->
         assoc a new = assoc a Update.u1_record).
Proof.
  apply (update_applies_fields "u1"
           [("department", JStr "X"); ("userId", JStr "u9")]
           Update.u1_record u1_stored).
  - discriminate.
  - reflexivity.
  - reflexivity.
  - reflexivity.
  - apply NoDup_cons. split.
    + intros Hin. apply list_elem_of_singleton in Hin. discriminate Hin.
    + apply NoDup_singleton.
  - intros Hin. apply elem_of_cons in Hin as [Hin|Hin]; [discriminate Hin|].
    apply list_elem_of_singleton in Hin. discriminate Hin.
  - reflexivity.
  - reflexivity.
  - split; discriminate.
Defined.

(** X11. The pre-read of an update does not guard the update itself: when
    the record is deleted by another client after the pre-read, the update
    (of a body with distinct keys other than [updatedAt], attribute names
    that are tokens and no reserved words of the store, and values the
    document client can marshall) still answers 200 and stores a new
    record under the identifier, made of [userId], [updatedAt] and the
    fields of the body only; what the deleted record held beyond that is
    gone. *)
Theorem update_recreates_deleted (userId : string)
    (entries : list (string * json)) (old : Item) (w : World)
    (ops : list EnvOp) (rest : list Turn) :
  userId ≠ "" -> keyName (config w) = "userId" ->
  schedule w = mkTurn [] None :: mkTurn ops None :: rest ->
  table w !! userId = Some old -> run_env ops (table w) !! userId = None ->
  NoDup (map fst entries) -> "updatedAt" ∉ map fst entries ->
  forallb (bare_name (config w)) (set_attrs entries) = true ->
  marshallable (JObj entries) = true -> clock_in_range w ->
  exists (new : Item) (w' : World),
    updateUser userId (JObj entries) w = (inr (json_response 200 (JObj new)), w')
    ∧ table w' !! userId = Some new
    ∧ assoc "userId" new = Some (JStr userId)
    ∧ assoc "updatedAt" new = Some (JNum (floor_seconds (clock w)))
    ∧ (forall k v, (k, v) ∈ entries -> k ≠ "userId" -> assoc k new = Some v)
    ∧ (forall a, a ≠ "userId" -> a ≠ "updatedAt" -> a ∉ map fst entries ->
         assoc a new = None).
Proof.
  intros Hne Hpk Hs Hold Hgone Hnd Hnot Hbare Hm Hc.
  pose (w1 := after_call (GetCommand (Key (JStr userId))) (seen w) w).
  assert (Hseen : seen w = table w)
    by (rewrite (seen_cons _ _ _ Hs); reflexivity).
  assert (Hs1 : schedule w1 = mkTurn ops None :: rest)
    by (unfold w1, after_call; cbn [schedule]; rewrite Hs; reflexivity).
  assert (Hseen1 : seen w1 = run_env ops (table w)).
  { rewrite (seen_cons _ _ _ Hs1). cbn [before table w1 after_call].
    rewrite Hseen. reflexivity. }
  destruct (updateUser_runs userId entries old w) as (new & E & Hnow & Hset & Hrest);
    try assumption.
  { rewrite (next_turn_cons _ _ _ Hs). reflexivity. }
  { rewrite Hseen. exact Hold. }
  { fold w1. rewrite (next_turn_cons _ _ _ Hs1). reflexivity. }
  fold w1 in E, Hrest. rewrite Hseen1, Hgone in Hrest.
  cbn [base default] in Hrest.
  exists new. eexists. split; [exact E|].
  split; [cbn [table after_call]; apply lookup_insert_eq|].
  split; [rewrite (Hrest "userId") by apply userId_not_set; reflexivity|].
  split; [exact Hnow|]. split; [exact Hset|].
  intros a Hid Ha Hkeys. rewrite (Hrest a).
  - unfold Key. cbn [assoc].
    destruct (String.eqb_spec a "userId"); [contradiction|reflexivity].
  - unfold set_attrs. intros Hin.
    apply elem_of_cons in Hin as [->|Hin]; [contradiction|].
    apply list_elem_of_filter in Hin as [_ Hin]. contradiction.
Qed.

Definition u1_deleted_meanwhile : World :=
  Creation.users_world {[ "u1" := Update.u1_record ]}
    [mkTurn [] None; mkTurn [EnvDelete "u1"] None].

Lemma update_recreates_deleted_witness :
  exists (new : Item) (w' : World),
    updateUser "u1" (JObj [("department", JStr "X")]) u1_deleted_meanwhile
    = (inr (json_response 200 (JObj new)), w')
    ∧ table w' !! "u1" = Some new
    ∧ assoc "userId" new = Some (JStr "u1")
    ∧ assoc "updatedAt" new
      = Some (JNum (floor_seconds (clock u1_deleted_meanwhile)))
    ∧ (forall k v, (k, v) ∈ [("department", JStr "X")] -> k ≠ "userId" ->
         assoc k new = Some v)
    ∧ (forall a, a ≠ "userId" -> a ≠ "updatedAt" ->
         a ∉ map fst [("department", JStr "X")] -> assoc a new = None).
Proof.
  apply (update_recreates_deleted "u1" [("department", JStr "X")]
           Update.u1_record u1_deleted_meanwhile [EnvDelete "u1"] []).
  - discriminate.
  - reflexivity.
  - reflexivity.
  - reflexivity.
  - reflexivity.
  - apply NoDup_singleton.
  - intros Hin. apply list_elem_of_singleton in Hin. discriminate Hin.
  - reflexivity.
  - reflexivity.
  - split; discriminate.
Defined.

End UpdateFields.

(** ** Records through their life *)

Module Records.
Import JS Runtime RuntimeFacts Api.

Lemma handler_DELETE (userId : string) (ps : gmap string string)
    (b : option json) (w : World) :
  userId ≠ "" -> ps !! "id" = Some userId ->
  Users.handler (mkEvent "DELETE" (Some ps) (option_map Json b)) w
  = guarded (Users.deleteUser userId) w.
Proof.
  intros Hne Hid.
  unfold Users.handler, Users.dispatch, guarded, path_param, bind at 1.
  cbn [body pathParameters httpMethod]. rewrite Hid.
  cbn [given String.eqb Ascii.eqb Bool.eqb].
  destruct (String.eqb_spec userId ""); [contradiction|].
  destruct b as [v|]; cbn [option_map parse_body text_truthy JSON_parse lift ret];
    unfold try_catch, bind, ret;
    destruct (Users.deleteUser userId w) as [[e|x] w']; reflexivity.
Qed.

Definition deleted : Response :=
  json_response 200 (JObj [("message", JStr "User deleted successfully")]).

Lemma deleteUser_ok (userId : string) (w : World) :
  userId ≠ "" -> keyName (config w) = "userId" -> fault (next_turn w) = None ->
  Users.deleteUser userId w =
  (inr deleted,
   after_call (DeleteCommand (Users.Key (JStr userId)))
     (delete userId (seen w)) w).
Proof.
  intros Hne Hpk Hf.
  unfold Users.deleteUser, try_catch, bind, send_delete, send, exec_delete.
  rewrite Hf, Hpk. unfold Users.Key. rewrite key_of_string by assumption.
  reflexivity.
Qed.

Lemma fetch_found (r : Resource) (id : string) (item : Item) (w : World) :
  id ≠ "" -> keyName (config w) = pk r ->
  fault (next_turn w) = None -> seen w !! id = Some item ->
  fetch r id w =
  (inr (json_response 200 (JObj item)), after_call (read r id) (seen w) w).
Proof.
  intros Hne Hpk Hf Hfound. destruct r; cbn [fetch pk] in *.
  - apply Retry.getUser_of_loop. change (Z.to_nat Users.retries) with 3%nat.
    rewrite Retry.getUser_loop_step. unfold Users.Key.
    rewrite (get_result_found "userId"), Hfound by assumption. reflexivity.
  - rewrite Reads.getAsset_step. unfold Assets.Key.
    rewrite (get_result_found "assetId"), Hfound by assumption. reflexivity.
Qed.

(** X12. [DELETE /users/{id}] is unconditional: in a world without
    failures or other writers it answers 200 whether or not the user is
    stored, the user is gone afterwards and the other records are as
    before; a second delete answers 200 again and a read answers 404. *)
Theorem delete_is_unconditional (userId : string) (ps : gmap string string)
    (w : World) :
  userId ≠ "" -> keyName (config w) = "userId" -> schedule w = [] ->
  ps !! "id" = Some userId ->
  let request := mkEvent "DELETE" (Some ps) None in
  let w1 := snd (Users.handler request w) in
  fst (Users.handler request w) = inr deleted
  ∧ table w1 = delete userId (table w)
  ∧ fst (Users.handler request w1) = inr deleted
  ∧ table (snd (Users.handler request w1)) = table w1
  ∧ fst (Users.getUser userId w1) = inr (error_response 404 "User not found").
Proof.
  intros Hne Hpk Hq Hid request w1.
  assert (E : Users.handler request w =
              (inr deleted,
               after_call (DeleteCommand (Users.Key (JStr userId)))
                 (delete userId (table w)) w)).
  { unfold request. rewrite (handler_DELETE userId ps None) by assumption.
    unfold guarded. rewrite deleteUser_ok by
      (try assumption; apply quiet_fault; assumption).
    rewrite seen_nil by assumption. reflexivity. }
  assert (Hq1 : schedule w1 = [])
    by (unfold w1; rewrite E; apply quiet_after_call; exact Hq).
  assert (Ht1 : table w1 = delete userId (table w))
    by (unfold w1; rewrite E; reflexivity).
  assert (Hpk1 : keyName (config w1) = "userId")
    by (unfold w1; rewrite E; exact Hpk).
  assert (E1 : Users.handler request w1 =
               (inr deleted,
                after_call (DeleteCommand (Users.Key (JStr userId)))
                  (delete userId (table w1)) w1)).
  { unfold request. rewrite (handler_DELETE userId ps None) by assumption.
    unfold guarded. rewrite deleteUser_ok by
      (try assumption; apply quiet_fault; assumption).
    rewrite seen_nil by assumption. reflexivity. }
  split; [rewrite E; reflexivity|]. split; [exact Ht1|].
  split; [rewrite E1; reflexivity|]. split.
  - rewrite E1. cbn [snd table after_call]. rewrite Ht1. apply delete_delete_eq.
  - change (Users.getUser userId w1) with (fetch User userId w1).
    rewrite (Reads.fetch_missing User userId w1);
      [reflexivity|assumption|assumption|apply quiet_fault; assumption|].
    rewrite seen_nil, Ht1 by assumption. apply lookup_delete_eq.
Qed.

Lemma delete_is_unconditional_witness :
  let request := mkEvent "DELETE" (Some {[ "id" := "nobody" ]}) None in
  let w := UpdateFields.u1_stored in
  let w1 := snd (Users.handler request w) in
  fst (Users.handler request w) = inr deleted
  ∧ table w1 = delete "nobody" (table w)
  ∧ fst (Users.handler request w1) = inr deleted
  ∧ table (snd (Users.handler request w1)) = table w1
  ∧ fst (Users.getUser "nobody" w1) = inr (error_response 404 "User not found").
Proof.
  apply (delete_is_unconditional "nobody" {[ "id" := "nobody" ]}
           UpdateFields.u1_stored).
  - discriminate.
  - reflexivity.
  - reflexivity.
  - reflexivity.
Defined.

(** X13. What was created is what is read: after a first creation (a
    valid body the document client can marshall, for an asset with a file
    name the storage key can print), a [GET] of the same identifier, at
    any later time, answers 200 with exactly the record the 201 carried,
    for users and assets alike. *)
Theorem created_is_read (r : Resource) (fs : Item) (id : string) (v : json)
    (w : World) (url : string) (c : Z) :
  Creation.fresh r fs id v w url ->
  exists (item : Item) (w1 : World),
    create r (JObj fs) w = (inr (created_response r item url), w1)
    ∧ fetch r id (with_clock c w1) =
        (inr (mkResponse 200 (JSON_stringify (JObj item))),
         after_call (read r id) (table w1) (with_clock c w1)).
Proof.
  intros Hfresh.
  destruct (Creation.create_fresh _ _ _ _ _ _ Hfresh)
    as (w1 & E & Hstored & Hq1 & Hc1).
  destruct Hfresh as ((_ & Hne & _) & Hpk & _).
  exists (new_record r fs id v w), w1. split; [exact E|].
  assert (Hq : schedule (with_clock c w1) = []) by exact Hq1.
  rewrite (fetch_found r id (new_record r fs id v w)).
  - rewrite (seen_nil _ Hq). reflexivity.
  - exact Hne.
  - cbn [config with_clock]. rewrite Hc1. exact Hpk.
  - apply quiet_fault. exact Hq.
  - rewrite (seen_nil _ Hq). exact Hstored.
Qed.

Lemma created_is_read_witness :
  exists (item : Item) (w1 : World),
    create User (JObj Creation.u1_body) (Creation.users_world ∅ [])
    = (inr (created_response User item ""), w1)
    ∧ fetch User "u1" (with_clock 1704067300000 w1) =
        (inr (mkResponse 200 (JSON_stringify (JObj item))),
         after_call (read User "u1") (table w1) (with_clock 1704067300000 w1)).
Proof.
  apply (created_is_read User Creation.u1_body "u1" (JStr "a@b.com")
           (Creation.users_world ∅ []) "" 1704067300000).
  exact Creation.u1_fresh.
Defined.

(** *** Blob references *)

Lemma getDownloadUrl_found (assetId : string) (item : Item) (w : World) :
  assetId ≠ "" -> keyName (config w) = "assetId" ->
  fault (next_turn w) = None -> seen w !! assetId = Some item ->
  Assets.getDownloadUrl assetId w =
  (match
     signer (config w)
       (GetObjectCommand (assoc "s3Bucket" item) (assoc "s3Key" item)) 3600
   with
   | inl e => inl e
   | inr downloadUrl =>
       inr (json_response 200
              (JObj ([("downloadUrl", JStr downloadUrl)]
                     ++ Assets.defined "fileName" (assoc "fileName" item)
                     ++ Assets.defined "contentType" (assoc "contentType" item))))
   end,
   after_call (read Asset assetId) (seen w) w).
Proof.
  intros Hne Hpk Hf Hfound.
  unfold Assets.getDownloadUrl, try_catch, bind at 1. rewrite send_get_eq by reflexivity.
  unfold Assets.Key. rewrite (get_result_found "assetId"), Hfound by assumption.
  unfold bind, getSignedUrl.
  change (config (after_call (GetCommand [("assetId", JStr assetId)]) (seen w) w))
    with (config w).
  destruct (signer (config w)
              (GetObjectCommand (assoc "s3Bucket" item) (assoc "s3Key" item)) 3600);
    reflexivity.
Qed.

(** The location an asset is stored at: [assets/{id}/{fileName}], the
    file name as the template literal prints it. *)
Definition location (id : string) (fileName : json) : string :=
  "assets/" +:+ id +:+ "/" +:+ printed fileName.

(** X14. The download reference of an asset points where its upload
    reference pointed: after a first creation (a valid body the document
    client can marshall, with a file name the storage key can print),
    [getDownloadUrl] asks the presigner, for one hour, for the bucket of
    the handler and the key [assets/{id}/{fileName}] the handler computed,
    the very location the upload reference of the 201 was issued for, and
    answers 200 with the reference, the file name and the content type of
    the record; nothing is written. *)
Theorem download_follows_upload (fs : Item) (id : string) (fileName : json)
    (w : World) (uploadUrl downloadUrl : string) :
  Creation.fresh Asset fs id fileName w uploadUrl ->
  signer (config w)
    (GetObjectCommand (Some (JStr (bucketName (config w))))
       (Some (JStr (location id fileName)))) 3600 = inr downloadUrl ->
  exists (item : Item) (w1 : World),
    Assets.uploadAsset (JObj fs) w = (inr (CreateAsset.created item uploadUrl), w1)
    ∧ Assets.s3Key_template (JStr id) fileName = inr (location id fileName)
    ∧ signer (config w)
        (PutObjectCommand (bucketName (config w)) (location id fileName)
           (CreateAsset.content_type fs)) 3600 = inr uploadUrl
    ∧ table w1 = <[id := item]> (table w)
    ∧ Assets.getDownloadUrl id w1 =
        (inr (mkResponse 200
                (JSON_stringify
                   (JObj [("downloadUrl", JStr downloadUrl);
                          ("fileName", fileName);
                          ("contentType", CreateAsset.content_type fs)]))),
         after_call (read Asset id) (table w1) w1).
Proof.
  intros (Hv & Hpk & Hq & Hnone & Hissued & Hst) Hsign.
  pose proof (Creation.create_first Asset fs id fileName uploadUrl w
                Hv Hpk Hq Hnone Hissued Hst) as E.
  cbn [create] in E.
  destruct Hv as (_ & Hne & _ & _ & Hp).
  exists (new_record Asset fs id fileName w). eexists.
  split; [exact E|].
  split; [apply CreateAsset.s3Key_template_printable, Hp|].
  split; [exact Hissued|]. split; [reflexivity|].
  assert (Hq1 : forall cmd t, schedule (after_call cmd t
                  (after_call (read Asset id) (table w) w)) = []).
  { intros cmd t. cbn [schedule after_call]. rewrite Hq. reflexivity. }
  rewrite (getDownloadUrl_found id (new_record Asset fs id fileName w)).
  - simpl_world. cbn [new_record CreateAsset.record CreateAsset.new_asset assoc
      String.eqb Ascii.eqb Bool.eqb].
    change (CreateAsset.s3Key id fileName) with (location id fileName).
    rewrite Hsign, (seen_nil _ (Hq1 _ _)). reflexivity.
  - exact Hne.
  - exact Hpk.
  - apply quiet_fault, Hq1.
  - rewrite (seen_nil _ (Hq1 _ _)). cbn [table after_call].
    apply lookup_insert_eq.
Qed.

(** A presigner whose references show what they were issued for. *)
Definition path_signer : S3Command -> Z -> Error + string :=
  fun cmd _ =>
    match cmd with
    | PutObjectCommand bucket key _ =>
        inr ("https://" +:+ bucket +:+ ".example/" +:+ key +:+ "?upload")
    | GetObjectCommand (Some (JStr bucket)) (Some (JStr key)) =>
        inr ("https://" +:+ bucket +:+ ".example/" +:+ key +:+ "?download")
    | GetObjectCommand _ _ => inl TypeError
    end.

Definition signed_world : World :=
  mkWorld (mkConfig "assetId" "bucket" path_signer api_reserved) ∅ []
    1704067200123 [] [].

Lemma download_follows_upload_witness :
  exists (item : Item) (w1 : World),
    Assets.uploadAsset (JObj Creation.a1_body) signed_world
    = (inr (CreateAsset.created item
              "https://bucket.example/assets/a1/f.txt?upload"), w1)
    ∧ Assets.s3Key_template (JStr "a1") (JStr "f.txt")
      = inr (location "a1" (JStr "f.txt"))
    ∧ signer (config signed_world)
        (PutObjectCommand (bucketName (config signed_world))
           (location "a1" (JStr "f.txt"))
           (CreateAsset.content_type Creation.a1_body)) 3600
      = inr "https://bucket.example/assets/a1/f.txt?upload"
    ∧ table w1 = <[ "a1" := item ]> (table signed_world)
    ∧ Assets.getDownloadUrl "a1" w1 =
        (inr (mkResponse 200
                (JSON_stringify
                   (JObj [("downloadUrl",
                           JStr "https://bucket.example/assets/a1/f.txt?download");
                          ("fileName", JStr "f.txt");
                          ("contentType",
                           CreateAsset.content_type Creation.a1_body)]))),
         after_call (read Asset "a1") (table w1) w1).
Proof.
  apply (download_follows_upload Creation.a1_body "a1" (JStr "f.txt")
           signed_world "https://bucket.example/assets/a1/f.txt?upload"
           "https://bucket.example/assets/a1/f.txt?download").
  - split; [exact Creation.a1_valid|]. split; [reflexivity|].
    split; [reflexivity|]. split; [reflexivity|]. split; [reflexivity|].
    split; [reflexivity|split; discriminate].
  - reflexivity.
Defined.

(** The write of a new asset goes through and the presigner then fails. *)
Lemma uploadAsset_unsigned (fs : Item) (assetId : string) (fileName : json)
    (err : Error) (w : World) :
  CreateAsset.valid_body fs assetId fileName ->
  keyName (config w) = "assetId" -> schedule w = [] ->
  table w !! assetId = None ->
  signer (config w) (CreateAsset.upload_request fs assetId fileName w) 3600
  = inl err ->
  name err ≠ "ConditionalCheckFailedException" ->
  marshals (CreateAsset.write fs assetId fileName w) = true ->
  Assets.uploadAsset (JObj fs) w =
  (inl err,
   after_call (CreateAsset.write fs assetId fileName w)
     (<[assetId := CreateAsset.record fs assetId fileName w]> (table w))
     (after_call (CreateAsset.read assetId) (table w) w)).
Proof.
  intros Hv Hpk Hq Hnone Hsign Hname Hm.
  assert (Hq1 : schedule (after_call (CreateAsset.read assetId) (table w) w) = [])
    by (apply quiet_after_call; exact Hq).
  rewrite (CreateAsset.uploadAsset_enter _ _ _ _ Hv).
  unfold CreateAsset.write, CreateAsset.record, CreateAsset.upload_request,
    CreateAsset.read, Assets.Key in *.
  unfold try_catch, bind at 1. rewrite send_get_eq by reflexivity.
  rewrite (get_result_found "assetId")
    by first [assumption | apply Hv | apply quiet_fault; assumption].
  rewrite (seen_nil _ Hq), Hnone.
  unfold bind, Date_now.
  unfold send_put, send, exec_put. simpl_world.
  rewrite Hm, (quiet_fault _ Hq1), (seen_nil _ Hq1).
  simpl_world. rewrite Hpk.
  rewrite CreateAsset.item_key_new_asset by apply Hv.
  cbn [table after_call]. rewrite Hnone. unfold getSignedUrl. simpl_world.
  rewrite Hsign.
  destruct (String.eqb_spec (name err) "ConditionalCheckFailedException");
    [contradiction|reflexivity].
Qed.

(** X15. When the presigner fails after the conditional write of a new
    asset (a valid body the document client can marshall, with a file name
    the storage key can print), the record stays stored although
    [POST /assets] answers 500; a
    repeated POST then finds the record and answers 200 with the message
    and the record only, so no upload reference is ever handed out for
    it. *)
Theorem upload_reference_lost (fs : Item) (id : string) (fileName : json)
    (ps : option (gmap string string)) (err : Error) (w : World) (c : Z) :
  valid Asset fs id fileName -> keyName (config w) = "assetId" ->
  schedule w = [] -> table w !! id = None ->
  signer (config w) (CreateAsset.upload_request fs id fileName w) 3600 = inl err ->
  name err ≠ "ConditionalCheckFailedException" -> storable fs w ->
  let request := mkEvent "POST" ps (Some (Json (JObj fs))) in
  let item := new_record Asset fs id fileName w in
  let w1 := snd (handler Asset request w) in
  fst (handler Asset request w)
    = inr (error_response 500 "Internal server error")
  ∧ table w1 !! id = Some item
  ∧ fst (handler Asset request (with_clock c w1)) =
      inr (mkResponse 200
             (JSON_stringify
                (JObj [("message", JStr "Asset already exists");
                       ("asset", JObj item)]))).
Proof.
  intros Hv Hpk Hq Hnone Hsign Hname Hst request item w1.
  assert (E : handler Asset request w =
              (inr (error_response 500 "Internal server error"),
               after_call (CreateAsset.write fs id fileName w)
                 (<[id := item]> (table w))
                 (after_call (CreateAsset.read id) (table w) w))).
  { unfold request. rewrite handler_POST. unfold guarded. cbn [create].
    rewrite (uploadAsset_unsigned fs id fileName err w)
      by first [assumption | exact (write_marshals Asset fs id fileName w Hv Hst)].
    reflexivity. }
  split; [rewrite E; reflexivity|].
  assert (Hstored : table w1 !! id = Some item)
    by (unfold w1; rewrite E; cbn [snd table after_call]; apply lookup_insert_eq).
  split; [exact Hstored|].
  unfold request. rewrite handler_POST. unfold guarded.
  rewrite (Creation.create_again Asset fs id fileName item (with_clock c w1)).
  - reflexivity.
  - exact Hv.
  - unfold w1. rewrite E. exact Hpk.
  - unfold w1. rewrite E. cbn [snd schedule with_clock after_call].
    rewrite Hq. reflexivity.
  - exact Hstored.
Qed.

Definition no_credentials : World :=
  mkWorld (mkConfig "assetId" "bucket" Creation.no_signer api_reserved) ∅ []
    1704067200123 [] [].

Lemma upload_reference_lost_witness :
  let request := mkEvent "POST" None (Some (Json (JObj Creation.a1_body))) in
  let item := new_record Asset Creation.a1_body "a1" (JStr "f.txt") no_credentials in
  let w1 := snd (handler Asset request no_credentials) in
  fst (handler Asset request no_credentials)
    = inr (error_response 500 "Internal server error")
  ∧ table w1 !! "a1" = Some item
  ∧ fst (handler Asset request (with_clock 1704067300000 w1)) =
      inr (mkResponse 200
             (JSON_stringify
                (JObj [("message", JStr "Asset already exists");
                       ("asset", JObj item)]))).
Proof.
  apply (upload_reference_lost Creation.a1_body "a1" (JStr "f.txt") None
           (mkError "CredentialsProviderError") no_credentials 1704067300000).
  - exact Creation.a1_valid.
  - reflexivity.
  - reflexivity.
  - reflexivity.
  - reflexivity.
  - discriminate.
  - split; [reflexivity|split; discriminate].
Defined.

(** *** Identifiers *)

Fixpoint slash_free (s : string) : bool :=
  match s with
  | EmptyString => true
  | String c rest => negb (Ascii.eqb c "/") && slash_free rest
  end.

Lemma append_slash_inj (id id' rest rest' : string) :
  slash_free id = true -> slash_free id' = true ->
  id +:+ "/" +:+ rest = id' +:+ "/" +:+ rest' -> id = id' ∧ rest = rest'.
Proof.
  revert id'. induction id as [|c id IH]; intros [|c' id'] Hfree Hfree' Heq.
  - injection Heq as Heq. split; [reflexivity|exact Heq].
  - injection Heq as Hc _. subst c'. cbn [slash_free] in Hfree'.
    rewrite Ascii.eqb_refl in Hfree'. discriminate.
  - injection Heq as Hc _. subst c. cbn [slash_free] in Hfree.
    rewrite Ascii.eqb_refl in Hfree. discriminate.
  - injection Heq as Hc Heq. subst c'. cbn [slash_free] in Hfree, Hfree'.
    apply andb_true_iff in Hfree as [_ Hfree].
    apply andb_true_iff in Hfree' as [_ Hfree'].
    destruct (IH id' Hfree Hfree' Heq) as [-> ->]. split; reflexivity.
Qed.

(** The hypothesis is needed: a slash in the identifier lets two assets
    share a location. *)
Lemma location_collision :
  location "a/b" (JStr "c") = location "a" (JStr "b/c").
Proof. reflexivity. Qed.

(** X16. Assets whose identifiers contain no slash are stored apart: two
    of them with the same location [assets/{id}/{fileName}] have the same
    identifier and the same file name. *)
Theorem location_injective (id id' fileName fileName' : string) :
  slash_free id = true -> slash_free id' = true ->
  location id (JStr fileName) = location id' (JStr fileName') ->
  id = id' ∧ fileName = fileName'.
Proof.
  intros Hfree Hfree' Heq. unfold location, printed in Heq.
  cbn [toString] in Heq.
  apply (append_slash_inj id id' fileName fileName' Hfree Hfree').
  change ("assets/" +:+ id +:+ "/" +:+ fileName)
    with ("assets/" +:+ (id +:+ "/" +:+ fileName)) in Heq.
  change ("assets/" +:+ id' +:+ "/" +:+ fileName')
    with ("assets/" +:+ (id' +:+ "/" +:+ fileName')) in Heq.
  injection Heq as Heq. exact Heq.
Qed.

Lemma location_injective_witness :
  location "a1" (JStr "f.txt") = location "a1" (JStr "f.txt")
  ∧ "a1" = "a1" ∧ "f.txt" = "f.txt".
Proof.
  split; [reflexivity|].
  apply (location_injective "a1" "a1" "f.txt" "f.txt"); reflexivity.
Defined.

Lemma key_of_other (pk : string) (u : json) :
  (forall s, u ≠ JStr s) -> key_of pk [(pk, u)] = None.
Proof. intros Hu. destruct u; try reflexivity. destruct (Hu s). reflexivity. Qed.

Lemma marshals_get (pk : string) (u : json) :
  marshals (GetCommand [(pk, u)]) = marshallable u.
Proof. unfold marshals. cbn [command_values map snd forallb]. apply andb_true_r. Qed.

(** The storage key of an asset is printed, or a TypeError is thrown. *)
Lemma s3Key_template_cases (u v : json) :
  (printable u ∧ printable v
   ∧ Assets.s3Key_template u v = inr ("assets/" +:+ printed u +:+ "/" +:+ printed v))
  ∨ (¬ (printable u ∧ printable v) ∧ Assets.s3Key_template u v = inl TypeError).
Proof.
  unfold Assets.s3Key_template, printable, printed.
  destruct (toString u) as [e|a] eqn:Hu.
  - right. split; [intros [[x [=]] _]|].
    rewrite (toString_error u e Hu). reflexivity.
  - destruct (toString v) as [e|f] eqn:Hv.
    + right. split; [intros [_ [x [=]]]|].
      rewrite (toString_error v e Hv). reflexivity.
    + left. split; [exists a; reflexivity|]. split; [exists f|]; reflexivity.
Qed.

(** Whether the storage key of the new record can be printed; a user has
    none. *)
Definition key_printed (r : Resource) (u v : json) : Prop :=
  match r with
  | User => True
  | Asset => printable u ∧ printable v
  end.

(** X17. An identifier that is truthy but not a string (a number, [true],
    an array, an object) passes the validation of a create, but no record
    is created and the request is answered 500.  When the document client
    can marshall it, the point-read is refused by the store, whose key is
    a string, after that one call, with nothing written; a number beyond
    the safe integers is refused by the document client before anything is
    sent; and in [POST /assets] an identifier or file name without string
    conversion (an object with a [toString] property) makes the storage
    key throw a TypeError before any call. *)
Theorem identifier_must_be_string (r : Resource) (fs : Item) (u v : json)
    (ps : option (gmap string string)) (w : World) :
  assoc (pk r) fs = Some u -> truthy (Some u) = true ->
  (forall s, u ≠ JStr s) ->
  assoc (second r) fs = Some v -> truthy (Some v) = true ->
  keyName (config w) = pk r -> fault (next_turn w) = None ->
  let w' := after_call (GetCommand [(pk r, u)]) (seen w) w in
  let request := mkEvent "POST" ps (Some (Json (JObj fs))) in
  let failure :=
    mkResponse 500 (JSON_stringify (JObj [("error", JStr "Internal server error")])) in
  (key_printed r u v -> marshallable u = true ->
   create r (JObj fs) w = (inl ValidationException, w')
   ∧ handler r request w = (inr failure, w')
   ∧ table w' = seen w)
  ∧ (key_printed r u v -> marshallable u = false ->
     create r (JObj fs) w = (inl MarshallError, w)
     ∧ handler r request w = (inr failure, w))
  ∧ (¬ key_printed r u v ->
     create r (JObj fs) w = (inl TypeError, w)
     ∧ handler r request w = (inr failure, w)).
Proof.
  intros Hu Htu Hnot Hv Htv Hpk Hf w' request failure.
  assert (Hh : forall e w1, create r (JObj fs) w = (inl e, w1) ->
                 handler r request w = (inr failure, w1)).
  { intros e w1 E. unfold request. rewrite handler_POST. unfold guarded.
    rewrite E. reflexivity. }
  assert (Hstore : marshallable u = true ->
            try_catch
              (let* existing := send_get [(pk r, u)] in
               match existing with
               | Some item => ret (exists_response r item)
               | None => throw ValidationException
               end)
              (fun error => throw error) w = (inl ValidationException, w')).
  { intros Hm. unfold try_catch, bind.
    rewrite send_get_eq by (rewrite marshals_get; exact Hm).
    unfold get_result. rewrite Hf, Hpk, key_of_other by assumption.
    reflexivity. }
  assert (Hget : marshallable u = true ->
            send_get [(pk r, u)] w = (inl ValidationException, w')).
  { intros Hm. rewrite send_get_eq by (rewrite marshals_get; exact Hm).
    unfold get_result. rewrite Hf, Hpk, key_of_other by assumption.
    reflexivity. }
  assert (Hclient : marshallable u = false ->
            send_get [(pk r, u)] w = (inl MarshallError, w)).
  { intros Hm. unfold send_get, send. rewrite marshals_get, Hm. reflexivity. }
  clear Hstore.
  assert (E : forall e w1, name e ≠ "ConditionalCheckFailedException" ->
                match r with
                | User => True
                | Asset => exists key, Assets.s3Key_template u v = inr key
                end ->
                send_get [(pk r, u)] w = (inl e, w1) ->
                create r (JObj fs) w = (inl e, w1)).
  { intros e w1 Hname Hkey Hsend.
    assert (Hneq : String.eqb (name e) "ConditionalCheckFailedException" = false)
      by (destruct (String.eqb_spec (name e) "ConditionalCheckFailedException");
          [contradiction|reflexivity]).
    destruct r; cbn [create pk second] in *;
      unfold Users.createUser, Assets.uploadAsset, bind at 1 2, lift at 1 2,
        get_prop, ret at 1 2;
      rewrite Hu, Hv, !required_truthy by assumption.
    - unfold try_catch, bind, Users.Key. rewrite Hsend, Hneq. reflexivity.
    - destruct Hkey as [key Hkey].
      unfold bind at 1, ret at 1. unfold try_catch, bind at 1.
      rewrite Hkey. cbn [lift]. unfold bind, Assets.Key.
      cbv beta iota delta [ret]. rewrite Hsend, Hneq. reflexivity. }
  assert (Hkey : key_printed r u v ->
            match r with
            | User => True
            | Asset => exists key, Assets.s3Key_template u v = inr key
            end).
  { destruct r; [trivial|]. intros Hp.
    destruct (s3Key_template_cases u v) as [(_ & _ & Hk)|[Hn _]];
      [eexists; exact Hk|contradiction]. }
  split; [|split].
  - intros Hp Hm.
    assert (Ec : create r (JObj fs) w = (inl ValidationException, w'))
      by (apply E; [discriminate|exact (Hkey Hp)|exact (Hget Hm)]).
    split; [exact Ec|]. split; [exact (Hh _ _ Ec)|reflexivity].
  - intros Hp Hm.
    assert (Ec : create r (JObj fs) w = (inl MarshallError, w))
      by (apply E; [discriminate|exact (Hkey Hp)|exact (Hclient Hm)]).
    split; [exact Ec|exact (Hh _ _ Ec)].
  - intros Hn.
    assert (Ec : create r (JObj fs) w = (inl TypeError, w)).
    { destruct r; [destruct Hn; exact I|]. cbn [create pk second key_printed] in *.
      destruct (s3Key_template_cases u v) as [(Hpu & Hpv & _)|[_ Hk]];
        [destruct Hn; split; assumption|].
      unfold Assets.uploadAsset, bind at 1 2, lift at 1 2, get_prop, ret at 1 2.
      rewrite Hu, Hv, !required_truthy by assumption.
      unfold bind at 1, ret at 1. unfold try_catch, bind at 1.
      rewrite Hk. reflexivity. }
    split; [exact Ec|exact (Hh _ _ Ec)].
Qed.

Lemma identifier_must_be_string_witness :
  let fs := [("assetId", JNum 7); ("fileName", JStr "f.txt")] in
  let w := Creation.assets_world ∅ [] in
  let w' := after_call (GetCommand [("assetId", JNum 7)]) (seen w) w in
  let request := mkEvent "POST" None (Some (Json (JObj fs))) in
  let failure :=
    mkResponse 500 (JSON_stringify (JObj [("error", JStr "Internal server error")])) in
  create Asset (JObj fs) w = (inl ValidationException, w')
  ∧ handler Asset request w = (inr failure, w')
  ∧ table w' = seen w.
Proof.
  assert (Hnot : forall s : string, JNum 7 ≠ JStr s) by discriminate.
  apply (proj1 (identifier_must_be_string Asset
                  [("assetId", JNum 7); ("fileName", JStr "f.txt")] (JNum 7)
                  (JStr "f.txt") None (Creation.assets_world ∅ [])
                  eq_refl eq_refl Hnot eq_refl eq_refl eq_refl eq_refl)).
  - split; [exists "7"|exists "f.txt"]; reflexivity.
  - reflexivity.
Defined.

(** *** Updates that find nothing, and what an update sends *)

Lemma handler_PUT (userId : string) (ps : gmap string string)
    (b : option json) (w : World) :
  userId ≠ "" -> ps !! "id" = Some userId ->
  Users.handler (mkEvent "PUT" (Some ps) (option_map Json b)) w
  = guarded (Users.updateUser userId (default (JObj []) b)) w.
Proof.
  intros Hne Hid.
  unfold Users.handler, Users.dispatch, guarded, path_param, bind at 1.
  cbn [Runtime.body pathParameters httpMethod]. rewrite Hid.
  cbn [given String.eqb Ascii.eqb Bool.eqb].
  destruct (String.eqb_spec userId ""); [contradiction|].
  destruct b as [v|];
    cbn [option_map parse_body text_truthy JSON_parse lift ret default
         from_option id];
    unfold try_catch, bind, ret;
    match goal with
    | |- context [match ?op w with _ => _ end] =>
        destruct (op w) as [[e|x] w']
    end; reflexivity.
Qed.

(** X18. [PUT /users/{id}] for an identifier with no stored record
    answers [404 {"error": "User not found"}] after the pre-read alone:
    no update is sent and the body is not even looked at, so any body,
    [null] included, gets the same answer. *)
Theorem update_of_missing_user (userId : string) (ps : gmap string string)
    (b : option json) (w : World) :
  userId ≠ "" -> keyName (config w) = "userId" ->
  fault (next_turn w) = None -> seen w !! userId = None ->
  ps !! "id" = Some userId ->
  let w' := after_call (GetCommand (Users.Key (JStr userId))) (seen w) w in
  Users.handler (mkEvent "PUT" (Some ps) (option_map Json b)) w
  = (inr (error_response 404 "User not found"), w')
  ∧ sent w' = (sent w ++ [GetCommand (Users.Key (JStr userId))])%list
  ∧ table w' = seen w.
Proof.
  intros Hne Hpk Hf Hnone Hid w'.
  split; [|split; reflexivity].
  rewrite (handler_PUT userId) by assumption. unfold guarded.
  rewrite Update.updateUser_missing by assumption. reflexivity.
Qed.

Lemma update_of_missing_user_witness :
  let w := Creation.users_world ∅ [] in
  let w' := after_call (GetCommand (Users.Key (JStr "u1"))) (seen w) w in
  Users.handler (mkEvent "PUT" (Some {[ "id" := "u1" ]})
                   (option_map Json (Some JNull))) w
  = (inr (error_response 404 "User not found"), w')
  ∧ sent w' = (sent w ++ [GetCommand (Users.Key (JStr "u1"))])%list
  ∧ table w' = seen w.
Proof.
  apply (update_of_missing_user "u1" {[ "id" := "u1" ]} (Some JNull)
           (Creation.users_world ∅ [])).
  - discriminate.
  - reflexivity.
  - reflexivity.
  - reflexivity.
  - reflexivity.
Defined.

(** X19. What an update sets, for any body: [updatedAt] first, then the
    keys of the body in their order except [userId], each from the
    placeholder [:key]; so the identifier is never among the attributes
    set. *)
Theorem update_expression_shape (now : Z) (entries : list (string * json)) :
  fst (Users.update_clauses now entries)
  = map (fun k => (k, ":" +:+ k))
      ("updatedAt" :: filter (fun k => k ≠ "userId") (map fst entries))
  ∧ "userId" ∉ map fst (fst (Users.update_clauses now entries)).
Proof.
  split; [|apply Update.update_excludes_identifier].
  assert (Hp : Forall (fun c => snd c = ":" +:+ fst c)
                 (fst (Users.update_clauses now entries))).
  { apply UpdateFields.foldl_update_placeholders. repeat constructor. }
  pose proof (UpdateFields.update_clauses_attrs now entries) as Ha.
  unfold UpdateFields.set_attrs in Ha. rewrite <- Ha. clear Ha.
  induction Hp as [|[a p] clauses Hc _ IH]; [reflexivity|].
  cbn [map fst snd] in *. subst p. rewrite <- IH. reflexivity.
Qed.

(** X20. The loser of a create race does not touch the winner's record:
    when another writer has created the record between the point-read and
    the conditional write of a create (a valid body the document client
    can marshall), and the second read goes through undisturbed, the
    create answers 200 with the message and the winner's record, which is
    still what is stored. *)
Theorem loser_returns_winner (r : Resource) (fs : Item) (id : string)
    (v : json) (winner : Item) (w : World) :
  valid r fs id v -> keyName (config w) = pk r ->
  fault (next_turn w) = None -> seen w !! id = None -> storable fs w ->
  let w1 := after_call (read r id) (seen w) w in
  fault (next_turn w1) = None ->
  seen w1 !! id = Some winner -> is_Some (assoc (pk r) winner) ->
  let w2 := after_call (write r fs id v w) (seen w1) w1 in
  next_turn w2 = quiet ->
  exists w3 : World,
    create r (JObj fs) w =
      (inr (mkResponse 200
              (JSON_stringify
                 (JObj [("message", JStr (exists_message r));
                        (record_field r, JObj winner)]))),
       w3)
    ∧ table w3 !! id = Some winner
    ∧ sent w3 = (sent w ++ [read r id; write r fs id v w; read r id])%list.
Proof.
  intros Hv Hpk Hf Hnone Hst w1 Hf1 Hwinner Hattr w2 Hquiet.
  pose proof (create_lost_race r fs id v winner w Hv Hpk Hf Hnone Hf1 Hwinner Hattr
                Hst) as E.
  cbv zeta in E. fold w1 in E. fold w2 in E.
  assert (Hseen2 : seen w2 = seen w1)
    by (unfold seen at 1; rewrite Hquiet; reflexivity).
  rewrite (get_result_found (pk r)) in E.
  - rewrite Hseen2, Hwinner, exists_response_eq in E.
    eexists. split; [exact E|].
    split; [cbn [table after_call]; exact Hwinner|].
    cbn [sent after_call w2 w1]. rewrite <- !app_assoc. reflexivity.
  - exact Hpk.
  - apply Hv.
  - rewrite Hquiet. reflexivity.
Qed.

Lemma loser_returns_winner_witness :
  exists w3 : World,
    create User (JObj Creation.u1_body) Creation.created_meanwhile
    = (inr (mkResponse 200
              (JSON_stringify
                 (JObj [("message", JStr (exists_message User));
                        (record_field User,
                         JObj [("userId", JStr "u1"); ("email", JStr "x@y.z")])]))),
       w3)
    ∧ table w3 !! "u1" = Some [("userId", JStr "u1"); ("email", JStr "x@y.z")]
    ∧ sent w3 =
        (sent Creation.created_meanwhile
         ++ [read User "u1";
             write User Creation.u1_body "u1" (JStr "a@b.com")
               Creation.created_meanwhile;
             read User "u1"])%list.
Proof.
  apply (loser_returns_winner User Creation.u1_body "u1" (JStr "a@b.com")
           [("userId", JStr "u1"); ("email", JStr "x@y.z")]
           Creation.created_meanwhile).
  - exact Creation.u1_valid.
  - reflexivity.
  - reflexivity.
  - reflexivity.
  - split; [reflexivity|split; discriminate].
  - reflexivity.
  - reflexivity.
  - exists (JStr "u1"). reflexivity.
  - reflexivity.
Defined.

(** *** What the store and the document client refuse *)

Lemma forallb_refuted {A} (f : A -> bool) (x : A) (xs : list A) :
  x ∈ xs -> f x = false -> forallb f xs = false.
Proof.
  intros Hin Hx. apply not_true_is_false. intros Hall.
  rewrite forallb_forall in Hall.
  rewrite (Hall x) in Hx by (apply list_elem_of_In, Hin). discriminate.
Qed.

(** X21. An update writes the keys of the body into the expression as
    they are: when one of them (other than [userId]) is a reserved word of
    the store, such as [name], or no token, such as [0], the store refuses
    the update after the pre-read; [PUT /users/{id}] answers 500 and the
    record is as it was. *)
Theorem update_refuses_names (userId : string) (ps : gmap string string)
    (entries : list (string * json)) (old : Item) (k : string) (w : World) :
  userId ≠ "" -> keyName (config w) = "userId" -> schedule w = [] ->
  table w !! userId = Some old -> ps !! "id" = Some userId ->
  k ∈ map fst entries -> k ≠ "userId" -> bare_name (config w) k = false ->
  marshallable (JObj entries) = true -> clock_in_range w ->
  let w' := snd (Users.handler
                   (mkEvent "PUT" (Some ps) (Some (Json (JObj entries)))) w) in
  fst (Users.handler (mkEvent "PUT" (Some ps) (Some (Json (JObj entries)))) w)
  = inr (mkResponse 500
           (JSON_stringify (JObj [("error", JStr "Internal server error")])))
  ∧ table w' = table w
  ∧ length (sent w') = (length (sent w) + 2)%nat.
Proof.
  intros Hne Hpk Hq Hold Hid Hin Hk Hbare Hm Hc w'.
  pose (w1 := after_call (GetCommand (Users.Key (JStr userId))) (seen w) w).
  pose (sets := Users.update_clauses (floor_seconds (clock w)) entries).
  assert (Hq1 : schedule w1 = []) by (apply quiet_after_call; exact Hq).
  assert (E : Users.updateUser userId (JObj entries) w =
              (inl ValidationException,
               after_call
                 (UpdateCommand (Users.Key (JStr userId)) (fst sets) (snd sets))
                 (table w1) w1)).
  { pose proof (UpdateFields.update_marshals userId entries w Hm Hc) as Hms.
    cbv zeta in Hms. fold sets in Hms.
    unfold Users.updateUser, try_catch, bind at 1.
    rewrite send_get_eq by reflexivity.
    unfold Users.Key at 1.
    rewrite (get_result_found "userId"), (seen_nil _ Hq), Hold
      by first [assumption | apply quiet_fault; assumption].
    rewrite <- (seen_nil _ Hq) at 1. fold (Users.Key (JStr userId)). fold w1.
    unfold bind, Date_now, lift, Object_entries, ret.
    change (clock w1) with (clock w). fold sets.
    destruct sets as [updateExpr exprAttr] eqn:Hsets. cbn [fst snd] in *.
    unfold send_update, send, exec_update.
    rewrite Hms, (quiet_fault _ Hq1), (seen_nil _ Hq1).
    change (config w1) with (config w). rewrite Hpk.
    unfold Users.Key. rewrite key_of_string by assumption.
    assert (Hattrs : map fst updateExpr = UpdateFields.set_attrs entries).
    { change updateExpr with (fst (updateExpr, exprAttr)). rewrite <- Hsets.
      apply UpdateFields.update_clauses_attrs. }
    rewrite Hattrs, (forallb_refuted _ k); [reflexivity| |exact Hbare].
    unfold UpdateFields.set_attrs. apply list_elem_of_further.
    apply list_elem_of_filter. split; assumption. }
  assert (Eh : Users.handler
                 (mkEvent "PUT" (Some ps) (Some (Json (JObj entries)))) w =
               (inr (error_response 500 "Internal server error"),
                after_call
                  (UpdateCommand (Users.Key (JStr userId)) (fst sets) (snd sets))
                  (table w1) w1)).
  { rewrite (handler_PUT userId ps (Some (JObj entries))) by assumption.
    unfold guarded. cbn [default from_option id]. rewrite E. reflexivity. }
  unfold w'. rewrite Eh. split; [reflexivity|].
  split; [cbn [snd table after_call w1]; apply seen_nil, Hq|].
  cbn [snd sent after_call w1]. rewrite !length_app. cbn [length]. lia.
Qed.

Lemma update_refuses_names_witness :
  let request :=
    mkEvent "PUT" (Some {[ "id" := "u1" ]})
      (Some (Json (JObj [("name", JStr "Jane Doe");
                         ("department", JStr "Marketing")]))) in
  let w := UpdateFields.u1_stored in
  fst (Users.handler request w)
  = inr (mkResponse 500
           (JSON_stringify (JObj [("error", JStr "Internal server error")])))
  ∧ table (snd (Users.handler request w)) = table w
  ∧ length (sent (snd (Users.handler request w))) = (length (sent w) + 2)%nat.
Proof.
  apply (update_refuses_names "u1" {[ "id" := "u1" ]}
           [("name", JStr "Jane Doe"); ("department", JStr "Marketing")]
           Update.u1_record "name" UpdateFields.u1_stored).
  - discriminate.
  - reflexivity.
  - reflexivity.
  - reflexivity.
  - reflexivity.
  - apply list_elem_of_here.
  - discriminate.
  - reflexivity.
  - reflexivity.
  - split; discriminate.
Defined.

(** X22. A new record the document client cannot marshall (a number
    beyond the safe integers in a field that goes into the record, such as
    a [name] of 2^53) is not created: the conditional write throws before
    anything is sent, create throws that error after the point-read alone
    and [POST] is answered 500, with nothing stored. *)
Theorem unsafe_number_not_stored (r : Resource) (fs : Item) (id : string)
    (v : json) (ps : option (gmap string string)) (w : World) :
  valid r fs id v -> keyName (config w) = pk r ->
  fault (next_turn w) = None -> seen w !! id = None ->
  marshals (write r fs id v w) = false ->
  let w1 := after_call (read r id) (seen w) w in
  create r (JObj fs) w = (inl MarshallError, w1)
  ∧ handler r (mkEvent "POST" ps (Some (Json (JObj fs)))) w
    = (inr (mkResponse 500
              (JSON_stringify (JObj [("error", JStr "Internal server error")]))),
       w1)
  ∧ table w1 = seen w
  ∧ sent w1 = (sent w ++ [read r id])%list.
Proof.
  intros Hv Hpk Hf Hnone Hm w1.
  assert (E : create r (JObj fs) w = (inl MarshallError, w1)).
  { destruct r; cbn [create pk] in *.
    - rewrite (CreateUser.createUser_enter _ _ _ _ (valid_user _ _ _ Hv)).
      unfold write, new_record, CreateUser.record in Hm. subst w1.
      unfold read, Users.Key in *. cbn [pk] in *.
      unfold try_catch, bind at 1. rewrite send_get_eq by reflexivity.
      rewrite (get_result_found "userId") by (try assumption; apply Hv).
      rewrite Hnone.
      unfold bind, Date_now. rewrite !CreateUser.optional_field_obj.
      simpl_world.
      fold (CreateUser.new_user fs (JStr id) v (floor_seconds (clock w))).
      unfold send_put, send. rewrite Hm. reflexivity.
    - rewrite (CreateAsset.uploadAsset_enter _ _ _ _ (valid_asset _ _ _ Hv)).
      unfold write, new_record, CreateAsset.record in Hm. subst w1.
      unfold read, Assets.Key in *. cbn [pk] in *.
      unfold try_catch, bind at 1. rewrite send_get_eq by reflexivity.
      rewrite (get_result_found "assetId") by (try assumption; apply Hv).
      rewrite Hnone.
      unfold bind, Date_now. simpl_world.
      unfold send_put, send. rewrite Hm. reflexivity. }
  split; [exact E|]. split; [|split; reflexivity].
  rewrite handler_POST. unfold guarded. rewrite E. reflexivity.
Qed.

Definition u1_unsafe_name : Item :=
  [("userId", JStr "u1"); ("email", JStr "a@b.com");
   ("name", JNum 9007199254740992)].

Lemma unsafe_number_not_stored_witness :
  let w := Creation.users_world ∅ [] in
  let w1 := after_call (read User "u1") (seen w) w in
  create User (JObj u1_unsafe_name) w = (inl MarshallError, w1)
  ∧ handler User (mkEvent "POST" None (Some (Json (JObj u1_unsafe_name)))) w
    = (inr (mkResponse 500
              (JSON_stringify (JObj [("error", JStr "Internal server error")]))),
       w1)
  ∧ table w1 = seen w
  ∧ sent w1 = (sent w ++ [read User "u1"])%list.
Proof.
  apply (unsafe_number_not_stored User u1_unsafe_name "u1" (JStr "a@b.com")
           None (Creation.users_world ∅ [])).
  - split; [reflexivity|]. split; [discriminate|]. split; [reflexivity|].
    split; [reflexivity|exact I].
  - reflexivity.
  - reflexivity.
  - reflexivity.
  - reflexivity.
Defined.

End Records.
